(** * ifs125preview: the OPUS reader [ftsreader] and the smoother [smooth_ifg]

    A shallow embedding of [125HR_preview.py].

    - Python objects that the program mutates ([self.log], [self.fs],
      [self.header], ...) live in a record [ftsreader] that is threaded
      through a small state-and-exception monad; a raised exception keeps
      the mutations made before it, as in Python.
    - A [dict] is an association list in insertion order, the order in which
      Python iterates over it.
    - [bytes] are [list byte]; [struct.unpack] is written out for the five
      formats the program uses, in the native layout of the little-endian
      machines that OPUS files are written and read on.
    - A Python [str] is a [string].  Tags obtained by [bytes.decode()] are kept
      in their UTF-8 encoding (decoding is injective, so the dictionary keys
      are the same); texts decoded with ISO-8859-1 have one character per byte.
    - The numerical part ([smooth_ifg]) is stated over the real numbers:
      every double is read as the real it denotes and rounding is left out. *)

From Stdlib Require Import ZArith List Bool Lia DecimalString.
From Stdlib.Strings Require Import String Ascii Byte.
From Stdlib Require Import Reals Lra.
Import ListNotations.

Local Open Scope string_scope.
Local Open Scope list_scope.
Local Open Scope Z_scope.

Notation "s1 +++ s2" := (String.append s1 s2) (at level 60, right associativity).

(** ** Python primitives *)

Module Py.

(** The exceptions the modelled code can raise.  [FuelExhausted] is not a
    Python exception: it marks a loop of the model that ran out of fuel
    and is shown never to occur. *)
Inductive exn : Type :=
| StructError
| ValueError
| TypeError
| KeyError
| IndexError
| AttributeError
| UnicodeDecodeError
| OSError
| UnboundLocalError
| ZeroDivisionError
| FuelExhausted.

Inductive result (A : Type) : Type :=
| Ok (a : A)
| Raise (e : exn).
Arguments Ok {A} a.
Arguments Raise {A} e.

Definition rbind {A B} (r : result A) (k : A -> result B) : result B :=
  match r with
  | Ok a => k a
  | Raise e => Raise e
  end.

Definition is_ok {A} (r : result A) : bool :=
  match r with Ok _ => true | Raise _ => false end.

(** [a[start:stop]] with Python's treatment of negative and out-of-range
    bounds; [None] is an omitted bound. *)
Definition slice_index (n : nat) (i : Z) : nat :=
  let j := if i <? 0 then i + Z.of_nat n else i in
  Z.to_nat (Z.min (Z.of_nat n) (Z.max 0 j)).

Definition slice_bounds (n : nat) (start stop : option Z) : nat * nat :=
  (match start with None => 0%nat | Some i => slice_index n i end,
   match stop with None => n | Some j => slice_index n j end).

Definition slice {A} (a : list A) (start stop : option Z) : list A :=
  let '(lo, hi) := slice_bounds (List.length a) start stop in
  firstn (hi - lo) (skipn lo a).

(** [str(i)] for an [int]. *)
Definition str_of_Z (z : Z) : string := NilZero.string_of_int (Z.to_int z).

Fixpoint spaces (n : nat) : string :=
  match n with
  | O => EmptyString
  | S k => String " " (spaces k)
  end.

(** ['%3i' % z]: right-justified in a field of width 3. *)
Definition fmt_3i (z : Z) : string :=
  let s := str_of_Z z in
  spaces (3 - String.length s) +++ s.

(** [needle in hay] for two [str]. *)
Fixpoint contains (needle hay : string) : bool :=
  String.prefix needle hay
  || match hay with
     | EmptyString => false
     | String _ rest => contains needle rest
     end.

(** [s.rfind(c)]: index of the last occurrence, [-1] if there is none. *)
Fixpoint rfind_from (c : ascii) (s : string) (i : Z) (last : Z) : Z :=
  match s with
  | EmptyString => last
  | String a rest =>
      rfind_from c rest (i + 1) (if Ascii.eqb a c then i else last)
  end.

Definition rfind (c : ascii) (s : string) : Z := rfind_from c s 0 (-1).

Definition str_slice (s : string) (start stop : option Z) : string :=
  string_of_list_ascii (slice (list_ascii_of_string s) start stop).

(** *** Dictionaries, in insertion order *)

Definition dict (V : Type) : Type := list (string * V).

Fixpoint dict_get {V} (k : string) (d : dict V) : option V :=
  match d with
  | [] => None
  | (k', v) :: r => if String.eqb k k' then Some v else dict_get k r
  end.

(** [d[k] = v]: an existing key keeps its place, a new one goes last. *)
Fixpoint dict_set {V} (k : string) (v : V) (d : dict V) : dict V :=
  match d with
  | [] => [(k, v)]
  | (k', v') :: r =>
      if String.eqb k k' then (k, v) :: r else (k', v') :: dict_set k v r
  end.

Definition dict_keys {V} (d : dict V) : list string := map fst d.

Definition dict_mem {V} (k : string) (d : dict V) : bool :=
  match dict_get k d with Some _ => true | None => false end.

(** [d[k]], raising [KeyError]. *)
Definition dict_item {V} (k : string) (d : dict V) : result V :=
  match dict_get k d with
  | Some v => Ok v
  | None => Raise KeyError
  end.

(** *** [float(s)] for a [str] *)

(** What the division [2*0.9/float(res)] needs of a float: whether it is
    zero. *)
Inductive float_class : Type :=
| FZero
| FNonzero.

Definition is_digit (c : ascii) : bool :=
  let n := nat_of_ascii c in (48 <=? n)%nat && (n <=? 57)%nat.

Definition is_space (c : ascii) : bool :=
  let n := nat_of_ascii c in
  ((9 <=? n)%nat && (n <=? 13)%nat) || (n =? 32)%nat.

Definition to_lower (c : ascii) : ascii :=
  let n := nat_of_ascii c in
  if (65 <=? n)%nat && (n <=? 90)%nat then ascii_of_nat (n + 32) else c.

(** The characters of [s] as [float] sees them: the two spaces above 127
    (NEL, NBSP) become blanks; any other character from 127 on stops the
    conversion. *)
Fixpoint to_ascii_spaces (s : list ascii) : option (list ascii) :=
  match s with
  | [] => Some []
  | c :: r =>
      let n := nat_of_ascii c in
      if (n <? 127)%nat then option_map (cons c) (to_ascii_spaces r)
      else if (n =? 133)%nat || (n =? 160)%nat
      then option_map (cons " "%char) (to_ascii_spaces r)
      else None
  end.

(** Underscores are removed; one is allowed between two digits only. *)
Fixpoint drop_underscores (prev : ascii) (s : list ascii)
  : option (list ascii) :=
  match s with
  | [] => if Ascii.eqb prev "_" then None else Some []
  | c :: r =>
      if Ascii.eqb c "_" then
        if is_digit prev then drop_underscores c r else None
      else if Ascii.eqb prev "_" && negb (is_digit c) then None
      else option_map (cons c) (drop_underscores c r)
  end.

Fixpoint lstrip (s : list ascii) : list ascii :=
  match s with
  | c :: r => if is_space c then lstrip r else s
  | [] => []
  end.

Definition strip (s : list ascii) : list ascii :=
  rev (lstrip (rev (lstrip s))).

Fixpoint span_digits (s : list ascii) : list ascii * list ascii :=
  match s with
  | c :: r =>
      if is_digit c
      then let '(d, rest) := span_digits r in (c :: d, rest)
      else ([], s)
  | [] => ([], [])
  end.

Definition digits_value (d : list ascii) : Z :=
  fold_left (fun acc c => 10 * acc + (Z.of_nat (nat_of_ascii c) - 48)) d 0.

Definition drop_sign (s : list ascii) : bool * list ascii :=
  match s with
  | c :: r =>
      if Ascii.eqb c "-" then (true, r)
      else if Ascii.eqb c "+" then (false, r)
      else (false, s)
  | [] => (false, [])
  end.

(** The exponent part, if there is a complete one. *)
Definition exponent (s : list ascii) : Z * list ascii :=
  match s with
  | c :: r =>
      if Ascii.eqb (to_lower c) "e" then
        let '(neg, r1) := drop_sign r in
        let '(d, rest) := span_digits r1 in
        match d with
        | [] => (0, s)
        | _ => ((if neg then - digits_value d else digits_value d), rest)
        end
      else (0, s)
  | [] => (0, [])
  end.

(** Is [m * 10^e] rounded to zero?  The smallest positive double is
    [2^-1074]; what is at most half of it is rounded to zero. *)
Definition rounds_to_zero (m e : Z) : bool :=
  (m =? 0) || ((e <? 0) && (m * 2 ^ 1075 <=? 10 ^ (- e))).

(** A decimal number: digits with at most one point and at least one
    digit, then an optional exponent, and nothing else. *)
Definition decimal_class (s : list ascii) : result float_class :=
  let '(int_part, r1) := span_digits s in
  let '(frac_part, r2) :=
    match r1 with
    | c :: r => if Ascii.eqb c "." then span_digits r else ([], r1)
    | [] => ([], [])
    end in
  match int_part ++ frac_part with
  | [] => Raise ValueError
  | mantissa =>
      let '(e, r3) := exponent r2 in
      match r3 with
      | [] =>
          Ok (if rounds_to_zero (digits_value mantissa)
                   (e - Z.of_nat (List.length frac_part))
              then FZero else FNonzero)
      | _ => Raise ValueError
      end
  end.

(** [float(s)]: [ValueError] unless [s] is, between blanks, a signed
    decimal number, infinity or NaN. *)
Definition float_of_str (s : string) : result float_class :=
  match to_ascii_spaces (list_ascii_of_string s) with
  | None => Raise ValueError
  | Some a =>
      match drop_underscores zero a with
      | None => Raise ValueError
      | Some b =>
          let body := snd (drop_sign (strip b)) in
          let word := string_of_list_ascii (map to_lower body) in
          if String.eqb word "inf" || String.eqb word "infinity"
             || String.eqb word "nan"
          then Ok FNonzero
          else decimal_class body
      end
  end.

End Py.
Import Py.

(** ** Binary data: file objects and [struct.unpack] *)

Module Bin.

Definition bytes : Type := list byte.

(** [f.seek(pos); f.read(size)] on a file object holding [content]:
    whatever is there, up to [size] bytes; everything that is left when
    [size] is negative.  ([pos] is checked by [seek], below.) *)
Definition read_at (content : bytes) (pos : Z) (size : Z) : bytes :=
  let rest := skipn (Z.to_nat pos) content in
  if size <? 0 then rest else firstn (Z.to_nat size) rest.

(** Little-endian unsigned value of a byte string. *)
Fixpoint le_uint (bs : bytes) : Z :=
  match bs with
  | [] => 0
  | b :: r => Z.of_N (Byte.to_N b) + 256 * le_uint r
  end.

(** Two's complement reading on [w] bits. *)
Definition to_signed (w : Z) (u : Z) : Z :=
  if u <? 2 ^ (w - 1) then u else u - 2 ^ w.

Definition le_int32 (bs : bytes) : Z := to_signed 32 (le_uint bs).

Definition sub (bs : bytes) (off len : nat) : bytes :=
  firstn len (skipn off bs).

Definition has_len (bs : bytes) (n : Z) : bool :=
  Z.of_nat (List.length bs) =? n.

(** [struct.unpack('6i', s)] *)
Definition unpack_6i (s : bytes) : result (Z * Z * Z * Z * Z * Z) :=
  if has_len s 24 then
    Ok (le_int32 (sub s 0 4), le_int32 (sub s 4 4), le_int32 (sub s 8 4),
        le_int32 (sub s 12 4), le_int32 (sub s 16 4), le_int32 (sub s 20 4))
  else Raise StructError.

(** [struct.unpack('2BH2i', s)] *)
Definition unpack_2BH2i (s : bytes) : result (Z * Z * Z * Z * Z) :=
  if has_len s 12 then
    Ok (le_uint (sub s 0 1), le_uint (sub s 1 1), le_uint (sub s 2 2),
        le_int32 (sub s 4 4), le_int32 (sub s 8 4))
  else Raise StructError.

(** [struct.unpack('4s2H', s)] *)
Definition unpack_4s2H (s : bytes) : result (bytes * Z * Z) :=
  if has_len s 8 then
    Ok (sub s 0 4, le_uint (sub s 4 2), le_uint (sub s 6 2))
  else Raise StructError.

(** Cut [bs] into [count] words of [w] bytes. *)
Fixpoint chunks (w : nat) (count : nat) (bs : bytes) : list bytes :=
  match count with
  | O => []
  | S k => firstn w bs :: chunks w k (skipn w bs)
  end.

(** [struct.unpack('%1ii' % count, data)]: a negative count gives a
    malformed format string. *)
Definition unpack_ni (count : Z) (data : bytes) : result (list Z) :=
  if (0 <=? count) && has_len data (4 * count)
  then Ok (map le_int32 (chunks 4 (Z.to_nat count) data))
  else Raise StructError.

(** [struct.unpack('%1id' % count, data)]; a double is kept as its 64-bit
    pattern. *)
Definition unpack_nd (count : Z) (data : bytes) : result (list Z) :=
  if (0 <=? count) && has_len data (8 * count)
  then Ok (map le_uint (chunks 8 (Z.to_nat count) data))
  else Raise StructError.

(** [struct.unpack('%1if' % count, data)]; a float is kept as its 32-bit
    pattern. *)
Definition unpack_nf (count : Z) (data : bytes) : result (list Z) :=
  if (0 <=? count) && has_len data (4 * count)
  then Ok (map le_uint (chunks 4 (Z.to_nat count) data))
  else Raise StructError.

(** [struct.unpack('%1is' % count, data)] *)
Definition unpack_ns (count : Z) (data : bytes) : result bytes :=
  if (0 <=? count) && has_len data count
  then Ok data
  else Raise StructError.

(** Is [bs] well-formed UTF-8 (what [bytes.decode()] accepts)? *)
Definition cont (b : byte) : bool :=
  let n := Z.of_N (Byte.to_N b) in (128 <=? n) && (n <=? 191).

Definition in_range (lo hi : Z) (b : byte) : bool :=
  let n := Z.of_N (Byte.to_N b) in (lo <=? n) && (n <=? hi).

Fixpoint utf8_valid (bs : bytes) : bool :=
  match bs with
  | [] => true
  | b0 :: r0 =>
      if in_range 0 127 b0 then utf8_valid r0
      else if in_range 194 223 b0 then
        match r0 with
        | b1 :: r1 => cont b1 && utf8_valid r1
        | _ => false
        end
      else if in_range 224 239 b0 then
        match r0 with
        | b1 :: b2 :: r2 =>
            in_range (if in_range 224 224 b0 then 160 else 128)
                     (if in_range 237 237 b0 then 159 else 191) b1
            && cont b2 && utf8_valid r2
        | _ => false
        end
      else if in_range 240 244 b0 then
        match r0 with
        | b1 :: b2 :: b3 :: r3 =>
            in_range (if in_range 240 240 b0 then 144 else 128)
                     (if in_range 244 244 b0 then 143 else 191) b1
            && cont b2 && cont b3 && utf8_valid r3
        | _ => false
        end
      else false
  end.

(** [para.decode()] *)
Definition decode_utf8 (bs : bytes) : result string :=
  if utf8_valid bs then Ok (string_of_list_byte bs)
  else Raise UnicodeDecodeError.

(** The loop over [t] in [getparamsfromblock]: the characters before the
    first NUL. *)
Fixpoint until_nul (bs : bytes) : bytes :=
  match bs with
  | [] => []
  | b :: r => if Byte.eqb b x00 then [] else b :: until_nul r
  end.

End Bin.
Import Bin.

(** ** The reader: class [ftsreader] *)

Module Fts.

(** One entry of [self.fs]. *)
Record BlockDescriptor : Type := {
  blocktype : string;
  blocktype2 : string;
  length : Z;
  offset : Z
}.

(** A decoded parameter: [int], [float] (its 64-bit pattern) or [str]. *)
Inductive HeaderValue : Type :=
| VInt (i : Z)
| VFloat (bits : Z)
| VStr (s : string).

(** What [self.log.append] receives: a message, an exception object, or
    ['Problem with '+str(e)]. *)
Inductive log_entry : Type :=
| Msg (s : string)
| Exc (e : exn)
| Problem (e : exn).

(** The x-axis [np.linspace(start, stop, num)], by its arguments:
    [AOpd res] is [2*0.9/float(res)], [APar v] a header value.  The
    conversions that can fail are made where the axis is built. *)
Inductive axis_end : Type :=
| AZero
| AOpd (res : HeaderValue)
| APar (v : HeaderValue).

Record linspace : Type := {
  ax_start : axis_end;
  ax_stop : axis_end;
  ax_num : nat
}.

(** The attributes of a reader; [None] is an attribute not yet set. *)
Record ftsreader : Type := {
  log : list log_entry;
  status : bool;
  verbose : bool;
  path : string;
  filemode : string;
  streamdata : option bytes;
  folder : option string;
  filename : option string;
  isftsfile : option bool;
  fs : option (dict BlockDescriptor);
  header : option (dict (dict HeaderValue));
  ifgopd : option linspace;
  ifg : option (list Z)
}.

Definition set_log (l : list log_entry) (o : ftsreader) : ftsreader :=
  {| log := l; status := status o; verbose := verbose o; path := path o;
     filemode := filemode o; streamdata := streamdata o; folder := folder o;
     filename := filename o; isftsfile := isftsfile o; fs := fs o;
     header := header o; ifgopd := ifgopd o; ifg := ifg o |}.

Definition set_status (b : bool) (o : ftsreader) : ftsreader :=
  {| log := log o; status := b; verbose := verbose o; path := path o;
     filemode := filemode o; streamdata := streamdata o; folder := folder o;
     filename := filename o; isftsfile := isftsfile o; fs := fs o;
     header := header o; ifgopd := ifgopd o; ifg := ifg o |}.

Definition set_folder (d n : string) (o : ftsreader) : ftsreader :=
  {| log := log o; status := status o; verbose := verbose o; path := path o;
     filemode := filemode o; streamdata := streamdata o; folder := Some d;
     filename := Some n; isftsfile := isftsfile o; fs := fs o;
     header := header o; ifgopd := ifgopd o; ifg := ifg o |}.

Definition set_isftsfile (b : bool) (o : ftsreader) : ftsreader :=
  {| log := log o; status := status o; verbose := verbose o; path := path o;
     filemode := filemode o; streamdata := streamdata o; folder := folder o;
     filename := filename o; isftsfile := Some b; fs := fs o;
     header := header o; ifgopd := ifgopd o; ifg := ifg o |}.

Definition set_fs (d : dict BlockDescriptor) (o : ftsreader) : ftsreader :=
  {| log := log o; status := status o; verbose := verbose o; path := path o;
     filemode := filemode o; streamdata := streamdata o; folder := folder o;
     filename := filename o; isftsfile := isftsfile o; fs := Some d;
     header := header o; ifgopd := ifgopd o; ifg := ifg o |}.

Definition set_header (h : dict (dict HeaderValue)) (o : ftsreader)
  : ftsreader :=
  {| log := log o; status := status o; verbose := verbose o; path := path o;
     filemode := filemode o; streamdata := streamdata o; folder := folder o;
     filename := filename o; isftsfile := isftsfile o; fs := fs o;
     header := Some h; ifgopd := ifgopd o; ifg := ifg o |}.

Definition set_ifg (x : linspace) (y : list Z) (o : ftsreader) : ftsreader :=
  {| log := log o; status := status o; verbose := verbose o; path := path o;
     filemode := filemode o; streamdata := streamdata o; folder := folder o;
     filename := filename o; isftsfile := isftsfile o; fs := fs o;
     header := header o; ifgopd := Some x; ifg := Some y |}.

(** *** Methods as state transformers that may raise *)

Definition M (A : Type) : Type := ftsreader -> result A * ftsreader.

Definition ret {A} (a : A) : M A := fun o => (Ok a, o).

Definition raise {A} (e : exn) : M A := fun o => (Raise e, o).

Definition bind {A B} (m : M A) (k : A -> M B) : M B :=
  fun o =>
    match m o with
    | (Ok a, o') => k a o'
    | (Raise e, o') => (Raise e, o')
    end.

(** [try: m  except Exception as e: h e] *)
Definition try_except {A} (m : M A) (h : exn -> M A) : M A :=
  fun o =>
    match m o with
    | (Ok a, o') => (Ok a, o')
    | (Raise e, o') => h e o'
    end.

Definition lift {A} (r : result A) : M A := fun o => (r, o).

Definition get : M ftsreader := fun o => (Ok o, o).

Definition modify (f : ftsreader -> ftsreader) : M unit :=
  fun o => (Ok tt, f o).

Notation "x <- m ;; k" := (bind m (fun x => k))
  (at level 61, m at next level, right associativity).
Notation "' p <- m ;; k" := (bind m (fun x => let p := x in k))
  (at level 61, p pattern, m at next level, right associativity).
Notation "m ;; k" := (bind m (fun _ => k))
  (at level 61, right associativity).

(** [self.log.append(e)] *)
Definition log_append (e : log_entry) : M unit :=
  modify (fun o => set_log (log o ++ [e]) o).

(** Reading an attribute that may not exist yet. *)
Definition attr {A} (field : ftsreader -> option A) : M A :=
  o <- get ;;
  match field o with
  | Some a => ret a
  | None => raise AttributeError
  end.

Section WithDisk.

(** The files on disk: [open(path, 'rb')] fails with [OSError] where
    [disk] has no content. *)
Variable disk : string -> option bytes.

(** [getfileobject]: the bytes the returned file object holds.  In the
    last branch [exit] is called with three arguments, which is a
    [TypeError]. *)
Definition getfileobject : M bytes :=
  o <- get ;;
  if String.eqb (filemode o) "hdd" then
    match disk (path o) with
    | Some content => ret content
    | None => raise OSError
    end
  else if String.eqb (filemode o) "bytesfromfile" then
    match disk (path o) with
    | Some content => ret (read_at content 0 17428)
    | None => raise OSError
    end
  else if String.eqb (filemode o) "mem" then
    ret (match streamdata o with Some d => d | None => [] end)
  else raise TypeError.

(** [f.seek(pos)]: a negative position is refused, by [OSError] on a
    disk file and by [ValueError] on a [BytesIO]. *)
Definition seek (pos : Z) : M unit :=
  o <- get ;;
  if pos <? 0 then
    raise (if String.eqb (filemode o) "hdd" then OSError else ValueError)
  else ret tt.

(** **** [read_structure] *)

Definition blocknames : dict string :=
  [ ("160", "Sample Parameters");
    ("23", "Data Parameters");
    ("96", "Optic Parameters");
    ("64", "FT Parameters");
    ("48", "Acquisition Parameters");
    ("32", "Instrument Parameters");
    ("7", "Data Block");
    ("0", "something") ].

(** The keys of [__blocknames2] are five [str] and two [bytes]. *)
Inductive pykey : Type :=
| KStr (s : string)
| KBytes (b : bytes).

Definition blocknames2 : list (pykey * string) :=
  [ (KStr "132", " ScSm");
    (KStr "4", " SpSm");
    (KStr "8", " IgSm");
    (KStr "20", " TrSm");
    (KStr "12", " PhSm");
    (KBytes [x84], " SpSm/2.Chn.");
    (KBytes [x88], " IgSm/2.Chn.") ].

Definition pykey_eqb (a b : pykey) : bool :=
  match a, b with
  | KStr s, KStr t => String.eqb s t
  | KBytes s, KBytes t =>
      if list_eq_dec Byte.byte_eq_dec s t then true else false
  | _, _ => false
  end.

Fixpoint pyget (k : pykey) (d : list (pykey * string)) : option string :=
  match d with
  | [] => None
  | (k', v) :: r => if pykey_eqb k k' then Some v else pyget k r
  end.

(** The name under which a directory entry is stored. *)
Definition hdrblockname0 (blocktype blocktype2 : string) : string :=
  let name :=
    match dict_get blocktype blocknames with
    | Some n => n
    | None => "[unknown block " +++ blocktype +++ "]"
    end in
  match pyget (KStr blocktype2) blocknames2 with
  | Some suffix => name +++ suffix
  | None => name
  end.

Definition hdrblockname (blocktype blocktype2 : string) (length : Z)
  : string :=
  let name := hdrblockname0 blocktype blocktype2 in
  if String.eqb blocktype "0" || negb (dict_mem blocktype blocknames)
  then name +++ " len " +++ fmt_3i length
  else name.

(** [self.fs[name] = d] *)
Definition fs_setitem (name : string) (d : BlockDescriptor) : M unit :=
  cur <- attr fs ;;
  modify (set_fs (dict_set name d cur)).

(** One turn of the loop over the directory, the file object being at
    [pos]. *)
Definition read_entry (f : bytes) (pos : Z) : M unit :=
  let s := read_at f pos 12 in
  '(bt, bt2, _, length, offset2) <- lift (unpack_2BH2i s) ;;
  let blocktype := str_of_Z bt in
  let blocktype2 := str_of_Z bt2 in
  log_append (Msg ("Found block " +++ blocktype +++ ", " +++ blocktype2
                   +++ " and identified as "
                   +++ hdrblockname0 blocktype blocktype2)) ;;
  fs_setitem (hdrblockname blocktype blocktype2 length)
    {| blocktype := blocktype; blocktype2 := blocktype2;
       length := length; offset := offset2 |}.

Fixpoint read_entries (f : bytes) (n : nat) (pos : Z) : M unit :=
  match n with
  | O => ret tt
  | S k => read_entry f pos ;; read_entries f k (pos + 12)
  end.

Definition read_structure : M unit :=
  modify (set_fs []) ;;
  f <- getfileobject ;;
  seek 0 ;;
  log_append (Msg "Reading structure of file") ;;
  '(_, _, _, offset1, _, numberofblocks) <- lift (unpack_6i (read_at f 0 24)) ;;
  seek offset1 ;;
  read_entries f (Z.to_nat numberofblocks) offset1.

(** **** [getparamsfromblock] *)

(** The value of one record, as the [try] block computes it. *)
Definition decode_value (thistype length : Z) (data : bytes)
  : result HeaderValue :=
  let n := Z.of_nat (List.length data) in
  if thistype =? 0 then
    rbind (unpack_ni (n / 4) data)
      (fun vals =>
         match vals with
         | v :: _ => Ok (VInt v)
         | [] => Raise IndexError
         end)
  else if thistype =? 1 then
    rbind (unpack_nd (n / 8) data)
      (fun vals =>
         match vals with
         | v :: _ => Ok (VFloat v)
         | [] => Raise IndexError
         end)
  else if (2 <=? thistype) && (thistype <=? 4) then
    rbind (unpack_ns (2 * length) data)
      (fun t => Ok (VStr (string_of_list_byte (until_nul t))))
  else Ok (VStr "[read error]").

(** [para], without its last byte when that byte is NUL. *)
Definition trim_para (para : bytes) : bytes :=
  match last para x01 with
  | x00 => removelast para
  | _ => para
  end.

Definition bytes_eqb (a b : bytes) : bool :=
  if list_eq_dec Byte.byte_eq_dec a b then true else false.

(** An entry of [fullblock]. *)
Record full_entry : Type := {
  fe_para : bytes;
  fe_type : Z;
  fe_length : Z;
  fe_offset : Z;
  fe_val : HeaderValue
}.

(** The variables of the [while] loop: [i], [params], [fullblock]. *)
Definition loop_state : Type :=
  (Z * dict HeaderValue * list full_entry)%type.

(** One turn of the [while] loop; the boolean is [test]. *)
Definition getparams_step (f : bytes) (offset : Z) (full : bool)
  (st : loop_state) : M (bool * loop_state) :=
  let '(i, params, fullblock) := st in
  seek (offset + i) ;;
  let s := read_at f (offset + i) 8 in
  '(para0, thistype, length) <- lift (unpack_4s2H s) ;;
  let i8 := i + 8 in
  let para := trim_para para0 in
  if negb (bytes_eqb (firstn 3 para) (list_byte_of_string "END"))
     && (0 <? length)
  then
    seek (offset + i8) ;;
    let data := read_at f (offset + i8) (2 * length) in
    let i' := i8 + 2 * length in
    try_except
      (val <- lift (decode_value thistype length data) ;;
       key <- lift (decode_utf8 para) ;;
       ret (true,
            (i', dict_set key val params,
             if full
             then fullblock ++
                  [{| fe_para := para0; fe_type := thistype;
                      fe_length := length; fe_offset := offset + i;
                      fe_val := val |}]
             else fullblock)))
      (fun e =>
         log_append (Exc e) ;;
         ret (true, (i', params, fullblock)))
  else ret (false, (i8, params, fullblock)).

Fixpoint getparams_loop (fuel : nat) (f : bytes) (offset : Z)
  (full : bool) (st : loop_state) : M loop_state :=
  match fuel with
  | O => raise FuelExhausted
  | S k =>
      r <- getparams_step f offset full st ;;
      if fst r then getparams_loop k f offset full (snd r)
      else ret (snd r)
  end.

(** The body shared by both values of [full].  The argument [length] is
    never read: the loop rebinds the name at its first turn.  Every turn
    that goes on has read at least ten bytes, so the loop has fuel for
    more turns than the file allows. *)
Definition getparams_run (offset length : Z) (full : bool)
  : M loop_state :=
  f <- getfileobject ;;
  getparams_loop (S (List.length f)) f offset full (0, [], []).

(** [getparamsfromblock(offset, length, full=False)] *)
Definition getparamsfromblock (offset length : Z) : M (dict HeaderValue) :=
  st <- getparams_run offset length false ;;
  ret (snd (fst st)).

(** [getparamsfromblock(offset, length, full=True)] *)
Definition getparamsfromblock_full (offset length : Z)
  : M (list full_entry) :=
  st <- getparams_run offset length true ;;
  ret (snd st).

(** **** [read_header] *)

(** [self.header[block] = params] *)
Definition header_setitem (block : string) (params : dict HeaderValue)
  : M unit :=
  cur <- attr header ;;
  modify (set_header (dict_set block params cur)).

(** Is this directory entry read as a header block? *)
Definition is_header_block (block : string) (d : BlockDescriptor) : bool :=
  negb (String.eqb (str_slice block None (Some 10)) "Data Block")
  && (0 <? length d)
  && negb (contains "unknown" block || contains "something" block).

(** The body of the loop over [self.fs.keys()]. *)
Definition read_header_block (block : string) : M unit :=
  cur <- attr fs ;;
  d <- lift (dict_item block cur) ;;
  if negb (String.eqb (str_slice block None (Some 10)) "Data Block")
     && (0 <? length d)
  then
    if contains "unknown" block || contains "something" block
    then ret tt
    else
      try_except
        (log_append (Msg ("Reading Header Block: " +++ block)) ;;
         params <- getparamsfromblock (offset d) (length d) ;;
         header_setitem block params)
        (fun e => log_append (Exc e))
  else ret tt.

Fixpoint for_each {A} (xs : list A) (body : A -> M unit) : M unit :=
  match xs with
  | [] => ret tt
  | x :: r => body x ;; for_each r body
  end.

Definition read_header : M Z :=
  log_append (Msg "Reading Header ...") ;;
  read_structure ;;
  modify (set_header []) ;;
  cur <- attr fs ;;
  for_each (dict_keys cur) read_header_block ;;
  ret 0.

(** **** Data blocks *)

(** [get_block(pointer, length)]: the samples, as 32-bit patterns. *)
Definition get_block (pointer length : Z) : M (list Z) :=
  log_append (Msg ("Getting data block at " +++ str_of_Z pointer
                   +++ " with length " +++ str_of_Z length)) ;;
  f <- getfileobject ;;
  seek pointer ;;
  lift (unpack_nf length (read_at f pointer (length * 4))).

(** [search_block]: [None] is the value the method returns by falling
    off its end. *)
Definition search_block (blockname : string)
  : M (option BlockDescriptor) :=
  cur <- attr fs ;;
  match dict_get blockname cur with
  | Some d => ret (Some d)
  | None =>
      log_append (Msg ("Could not find " +++ blockname
                       +++ " in self.fs.keys()")) ;;
      ret None
  end.

Definition has_block (blockname : string) : M bool :=
  cur <- attr fs ;;
  ret (dict_mem blockname cur).

(** [x[key]] where [x] is what [search_block] returned: subscripting
    [None] is a [TypeError]. *)
Definition subscript {A} (x : option BlockDescriptor)
  (field : BlockDescriptor -> A) : M A :=
  match x with
  | Some d => ret (field d)
  | None => raise TypeError
  end.

(** [self.header[block][par]] *)
Definition header_item (block par : string) : M HeaderValue :=
  h <- attr header ;;
  params <- lift (dict_item block h) ;;
  lift (dict_item par params).

(** One of the [if] statements that may bind [xax]. *)
Definition xax_case (cond : bool) (msg : string) (mk : M linspace)
  (xax : option linspace) : M (option linspace) :=
  if cond then
    log_append (Msg msg) ;;
    x <- mk ;;
    ret (Some x)
  else ret xax.

(** [float(v)] for a header value, as far as a division sees it; an
    [int] and a [float] convert, a [str] may not. *)
Definition float_class_of (v : HeaderValue) : result float_class :=
  match v with
  | VInt i => Ok (if i =? 0 then FZero else FNonzero)
  | VFloat bits => Ok (if bits mod 2 ^ 63 =? 0 then FZero else FNonzero)
  | VStr s => float_of_str s
  end.

(** [2*0.9/float(res)] *)
Definition opd_stop (res : HeaderValue) : result axis_end :=
  rbind (float_class_of res)
    (fun c =>
       match c with
       | FZero => Raise ZeroDivisionError
       | FNonzero => Ok (AOpd res)
       end).

(** The end points of [np.linspace(fxv, lxv, n)]: numpy has no
    arithmetic for a [str]. *)
Definition linspace_ends (fxv lxv : HeaderValue)
  : result (axis_end * axis_end) :=
  match fxv, lxv with
  | VStr _, _ => Raise TypeError
  | _, VStr _ => Raise TypeError
  | _, _ => Ok (APar fxv, APar lxv)
  end.

Definition spectral_axis (pars : string) (n : nat) : M linspace :=
  fxv <- header_item pars "FXV" ;;
  lxv <- header_item pars "LXV" ;;
  ends <- lift (linspace_ends fxv lxv) ;;
  ret {| ax_start := fst ends; ax_stop := snd ends; ax_num := n |}.

Definition get_datablocks (block : string) : M (linspace * list Z) :=
  log_append (Msg "Getting data blocks") ;;
  b1 <- search_block block ;;
  off <- subscript b1 offset ;;
  b2 <- search_block block ;;
  len <- subscript b2 length ;;
  yax <- get_block off len ;;
  let n := List.length yax in
  xax <- xax_case
           (String.eqb block "Data Block IgSm"
            || String.eqb block "Data Block")
           "Getting ifg data block"
           (res <- header_item "Acquisition Parameters" "RES" ;;
            stop <- lift (opd_stop res) ;;
            ret {| ax_start := AZero; ax_stop := stop; ax_num := n |})
           None ;;
  xax <- xax_case (String.eqb block "Data Block SpSm")
           "Getting spc data block"
           (spectral_axis "Data Parameters SpSm" n) xax ;;
  xax <- xax_case (String.eqb block "Data Block ScSm")
           "Getting spc data block"
           (spectral_axis "Data Parameters ScSm" n) xax ;;
  xax <- xax_case (String.eqb block "Data Block TrSm")
           "Getting trm data block"
           (spectral_axis "Data Parameters TrSm" n) xax ;;
  xax <- xax_case (String.eqb block "Data Block PhSm")
           "Getting pha data block"
           (spectral_axis "Data Parameters PhSm" n) xax ;;
  match xax with
  | Some x => ret (x, yax)
  | None => raise UnboundLocalError
  end.

(** **** [test_if_ftsfile] *)

Definition ftsmagicval : bytes := [x0a; x0a; xfe; xfe].

Definition test_if_ftsfile : M unit :=
  log_append (Msg "testing if FTS file") ;;
  try_except
    (f <- getfileobject ;;
     seek 0 ;;
     let magic := read_at f 0 4 in
     o <- get ;;
     if bytes_eqb magic ftsmagicval then
       (if verbose o
        then log_append (Msg ("Identified " +++ path o
                              +++ " as FTS file ..."))
        else ret tt) ;;
       modify (set_status true) ;;
       modify (set_isftsfile true)
     else
       log_append (Msg ("Bad Magic found in " +++ path o)) ;;
       modify (set_status false) ;;
       modify (set_isftsfile false))
    (fun e =>
       log_append (Exc e) ;;
       modify (set_status false) ;;
       modify (set_isftsfile false)).

(** **** [__init__] *)

Definition new (path : string) (verbose : bool) (filemode : string)
  (streamdata : option bytes) : ftsreader :=
  {| log := []; status := true; verbose := verbose; path := path;
     filemode := filemode; streamdata := streamdata; folder := None;
     filename := None; isftsfile := None; fs := None; header := None;
     ifgopd := None; ifg := None |}.

(** The [try] block of the constructor. *)
Definition init_body (getifg getslices : bool) : M unit :=
  o <- get ;;
  let k := rfind "/" (path o) in
  (if 0 <? k
   then modify (set_folder (str_slice (path o) None (Some k))
                           (str_slice (path o) (Some (k + 1)) None))
   else modify (set_folder "./" (path o))) ;;
  (if negb getslices then test_if_ftsfile else ret tt) ;;
  o <- get ;;
  (if status o then
     (if negb getslices then (read_header ;; ret tt) else ret tt) ;;
     present <- (if getifg then has_block "Data Block IgSm"
                 else ret false) ;;
     if getifg && present then
       '(x, y) <- get_datablocks "Data Block IgSm" ;;
       modify (set_ifg x y)
     else
       log_append
         (Msg "No Interferogram requested or not found ... skipping.")
   else raise ValueError) ;;
  o <- get ;;
  if verbose o && negb (status o)
  then log_append (Msg "An error occured.")
  else ret tt.

(** [ftsreader(path, verbose, getifg=..., getslices=..., filemode=...,
    streamdata=...)]: the object the constructor leaves behind.  The
    arguments [getspc], [gettrm] and [getpha] are never read. *)
Definition init (path : string) (verbose getifg getslices : bool)
  (filemode : string) (streamdata : option bytes) : ftsreader :=
  snd ((log_append (Msg "Initializing") ;;
        try_except (init_body getifg getslices)
          (fun e => log_append (Problem e)))
         (new path verbose filemode streamdata)).

(** **** Header queries *)

(** What [search_header_par] returns: a [str], a [list] or [None]. *)
Inductive search_result : Type :=
| RName (block : string)
| RList (blocks : list string)
| RNone.

(** The list [pars] built by the two nested loops. *)
Definition header_pars (par : string) (h : dict (dict HeaderValue))
  : list string :=
  flat_map
    (fun entry : string * dict HeaderValue =>
       flat_map
         (fun j => if String.eqb par j then [fst entry] else [])
         (dict_keys (snd entry)))
    h.

Definition search_header_par (par : string) : M search_result :=
  h <- attr header ;;
  let pars := header_pars par h in
  match pars with
  | [] => ret RNone
  | [p] => ret (RName p)
  | _ => ret (RList pars)
  end.

(** [self.header[key]] where [key] is what [search_header_par]
    returned: [None] is no key of the header and a [list] is not
    hashable. *)
Definition header_lookup (key : search_result)
  : M (dict HeaderValue) :=
  h <- attr header ;;
  match key with
  | RName block => lift (dict_item block h)
  | RList _ => raise TypeError
  | RNone => raise KeyError
  end.

(** [get_header_par]: [None] is the value returned by the bare
    [except]. *)
Definition get_header_par (par : string) : M (option HeaderValue) :=
  try_except
    (key <- search_header_par par ;;
     params <- header_lookup key ;;
     v <- lift (dict_item par params) ;;
     ret (Some v))
    (fun _ => ret None).

End WithDisk.

End Fts.

(** ** The smoother: [smooth_ifg] *)

Module Np.

Local Open Scope R_scope.

(** Complex numbers, as pairs. *)
Definition C : Type := (R * R)%type.

Definition C0 : C := (0, 0).
Definition C1 : C := (1, 0).
Definition of_real (x : R) : C := (x, 0).
Definition Cadd (a b : C) : C := (fst a + fst b, snd a + snd b).
Definition Cmul (a b : C) : C :=
  (fst a * fst b - snd a * snd b, fst a * snd b + snd a * fst b).
Definition Cscale (c : R) (a : C) : C := (c * fst a, c * snd a).
Definition Csum (l : list C) : C := fold_right Cadd C0 l.

Definition Rltb (x y : R) : bool := if Rlt_dec x y then true else false.
Definition Rleb (x y : R) : bool := if Rle_dec x y then true else false.

(** [np.ones(n)]: a negative length is refused. *)
Definition ones (n : Z) : result (list R) :=
  if (n <? 0)%Z then Raise ValueError else Ok (repeat 1 (Z.to_nat n)).

(** [np.arange(n)] *)
Definition arange (n : Z) : list R := map INR (seq 0 (Z.to_nat n)).

(** [a[start:stop] = v] for one-dimensional arrays: [v] must have the
    length of the slice, or length 1 (it is then repeated); any other
    shape cannot be broadcast. *)
Definition setslice {A} (a : list A) (start stop : option Z) (v : list A)
  : result (list A) :=
  let '(lo, hi) := slice_bounds (List.length a) start stop in
  let k := (hi - lo)%nat in
  if Nat.eqb (List.length v) k then
    Ok (firstn lo a ++ v ++ skipn (lo + k) a)
  else
    match v with
    | [x] => Ok (firstn lo a ++ repeat x k ++ skipn (lo + k) a)
    | _ => Raise ValueError
    end.

Fixpoint zip_with {A B D} (f : A -> B -> D) (a : list A) (b : list B)
  : list D :=
  match a, b with
  | x :: a', y :: b' => f x y :: zip_with f a' b'
  | _, _ => []
  end.

(** [a * b] for one-dimensional arrays, with broadcasting of a
    one-element operand. *)
Definition mul {A} (f : A -> A -> A) (a b : list A) : result (list A) :=
  if Nat.eqb (List.length a) (List.length b) then Ok (zip_with f a b)
  else
    match a, b with
    | [x], _ => Ok (map (f x) b)
    | _, [y] => Ok (map (fun x => f x y) a)
    | _, _ => Raise ValueError
    end.

(** [np.median(a)]; the value for an empty array (NaN) is never used. *)
Fixpoint insert (x : R) (l : list R) : list R :=
  match l with
  | [] => [x]
  | y :: r => if Rleb x y then x :: l else y :: insert x r
  end.

Definition sort (l : list R) : list R := fold_right insert [] l.

Definition median (a : list R) : R :=
  let s := sort a in
  let n := List.length a in
  if Nat.even n
  then (nth (n / 2 - 1) s 0 + nth (n / 2) s 0) / 2
  else nth (n / 2) s 0.

(** The discrete Fourier transform that [np.fft.fft] ([sign = -1]) and
    [np.fft.ifft] ([sign = 1], scaled by [1/n]) compute; both refuse an
    empty array. *)
Definition twiddle (sign : R) (n j k : nat) : C :=
  let th := sign * 2 * PI * INR j * INR k / INR n in
  (cos th, sin th).

Definition dft (sign : R) (x : list C) : list C :=
  let n := List.length x in
  map (fun k =>
         Csum (zip_with (fun j xj => Cmul xj (twiddle sign n j k))
                        (seq 0 n) x))
      (seq 0 n).

Definition fft (x : list C) : result (list C) :=
  match x with
  | [] => Raise ValueError
  | _ => Ok (dft (-1) x)
  end.

Definition ifft (y : list C) : result (list C) :=
  match y with
  | [] => Raise ValueError
  | _ => Ok (map (Cscale (/ INR (List.length y))) (dft 1 y))
  end.

(** [np.fft.fftfreq(n, d)]: the bins [0 .. (n-1)//2] then
    [-(n//2) .. -1], times [1.0/(n*d)]. *)
Definition fftfreq (n : nat) (d : R) : result (list R) :=
  if Req_dec_T (INR n * d) 0 then Raise ZeroDivisionError
  else
    let val := 1 / (INR n * d) in
    Ok (map (fun k => IZR k * val)
            (map Z.of_nat (seq 0 ((n - 1) / 2 + 1))
             ++ map (fun i => (Z.of_nat i - Z.of_nat (n / 2))%Z)
                    (seq 0 (n / 2)))).

End Np.

Module Smoother.

Import Np.
Local Open Scope R_scope.

(** [int(l0*p/100.0)] with [p = 5]: truncation of an exact quotient. *)
Definition ramp_length (l0 : Z) : Z := Z.quot (l0 * 5) 100.

(** [(np.cos(np.pi*np.arange(l)/l)+1)**2/4] *)
Definition ramp (l : Z) : list R :=
  map (fun k => (cos (PI * k / IZR l) + 1) ^ 2 / 4) (arange l).

(** The apodization function [a1]. *)
Definition apodization (l0 : Z) : result (list R) :=
  let l := ramp_length l0 in
  rbind (ones l0) (fun a1 =>
  rbind (setslice a1 None (Some l) (rev (ramp l))) (fun a1 =>
  setslice a1 (Some (- l)%Z) None (ramp l))).

(** [o.ifg[int(pkl-l0/2):int(pkl+l0/2)]]; [int] truncates towards zero. *)
Definition crop (ifg : list R) (pkl l0 : Z) : list R :=
  slice ifg (Some (Z.quot (2 * pkl - l0) 2)) (Some (Z.quot (2 * pkl + l0) 2)).

(** [np.fft.fftfreq(n, 0.5/lwn)[:int(n/2)]] *)
Definition wavenumbers (n : nat) (lwn : R) : result (list R) :=
  if Req_dec_T lwn 0 then Raise ZeroDivisionError
  else
    rbind (fftfreq n (0.5 / lwn)) (fun freqs =>
    Ok (slice freqs None (Some (Z.of_nat n / 2)%Z))).

(** [len(wvn[wvn<cutoff])] *)
Definition cutoff_index (wvn : list R) (cutoff : R) : nat :=
  List.length (filter (fun nu => Rltb nu cutoff) wvn).

Definition sfunc (cutoff : R) (nu : R) : R :=
  cos (PI * nu / (2 * cutoff)) ^ 2.

(** The window [a2] applied to the spectrum. *)
Definition filter_window (n : nat) (wvn : list R) (cutoff : R)
  : result (list C) :=
  let l := Z.of_nat (cutoff_index wvn cutoff) in
  let a2 := map (fun one => Cmul (of_real one) C0) (repeat 1 n) in
  let head := slice wvn None (Some l) in
  rbind (setslice a2 None (Some l)
           (map of_real (map (sfunc cutoff) head))) (fun a2 =>
  setslice a2 (Some (- l)%Z) None
    (map of_real (map (sfunc cutoff) (rev head)))).

(** What [smooth_ifg] returns: the smoothed interferogram, the filtered
    spectrum, the apodization function and the wavenumber axis. *)
Record smoothed : Type := {
  ifg_s : list R;
  ys : list C;
  a1 : list R;
  wvn : list R
}.

(** [smooth_ifg(o, lwn, cutoff, l0)], where [o] is read for
    [o.header['Instrument Parameters']['PKL']] and [o.ifg] only. *)
Definition smooth_ifg (ifg : list R) (pkl : Z) (lwn cutoff : R) (l0 : Z)
  : result smoothed :=
  let ifg0 := crop ifg pkl l0 in
  let ifgz := map (fun x => x - median ifg0) ifg0 in
  rbind (apodization l0) (fun a1 =>
  rbind (mul Rmult ifgz a1) (fun ifga =>
  rbind (fft (map of_real ifga)) (fun spc =>
  rbind (wavenumbers (List.length spc) lwn) (fun wvn =>
  rbind (filter_window (List.length spc) wvn cutoff) (fun a2 =>
  rbind (mul Cmul a2 spc) (fun ys =>
  rbind (ifft ys) (fun back =>
  Ok {| ifg_s := map fst back; ys := ys; a1 := a1; wvn := wvn |}))))))).

End Smoother.

(** ** Vocabulary of the statements *)

(** The invariant of a Python [dict]: no key twice. *)
Definition dict_wf {V : Type} (d : dict V) : Prop := NoDup (dict_keys d).

Import Fts.

(** The header blocks, in header order, whose parameters include [par]. *)
Definition blocks_with (par : string) (h : dict (dict HeaderValue))
  : list string :=
  map fst (filter (fun entry => dict_mem par (snd entry)) h).

(** Every block of the header is a well-formed dictionary. *)
Definition header_wf (h : dict (dict HeaderValue)) : Prop :=
  Forall (fun entry => dict_wf (snd entry)) h.

(** A header with a parameter in one block, one in two blocks, and a reader
    that holds it. *)
Definition header2 : dict (dict HeaderValue) :=
  [ ("Instrument Parameters", [("PKL", VInt 1234); ("LWN", VFloat 0)]);
    ("Data Parameters SpSm", [("FXV", VFloat 0); ("LXV", VFloat 1)]);
    ("Data Parameters TrSm", [("FXV", VFloat 0); ("LXV", VFloat 1)]) ].

Definition reader2 : ftsreader :=
  set_header header2 (new "" false "mem" None).

(** The bytes behind the file object that [getfileobject] returns for a
    reader with these attributes. *)
Definition source (disk : string -> option bytes) (path filemode : string)
  (streamdata : option bytes) : result bytes :=
  fst (getfileobject disk (new path false filemode streamdata)).

(** The attributes that decide the source. *)
Definition same_source (o1 o2 : ftsreader) : Prop :=
  path o1 = path o2 /\ filemode o1 = filemode o2
  /\ streamdata o1 = streamdata o2.

(** The exceptions by which Python reports a failed lookup, the subclasses
    of [LookupError]. *)
Definition lookup_error (e : exn) : bool :=
  match e with
  | KeyError | IndexError => true
  | _ => false
  end.

Definition reports_not_found {A} (r : result A) : Prop :=
  exists e, r = Raise e /\ lookup_error e = true.

(** A machine without files, for readers fed from memory. *)
Definition nodisk : string -> option bytes := fun _ => None.

(** The [w] bytes of [z], least significant first. *)
Definition le (w : nat) (z : Z) : bytes :=
  map (fun i =>
         match Byte.of_N (Z.to_N ((z / 2 ^ (8 * Z.of_nat i)) mod 256)) with
         | Some b => b
         | None => x00
         end)
      (seq 0 w).

(** A well-formed file whose directory has no entry, and its reader. *)
Definition empty_directory_file : bytes :=
  ftsmagicval ++ le 4 0 ++ le 4 0 ++ le 4 24 ++ le 4 0 ++ le 4 0.

Definition empty_directory_reader : ftsreader :=
  init nodisk "" false false false "mem" (Some empty_directory_file).

(** A source that ends before a four-byte read does. *)
Definition three_bytes : bytes := [x0a; x0a; xfe].

(** A parameter block with one record of type code 5, then [END]. *)
Definition unknown_type_block : bytes :=
  list_byte_of_string "ABC" ++ [x00] ++ le 2 5 ++ le 2 1 ++ [x41; x42]
  ++ list_byte_of_string "END" ++ [x00] ++ le 2 0 ++ le 2 0.

Definition unknown_type_reader : ftsreader :=
  new "" false "mem" (Some unknown_type_block).

(** The reader [o] after [l] was appended to its log. *)
Definition ext (o : ftsreader) (l : list log_entry) : ftsreader :=
  set_log (log o ++ l) o.

(** The header entry that [read_header] makes of a directory entry: none
    unless the entry is read as a header block and its decoding, from the
    source of [o], raises nothing. *)
Definition header_entry (disk : string -> option bytes) (o : ftsreader)
  (entry : string * BlockDescriptor) : dict (dict HeaderValue) :=
  if is_header_block (fst entry) (snd entry) then
    match fst (getparamsfromblock disk (offset (snd entry))
                 (length (snd entry)) o) with
    | Ok params => [(fst entry, params)]
    | Raise _ => []
    end
  else [].

Definition header_of (disk : string -> option bytes) (o : ftsreader)
  (d : dict BlockDescriptor) : dict (dict HeaderValue) :=
  flat_map (header_entry disk o) d.

Definition header_bearing (disk : string -> option bytes) (o : ftsreader)
  (entry : string * BlockDescriptor) : bool :=
  is_header_block (fst entry) (snd entry)
  && is_ok (fst (getparamsfromblock disk (offset (snd entry))
                   (length (snd entry)) o)).

(** What [read_structure] maintains, [o0] being the reader it started
    from. *)
Definition dir_inv (o0 o : ftsreader) : Prop :=
  same_source o0 o /\ header o = header o0
  /\ exists d, fs o = Some d /\ dict_wf d.

(** A file with two directory entries at the same parameter block, one
    of type 32 and one of the unidentified type 0. *)
Definition unidentified_block_file : bytes :=
  ftsmagicval ++ le 4 0 ++ le 4 0 ++ le 4 24 ++ le 4 0 ++ le 4 2
  ++ le 1 32 ++ le 1 0 ++ le 2 0 ++ le 4 10 ++ le 4 48
  ++ le 1 0 ++ le 1 0 ++ le 2 0 ++ le 4 10 ++ le 4 48
  ++ list_byte_of_string "PKL" ++ [x00] ++ le 2 0 ++ le 2 2 ++ le 4 1234
  ++ list_byte_of_string "END" ++ [x00] ++ le 2 0 ++ le 2 0.

Definition unidentified_block_reader : ftsreader :=
  init nodisk "" false false false "mem" (Some unidentified_block_file).

Import Np Smoother.

(** The [k]-th value of a ramp of [l] samples. *)
Definition ramp_value (l k : nat) : R :=
  ((cos (PI * INR k / INR l) + 1) ^ 2 / 4)%R.

(** The [k]-th wavenumber of a window of [n] samples. *)
Definition wvn_value (n : nat) (lwn : R) (k : nat) : R :=
  (INR k * (1 / (INR n * (0.5 / lwn))))%R.

(** The axis [wvn] when it is built. *)
Definition wavenumber_axis (n : nat) (lwn : R) : list R :=
  map (wvn_value n lwn) (seq 0 (n / 2)).

(** The apodized crop [ifga] and its spectrum [spc]. *)
Definition apodized (ifg : list R) (pkl l0 : Z) (a1 : list R) : list R :=
  let ifg0 := crop ifg pkl l0 in
  zip_with Rmult (map (fun x => (x - median ifg0)%R) ifg0) a1.

Definition spectrum (ifga : list R) : list C := dft (-1) (map of_real ifga).

(** A unit pulse at the first of 20 samples. *)
Definition delta20 : list R := 1%R :: repeat 0%R 19.

Definition Rsum (l : list R) : R := fold_right Rplus 0%R l.

(** ** Further vocabulary *)

(** The primary type codes of the six parameter blocks. *)
Definition parameter_type (bt : Z) : bool :=
  existsb (Z.eqb bt) [160; 23; 96; 64; 48; 32].

(** The byte values, and what has to be checked of a pair of type codes
    for the name of its directory entry: a name that gets its length
    appended holds ['unknown'] or ['something']; any other name is read as
    a header block exactly when the code is that of a parameter block. *)
Definition byte_values : list Z := map Z.of_nat (seq 0 256).

Definition name_check (bt bt2 : Z) : bool :=
  let b := str_of_Z bt in
  let n0 := hdrblockname0 b (str_of_Z bt2) in
  let skipped := contains "unknown" n0 || contains "something" n0 in
  if String.eqb b "0" || negb (dict_mem b blocknames)
  then skipped && negb (parameter_type bt)
  else Bool.eqb
         (negb (String.eqb (str_slice n0 None (Some 10)) "Data Block")
          && negb skipped)
         (parameter_type bt).

(** A data block of two samples. *)
Definition two_samples : bytes := le 4 1 ++ le 4 (-2 + 2 ^ 32).

(** The names of the data blocks for which [get_datablocks] has an axis. *)
Definition axis_blocks : list string :=
  [ "Data Block IgSm"; "Data Block"; "Data Block SpSm"; "Data Block ScSm";
    "Data Block TrSm"; "Data Block PhSm" ].

(** A file with an acquisition-parameter block that holds [RES] and an
    interferogram of two samples; its reader once the header is read. *)
Definition ifg_file : bytes :=
  ftsmagicval ++ le 4 0 ++ le 4 0 ++ le 4 24 ++ le 4 0 ++ le 4 2
  ++ le 1 48 ++ le 1 0 ++ le 2 0 ++ le 4 6 ++ le 4 48
  ++ le 1 7 ++ le 1 8 ++ le 2 0 ++ le 4 2 ++ le 4 72
  ++ list_byte_of_string "RES" ++ [x00] ++ le 2 1 ++ le 2 4 ++ le 8 4591870180066957722
  ++ list_byte_of_string "END" ++ [x00] ++ le 2 0 ++ le 2 0
  ++ two_samples.

Definition ifg_reader : ftsreader :=
  snd (read_header nodisk (new "" false "mem" (Some ifg_file))).


(** What neither the directory nor the header nor the log is: the
    attributes that [read_header] and its callees leave alone. *)
Definition flags (o : ftsreader)
  : bool * option bool * option linspace * option (list Z) * bool
    * string * string * option bytes * option string * option string :=
  (status o, isftsfile o, ifgopd o, ifg o, verbose o,
   path o, filemode o, streamdata o, folder o, filename o).

Definition keeps {A} (m : M A) : Prop :=
  forall o, flags (snd (m o)) = flags o.

(** A method that changes the log at most, and only by appending to it. *)
Definition only_logs {A} (m : M A) : Prop :=
  forall o, exists l, snd (m o) = ext o l.

(** The two attributes that the constructor computes from the path. *)
Definition names (o : ftsreader) : option string * option string :=
  (folder o, filename o).

Definition keeps_names {A} (m : M A) : Prop :=
  forall o, names (snd (m o)) = names o.

(** A parameter record as it lies in a block: the four bytes of the tag,
    the type code, and the payload, whose length in 16-bit words is
    written before it. *)
Record param_record : Type := {
  r_para : bytes;
  r_type : Z;
  r_payload : bytes
}.

Definition r_words (r : param_record) : Z :=
  Z.of_nat (List.length (r_payload r)) / 2.

Definition encode_record (r : param_record) : bytes :=
  r_para r ++ le 2 (r_type r) ++ le 2 (r_words r) ++ r_payload r.

Definition end_record : bytes :=
  list_byte_of_string "END" ++ [x00] ++ le 2 0 ++ le 2 0.

(** A record that the loop takes for one: a tag of four bytes other than
    [END], a type code and a word count that fit sixteen bits, and a
    payload of that many words, at least one. *)
Definition well_framed (r : param_record) : Prop :=
  List.length (r_para r) = 4%nat
  /\ firstn 3 (trim_para (r_para r)) <> list_byte_of_string "END"
  /\ 0 <= r_type r < 65536
  /\ 0 < r_words r < 65536
  /\ Z.of_nat (List.length (r_payload r)) = 2 * r_words r.

(** What the [try] block makes of a record: the entry is set when both
    the value and the tag can be decoded, and nothing is stored
    otherwise. *)
Definition store (params : dict HeaderValue) (r : param_record)
  : dict HeaderValue :=
  match decode_value (r_type r) (r_words r) (r_payload r),
        decode_utf8 (trim_para (r_para r)) with
  | Ok val, Ok key => dict_set key val params
  | _, _ => params
  end.

(** The [RES] record of [ifg_file]. *)
Definition res_record : param_record :=
  {| r_para := list_byte_of_string "RES" ++ [x00];
     r_type := 1;
     r_payload := le 8 4591870180066957722 |}.

(** The log entry that comes before each call of [getparamsfromblock] in
    [read_header], read back: the name in ['Reading Header Block: <name>']. *)
Fixpoint strip_prefix (p s : string) : option string :=
  match p with
  | EmptyString => Some s
  | String a p' =>
      match s with
      | EmptyString => None
      | String b s' => if Ascii.eqb a b then strip_prefix p' s' else None
      end
  end.

Definition decode_call (e : log_entry) : option string :=
  match e with
  | Msg s => strip_prefix "Reading Header Block: " s
  | _ => None
  end.

Definition decode_calls (l : list log_entry) : list string :=
  flat_map (fun e => match decode_call e with
                     | Some block => [block]
                     | None => []
                     end) l.

(** A method that appends [l] to the log, the calls logged in [l] being
    those of [blocks]. *)
Definition calls {A} (m : M A) (blocks : list string) : Prop :=
  forall o, exists l,
    log (snd (m o)) = log o ++ l /\ decode_calls l = blocks.
(** * Properties *)

(** ** Dictionaries *)

Section DictFacts.

Context {V : Type}.

Lemma dict_get_None_notin (k : string) (d : dict V) :
  dict_get k d = None <-> ~ In k (dict_keys d).
Proof.
  induction d as [|[k' v] r IH]; simpl.
  - tauto.
  - destruct (String.eqb_spec k k') as [->|Hne].
    + split; [discriminate | intros H; exfalso; apply H; now left].
    + rewrite IH. split.
      * intros H [E|I]; [congruence | contradiction].
      * intros H I. apply H. now right.
Qed.

Lemma dict_mem_In (k : string) (d : dict V) :
  dict_mem k d = true <-> In k (dict_keys d).
Proof.
  unfold dict_mem. destruct (dict_get k d) eqn:E.
  - split; [intros _ | reflexivity].
    destruct (in_dec string_dec k (dict_keys d)) as [I|N]; [assumption|].
    apply dict_get_None_notin in N. congruence.
  - apply dict_get_None_notin in E. split; [discriminate | contradiction].
Qed.

Lemma dict_set_fresh (k : string) (v : V) (d : dict V) :
  ~ In k (dict_keys d) -> dict_set k v d = d ++ [(k, v)].
Proof.
  induction d as [|[k' v'] r IH]; simpl; intros H.
  - reflexivity.
  - destruct (String.eqb_spec k k') as [->|Hne].
    + exfalso. apply H. now left.
    + rewrite IH; [reflexivity | intros I; apply H; now right].
Qed.

Lemma dict_keys_set (k : string) (v : V) (d : dict V) :
  dict_keys (dict_set k v d)
  = if dict_mem k d then dict_keys d else dict_keys d ++ [k].
Proof.
  unfold dict_mem.
  induction d as [|[k' v'] r IH]; simpl.
  - reflexivity.
  - destruct (String.eqb_spec k k') as [->|Hne]; simpl.
    + reflexivity.
    + rewrite IH. now destruct (dict_get k r).
Qed.

Lemma dict_set_wf (k : string) (v : V) (d : dict V) :
  dict_wf d -> dict_wf (dict_set k v d).
Proof.
  unfold dict_wf. intros H. rewrite dict_keys_set.
  destruct (dict_mem k d) eqn:E; [assumption|].
  assert (N : ~ In k (dict_keys d)).
  { intros I. apply dict_mem_In in I. congruence. }
  clear E. induction (dict_keys d) as [|x xs IH]; simpl.
  - constructor; [intros [] | constructor].
  - inversion H; subst. constructor.
    + rewrite in_app_iff. intros [I|[E|[]]]; [contradiction|].
      apply N. now left.
    + apply IH; [assumption | intros I; apply N; now right].
Qed.

Lemma dict_get_set_same (k : string) (v : V) (d : dict V) :
  dict_get k (dict_set k v d) = Some v.
Proof.
  induction d as [|[k' v'] r IH]; simpl.
  - now rewrite String.eqb_refl.
  - destruct (String.eqb_spec k k') as [->|Hne]; simpl.
    + now rewrite String.eqb_refl.
    + destruct (String.eqb_spec k k'); [congruence | exact IH].
Qed.

End DictFacts.

(** ** Header queries *)

Lemma inner_pars_absent (par b : string) (ks : list string) :
  ~ In par ks ->
  flat_map (fun j => if String.eqb par j then [b] else []) ks = [].
Proof.
  induction ks as [|k ks IH]; simpl; intros H; [reflexivity|].
  destruct (String.eqb_spec par k) as [->|Hne].
  - exfalso. apply H. now left.
  - apply IH. intros I. apply H. now right.
Qed.

Lemma inner_pars (par b : string) (d : dict HeaderValue) :
  dict_wf d ->
  flat_map (fun j => if String.eqb par j then [b] else []) (dict_keys d)
  = if dict_mem par d then [b] else [].
Proof.
  unfold dict_wf, dict_mem.
  induction d as [|[k v] r IH]; simpl; intros H; [reflexivity|].
  inversion H as [|? ? Hk Hr]; subst.
  destruct (String.eqb_spec par k) as [->|Hne]; simpl.
  - now rewrite inner_pars_absent.
  - now apply IH.
Qed.

Lemma header_pars_blocks_with (par : string) (h : dict (dict HeaderValue)) :
  header_wf h -> header_pars par h = blocks_with par h.
Proof.
  unfold header_pars, blocks_with, header_wf.
  induction h as [|[b d] r IH]; simpl; intros H; [reflexivity|].
  inversion H as [|? ? Hd Hr]; subst. simpl in Hd.
  rewrite inner_pars by assumption. rewrite IH by assumption.
  now destruct (dict_mem par d).
Qed.

(** C9. [search_header_par] has three shapes of result, by the number of
    header blocks that hold the parameter: the name of the block when there
    is exactly one, the list of all of them when there are several, [None]
    when there is none; in that last case [get_header_par] returns [None]
    and raises nothing.  The reader itself is left as it was. *)
Theorem search_header_par_shapes (o : ftsreader) (h : dict (dict HeaderValue))
  (par : string) :
  header o = Some h ->
  header_wf h ->
  (forall b, blocks_with par h = [b] ->
             search_header_par par o = (Ok (RName b), o))
  /\ ((1 < List.length (blocks_with par h))%nat ->
      search_header_par par o = (Ok (RList (blocks_with par h)), o))
  /\ (blocks_with par h = [] ->
      search_header_par par o = (Ok RNone, o)
      /\ get_header_par par o = (Ok None, o)).
Proof.
  intros Hh Hwf.
  assert (E : search_header_par par o
              = (Ok match blocks_with par h with
                    | [] => RNone
                    | [p] => RName p
                    | _ => RList (blocks_with par h)
                    end, o)).
  { unfold search_header_par, attr, bind, get. rewrite Hh. simpl.
    rewrite header_pars_blocks_with by assumption.
    now destruct (blocks_with par h) as [|p [|q r]]. }
  repeat split.
  - intros b Hb. now rewrite E, Hb.
  - intros Hlen. rewrite E.
    destruct (blocks_with par h) as [|p [|q r]]; simpl in Hlen;
      [lia | lia | reflexivity].
  - now rewrite E, H.
  - unfold get_header_par, try_except, bind. rewrite E, H.
    unfold header_lookup, attr, bind, get. now rewrite Hh.
Qed.

Lemma search_header_par_shapes_witness :
  search_header_par "PKL" reader2 = (Ok (RName "Instrument Parameters"), reader2)
  /\ search_header_par "FXV" reader2
     = (Ok (RList ["Data Parameters SpSm"; "Data Parameters TrSm"]), reader2)
  /\ get_header_par "RES" reader2 = (Ok None, reader2).
Proof.
  assert (Hwf : header_wf header2).
  { unfold header_wf, header2, dict_wf.
    repeat constructor; simpl; intuition discriminate. }
  split; [|split].
  - apply (proj1 (search_header_par_shapes reader2 header2 "PKL"
                    eq_refl Hwf)).
    reflexivity.
  - apply (proj1 (proj2 (search_header_par_shapes reader2 header2 "FXV"
                           eq_refl Hwf))).
    simpl. lia.
  - apply (proj2 (proj2 (search_header_par_shapes reader2 header2 "RES"
                           eq_refl Hwf))).
    reflexivity.
Defined.

(** ** The file object *)

Ltac munfold :=
  repeat (progress unfold bind, ret, raise, lift, get, modify, try_except,
            attr, log_append, seek in *).

Ltac mred := munfold; simpl in *.

Lemma getfileobject_eq (disk : string -> option bytes) (o : ftsreader) :
  getfileobject disk o
  = (source disk (path o) (filemode o) (streamdata o), o).
Proof.
  unfold source, getfileobject. mred.
  destruct (String.eqb (filemode o) "hdd").
  - now destruct (disk (path o)).
  - destruct (String.eqb (filemode o) "bytesfromfile").
    + now destruct (disk (path o)).
    + now destruct (String.eqb (filemode o) "mem").
Qed.

Lemma read_at_0 (f : bytes) (n : nat) :
  read_at f 0 (Z.of_nat n) = firstn n f.
Proof.
  unfold read_at. simpl.
  destruct (Z.ltb_spec (Z.of_nat n) 0); [lia|].
  now rewrite Nat2Z.id.
Qed.

Lemma bytes_eqb_false (a b : bytes) : a <> b -> bytes_eqb a b = false.
Proof.
  intros H. unfold bytes_eqb.
  now destruct (list_eq_dec Byte.byte_eq_dec a b).
Qed.

Lemma bytes_eqb_true (a : bytes) : bytes_eqb a a = true.
Proof.
  unfold bytes_eqb.
  now destruct (list_eq_dec Byte.byte_eq_dec a a).
Qed.

(** ** The magic number *)

Lemma test_if_ftsfile_bad (disk : string -> option bytes) (o : ftsreader)
  (f : bytes) :
  source disk (path o) (filemode o) (streamdata o) = Ok f ->
  firstn 4 f <> ftsmagicval ->
  test_if_ftsfile disk o
  = (Ok tt,
     set_isftsfile false
       (set_status false
          (set_log (log o ++ [Msg "testing if FTS file";
                              Msg ("Bad Magic found in " +++ path o)]) o))).
Proof.
  intros Hsrc Hmagic.
  unfold test_if_ftsfile.
  unfold bind, try_except, log_append, modify at 1.
  rewrite getfileobject_eq. cbn [path filemode streamdata set_log].
  rewrite Hsrc.
  change 4 with (Z.of_nat 4). rewrite read_at_0.
  unfold seek, bind, get, ret. cbn [Z.ltb Z.compare].
  rewrite (bytes_eqb_false _ _ Hmagic).
  unfold modify, set_isftsfile, set_status, set_log. cbn -[firstn String.append].
  now rewrite <- app_assoc.
Qed.

(** C4, as the code has it.  When a source opens and its first four bytes
    are not [0A 0A FE FE], the constructor (which tests the magic number
    unless [getslices] is set) leaves a reader with [status] and
    [isftsfile] false and with no directory, no header and no
    interferogram at all: the attributes are never set, which is not an
    empty directory.  [read_header] and [read_structure] are not run, as
    the log shows. *)
Theorem bad_magic_rejected (disk : string -> option bytes)
  (path : string) (verbose getifg : bool) (filemode : string)
  (streamdata : option bytes) (f : bytes) :
  source disk path filemode streamdata = Ok f ->
  firstn 4 f <> ftsmagicval ->
  let o := init disk path verbose getifg false filemode streamdata in
  status o = false
  /\ isftsfile o = Some false
  /\ fs o = None
  /\ header o = None
  /\ ifg o = None
  /\ log o = [ Msg "Initializing"; Msg "testing if FTS file";
               Msg ("Bad Magic found in " +++ path); Problem ValueError ].
Proof.
  intros Hsrc Hmagic.
  unfold init, init_body, log_append, bind, modify, try_except, get.
  cbn -[rfind str_slice String.append firstn test_if_ftsfile].
  destruct (0 <? rfind "/" path).
  all: erewrite test_if_ftsfile_bad by (cbn; eassumption).
  all: cbn -[String.append]; repeat split; reflexivity.
Qed.

Lemma bad_magic_rejected_witness :
  let o := init (fun _ => None) "" false true false "mem"
             (Some [x0a; x0a; xfe]) in
  status o = false
  /\ isftsfile o = Some false
  /\ fs o = None
  /\ header o = None
  /\ ifg o = None
  /\ log o = [ Msg "Initializing"; Msg "testing if FTS file";
               Msg ("Bad Magic found in " +++ ""); Problem ValueError ].
Proof.
  apply (bad_magic_rejected (fun _ => None) "" false true "mem"
           (Some [x0a; x0a; xfe]) [x0a; x0a; xfe]).
  - reflexivity.
  - discriminate.
Defined.

(** ** Data blocks that are not there *)

(** C3, as the code has it.  For a block name that is not in the directory,
    [search_block] logs that it could not find it and returns [None];
    [get_datablocks] then fails with the [TypeError] of subscripting [None],
    after these two log entries and before any read.  There is no error of
    its own for a missing block: callers ask [has_block] first, which
    answers [False]. *)
Theorem get_datablocks_absent (disk : string -> option bytes) (o : ftsreader)
  (d : dict BlockDescriptor) (block : string) :
  fs o = Some d ->
  dict_get block d = None ->
  get_datablocks disk block o
  = (Raise TypeError,
     set_log (log o ++ [ Msg "Getting data blocks";
                         Msg ("Could not find " +++ block
                              +++ " in self.fs.keys()") ]) o)
  /\ has_block block o = (Ok false, o).
Proof.
  intros Hfs Hget. split.
  - unfold get_datablocks, search_block, subscript. mred.
    unfold set_log at 1 2. cbn -[String.append].
    rewrite Hfs. cbn -[String.append]. rewrite Hget. cbn -[String.append].
    unfold set_log. cbn -[String.append]. now rewrite <- app_assoc, ?Hfs.
  - unfold has_block, dict_mem. mred. now rewrite Hfs, Hget.
Qed.

Lemma get_datablocks_absent_witness :
  get_datablocks nodisk "Data Block IgSm" empty_directory_reader
  = (Raise TypeError,
     set_log (log empty_directory_reader
              ++ [ Msg "Getting data blocks";
                   Msg ("Could not find " +++ "Data Block IgSm"
                        +++ " in self.fs.keys()") ])
       empty_directory_reader)
  /\ has_block "Data Block IgSm" empty_directory_reader
     = (Ok false, empty_directory_reader).
Proof.
  apply (get_datablocks_absent nodisk empty_directory_reader []
           "Data Block IgSm"); reflexivity.
Defined.

(** C3, as stated, fails: on the reader of a file with an empty directory,
    the exception that escapes from [get_datablocks] is [TypeError], which
    is no lookup error. *)
Lemma get_datablocks_absent_is_type_error :
  ~ (forall (disk : string -> option bytes) (o : ftsreader)
            (d : dict BlockDescriptor) (block : string),
        fs o = Some d ->
        dict_get block d = None ->
        reports_not_found (fst (get_datablocks disk block o))).
Proof.
  intros H.
  destruct (H nodisk empty_directory_reader [] "Data Block IgSm"
              eq_refl eq_refl) as [e [He Hl]].
  vm_compute in He. injection He as <-. discriminate Hl.
Qed.

(** ** Reads past the end of the source *)

Lemma read_at_length (f : bytes) (pos size : Z) :
  0 <= pos -> 0 <= size ->
  Z.of_nat (List.length (read_at f pos size))
  = Z.min size (Z.max 0 (Z.of_nat (List.length f) - pos)).
Proof.
  intros Hp Hs. unfold read_at.
  destruct (Z.ltb_spec size 0); [lia|].
  rewrite length_firstn, length_skipn. lia.
Qed.

Lemma unpack_nf_short (count : Z) (data : bytes) :
  Z.of_nat (List.length data) <> 4 * count ->
  unpack_nf count data = Raise StructError.
Proof.
  intros H. unfold unpack_nf, has_len.
  destruct (Z.eqb_spec (Z.of_nat (List.length data)) (4 * count));
    [contradiction|].
  now rewrite andb_false_r.
Qed.

(** C5, as the code has it.  A read that reaches past the end of the source
    is no error of the file object, whichever of the three file modes made
    it: it returns the bytes that are left, fewer than were asked for.
    [get_block] with a positive sample count then fails, with the
    [struct.error] of unpacking too short a buffer. *)
Theorem get_block_past_end (disk : string -> option bytes) (o : ftsreader)
  (f : bytes) (pointer length : Z) :
  source disk (path o) (filemode o) (streamdata o) = Ok f ->
  0 <= pointer ->
  0 < length ->
  Z.of_nat (List.length f) < pointer + 4 * length ->
  Z.of_nat (List.length (read_at f pointer (length * 4)))
  = Z.max 0 (Z.of_nat (List.length f) - pointer)
  /\ Z.of_nat (List.length (read_at f pointer (length * 4))) < 4 * length
  /\ fst (get_block disk pointer length o) = Raise StructError.
Proof.
  intros Hsrc Hp Hl Hlen.
  assert (E : Z.of_nat (List.length (read_at f pointer (length * 4)))
              = Z.max 0 (Z.of_nat (List.length f) - pointer)).
  { rewrite read_at_length by lia. lia. }
  split; [exact E | split; [lia|]].
  unfold get_block. munfold.
  cbn -[String.append str_of_Z read_at unpack_nf getfileobject].
  rewrite getfileobject_eq.
  cbn -[String.append str_of_Z read_at unpack_nf].
  rewrite Hsrc.
  destruct (Z.ltb_spec pointer 0); [lia|].
  cbn -[String.append str_of_Z read_at unpack_nf].
  rewrite unpack_nf_short by lia. reflexivity.
Qed.

Lemma get_block_past_end_witness :
  Z.of_nat (List.length (read_at three_bytes 0 (1 * 4)))
  = Z.max 0 (Z.of_nat (List.length three_bytes) - 0)
  /\ Z.of_nat (List.length (read_at three_bytes 0 (1 * 4))) < 4 * 1
  /\ fst (get_block nodisk 0 1 (new "" false "mem" (Some three_bytes)))
     = Raise StructError.
Proof.
  apply (get_block_past_end nodisk (new "" false "mem" (Some three_bytes))
           three_bytes 0 1).
  - reflexivity.
  - lia.
  - lia.
  - simpl. lia.
Defined.

(** C5, as stated, fails: asked for four bytes of a three-byte source in
    memory, the file object returns the three bytes without an error, and
    [test_if_ftsfile], which made the read, returns normally. *)
Lemma short_read_is_silent :
  Z.of_nat (List.length three_bytes) < 0 + 4
  /\ read_at three_bytes 0 4 = three_bytes
  /\ fst (test_if_ftsfile nodisk (new "" false "mem" (Some three_bytes)))
     = Ok tt.
Proof.
  split; [simpl; lia | split; reflexivity].
Qed.

(** ** Records of unknown type *)

(** C6, as stated, fails: a record of type code 5 leaves the text
    ['[read error]'] under its tag, and the log as it was. *)
Lemma unknown_type_code_is_stored :
  getparamsfromblock nodisk 0 0 unknown_type_reader
  = (Ok [("ABC", VStr "[read error]")], unknown_type_reader).
Proof. reflexivity. Qed.

(** C6, as the code has it.  At a record whose type code is none of 0 to 4
    (with a positive word count, a tag other than [END] and one that
    decodes), a turn of the loop stores the text ['[read error]'] under the
    tag, leaves the reader and its log untouched, raises nothing, and the
    loop goes on with the record that follows the payload. *)
Theorem unknown_type_code_stored (f : bytes) (offset : Z) (full : bool)
  (i : Z) (params : dict HeaderValue) (fullblock : list full_entry)
  (o : ftsreader) (para0 : bytes) (thistype length : Z) :
  0 <= offset + i ->
  unpack_4s2H (read_at f (offset + i) 8) = Ok (para0, thistype, length) ->
  thistype < 0 \/ 4 < thistype ->
  0 < length ->
  firstn 3 (trim_para para0) <> list_byte_of_string "END" ->
  utf8_valid (trim_para para0) = true ->
  let st' :=
    (i + 8 + 2 * length,
     dict_set (string_of_list_byte (trim_para para0)) (VStr "[read error]")
       params,
     if full
     then fullblock ++
          [{| fe_para := para0; fe_type := thistype; fe_length := length;
              fe_offset := offset + i; fe_val := VStr "[read error]" |}]
     else fullblock) in
  getparams_step f offset full (i, params, fullblock) o = (Ok (true, st'), o)
  /\ forall fuel,
       getparams_loop (S fuel) f offset full (i, params, fullblock) o
       = getparams_loop fuel f offset full st' o.
Proof.
  intros Hpos Hun Htype Hlen Hend Hutf st'.
  assert (E : getparams_step f offset full (i, params, fullblock) o
              = (Ok (true, st'), o)).
  { unfold getparams_step. munfold.
    destruct (Z.ltb_spec (offset + i) 0); [lia|].
    rewrite Hun. cbv beta iota zeta.
    rewrite (bytes_eqb_false _ _ Hend).
    destruct (Z.ltb_spec 0 length); [|lia].
    cbn [negb andb].
    destruct (Z.ltb_spec (offset + (i + 8)) 0); [lia|].
    unfold decode_value, decode_utf8.
    destruct (Z.eqb_spec thistype 0); [lia|].
    destruct (Z.eqb_spec thistype 1); [lia|].
    replace ((2 <=? thistype) && (thistype <=? 4)) with false
      by (symmetry; apply andb_false_iff; lia).
    rewrite Hutf. reflexivity. }
  split; [exact E|].
  intros fuel. cbn [getparams_loop]. unfold bind at 1. rewrite E. reflexivity.
Qed.

Lemma unknown_type_code_stored_witness :
  let st' := (0 + 8 + 2 * 1,
              dict_set "ABC" (VStr "[read error]") [],
              @nil full_entry) in
  getparams_step unknown_type_block 0 false (0, [], []) unknown_type_reader
  = (Ok (true, st'), unknown_type_reader)
  /\ forall fuel,
       getparams_loop (S fuel) unknown_type_block 0 false (0, [], [])
         unknown_type_reader
       = getparams_loop fuel unknown_type_block 0 false st'
           unknown_type_reader.
Proof.
  apply (unknown_type_code_stored unknown_type_block 0 false 0 [] []
           unknown_type_reader (list_byte_of_string "ABC" ++ [x00]) 5 1).
  - lia.
  - reflexivity.
  - right. lia.
  - lia.
  - discriminate.
  - reflexivity.
Defined.

(** ** Decoding a block: what it reads and writes *)

Lemma ext_nil (o : ftsreader) : ext o [] = o.
Proof. destruct o. unfold ext, set_log. simpl. now rewrite app_nil_r. Qed.

Lemma ext_ext (o : ftsreader) (l1 l2 : list log_entry) :
  ext (ext o l1) l2 = ext o (l1 ++ l2).
Proof. unfold ext, set_log. simpl. now rewrite app_assoc. Qed.

Lemma bind_Ok {A B} (m : M A) (k : A -> M B) (o o1 : ftsreader) (a : A) :
  m o = (Ok a, o1) -> bind m k o = k a o1.
Proof. intros H. unfold bind. now rewrite H. Qed.

Lemma bind_Raise {A B} (m : M A) (k : A -> M B) (o o1 : ftsreader)
  (e : exn) :
  m o = (Raise e, o1) -> bind m k o = (Raise e, o1).
Proof. intros H. unfold bind. now rewrite H. Qed.

Lemma seek_ok (pos : Z) (o : ftsreader) :
  0 <= pos -> seek pos o = (Ok tt, o).
Proof.
  intros H. unfold seek. munfold. destruct (Z.ltb_spec pos 0); [lia|].
  reflexivity.
Qed.

Lemma seek_neg (pos : Z) (o : ftsreader) :
  pos < 0 ->
  seek pos o
  = (Raise (if String.eqb (filemode o) "hdd" then OSError else ValueError),
     o).
Proof.
  intros H. unfold seek. munfold. destruct (Z.ltb_spec pos 0); [|lia].
  reflexivity.
Qed.

Ltac step_prefix :=
  erewrite bind_Ok by (apply seek_ok; lia); cbv beta zeta;
  erewrite bind_Ok by reflexivity;
  cbv beta iota zeta;
  match goal with H : (_ && _)%bool = _ |- _ => rewrite H end;
  erewrite bind_Ok by (apply seek_ok; lia); cbv beta zeta;
  unfold try_except.

(** A turn of the loop reads the reader for its file mode only and writes
    to its log only. *)
Lemma getparams_step_frame (f : bytes) (offset : Z) (full : bool)
  (st : loop_state) (o : ftsreader) :
  exists r l,
    forall o', filemode o' = filemode o ->
               getparams_step f offset full st o' = (r, ext o' l).
Proof.
  destruct st as [[i params] fullblock].
  unfold getparams_step.
  destruct (Z.ltb_spec (offset + i) 0) as [Hneg|Hpos].
  - eexists _, []. intros o' Hfm.
    erewrite bind_Raise by (apply seek_neg; lia).
    rewrite Hfm, ext_nil. reflexivity.
  - destruct (unpack_4s2H (read_at f (offset + i) 8))
      as [[[para0 thistype] length]|e] eqn:Hun.
    + destruct (negb (bytes_eqb (firstn 3 (trim_para para0))
                        (list_byte_of_string "END")) && (0 <? length))
        eqn:Hgo.
      * destruct (decode_value thistype length
                    (read_at f (offset + (i + 8)) (2 * length)))
          as [val|e] eqn:Hval;
          [destruct (decode_utf8 (trim_para para0)) as [key|e] eqn:Hkey|].
        -- eexists _, []. intros o' Hfm. step_prefix.
           erewrite bind_Ok by (unfold lift; rewrite ?Hval; reflexivity).
           erewrite bind_Ok by (unfold lift; rewrite ?Hkey; reflexivity).
           unfold ret. now rewrite ext_nil.
        -- eexists _, [Exc e]. intros o' Hfm. step_prefix.
           erewrite bind_Ok by (unfold lift; rewrite ?Hval; reflexivity).
           erewrite bind_Raise by (unfold lift; rewrite ?Hkey; reflexivity).
           reflexivity.
        -- eexists _, [Exc e]. intros o' Hfm. step_prefix.
           erewrite bind_Raise by (unfold lift; rewrite ?Hval; reflexivity).
           reflexivity.
      * eexists _, []. intros o' Hfm.
        erewrite bind_Ok by (apply seek_ok; lia); cbv beta zeta.
        erewrite bind_Ok by (unfold lift; rewrite ?Hun, ?Hval, ?Hkey; reflexivity).
        cbv beta iota zeta. rewrite Hgo. unfold ret. now rewrite ext_nil.
    + eexists _, []. intros o' Hfm.
      erewrite bind_Ok by (apply seek_ok; lia); cbv beta zeta.
      erewrite bind_Raise by (unfold lift; rewrite ?Hun, ?Hval, ?Hkey; reflexivity).
      now rewrite ext_nil.
Qed.

Lemma filemode_ext (o : ftsreader) (l : list log_entry) :
  filemode (ext o l) = filemode o.
Proof. reflexivity. Qed.

Lemma getparams_loop_frame (fuel : nat) (f : bytes) (offset : Z)
  (full : bool) (st : loop_state) (o : ftsreader) :
  exists r l,
    forall o', filemode o' = filemode o ->
               getparams_loop fuel f offset full st o' = (r, ext o' l).
Proof.
  revert st o. induction fuel as [|k IH]; intros st o.
  - exists (Raise FuelExhausted), []. intros o' _. cbn. unfold raise.
    now rewrite ext_nil.
  - destruct (getparams_step_frame f offset full st o) as [r [l Hstep]].
    destruct r as [[go st']|e].
    + destruct go.
      * destruct (IH st' o) as [r2 [l2 Hloop]].
        exists r2, (l ++ l2). intros o' Hfm. cbn [getparams_loop].
        erewrite bind_Ok by (apply Hstep; assumption).
        cbn [fst snd]. rewrite Hloop by (now rewrite filemode_ext).
        now rewrite ext_ext.
      * exists (Ok st'), l. intros o' Hfm. cbn [getparams_loop].
        erewrite bind_Ok by (apply Hstep; assumption). reflexivity.
    + exists (Raise e), l. intros o' Hfm. cbn [getparams_loop].
      erewrite bind_Raise by (apply Hstep; assumption). reflexivity.
Qed.

Lemma same_source_ext (o : ftsreader) (l : list log_entry) :
  same_source o (ext o l).
Proof. now repeat split. Qed.

Lemma same_source_trans (o1 o2 o3 : ftsreader) :
  same_source o1 o2 -> same_source o2 o3 -> same_source o1 o3.
Proof. unfold same_source. intuition congruence. Qed.

Lemma same_source_sym (o1 o2 : ftsreader) :
  same_source o1 o2 -> same_source o2 o1.
Proof. unfold same_source. intuition congruence. Qed.

(** Decoding a block depends on the source only, and only adds to the
    log. *)
Lemma getparamsfromblock_frame (disk : string -> option bytes)
  (offset length : Z) (o : ftsreader) :
  exists r l,
    forall o', same_source o o' ->
               getparamsfromblock disk offset length o' = (r, ext o' l).
Proof.
  unfold getparamsfromblock, getparams_run.
  destruct (source disk (path o) (filemode o) (streamdata o)) as [f|e] eqn:Hs.
  - destruct (getparams_loop_frame (S (List.length f)) f offset false
                (0, [], []) o) as [r [l Hloop]].
    destruct r as [st|e].
    + exists (Ok (snd (fst st))), l. intros o' [Hp [Hf Hd]].
      erewrite bind_Ok; [reflexivity|].
      erewrite bind_Ok by (rewrite getfileobject_eq, <- Hp, <- Hf, <- Hd, Hs;
                           reflexivity).
      apply Hloop. now symmetry.
    + exists (Raise e), l. intros o' [Hp [Hf Hd]].
      erewrite bind_Raise; [reflexivity|].
      erewrite bind_Ok by (rewrite getfileobject_eq, <- Hp, <- Hf, <- Hd, Hs;
                           reflexivity).
      apply Hloop. now symmetry.
  - exists (Raise e), []. intros o' [Hp [Hf Hd]].
    erewrite bind_Raise; [reflexivity|].
    erewrite bind_Raise; [reflexivity|].
    rewrite getfileobject_eq, <- Hp, <- Hf, <- Hd, Hs. now rewrite ext_nil.
Qed.

(** ** The loop of [getparamsfromblock] terminates *)

Lemma unpack_4s2H_Ok (s : bytes) (x : bytes * Z * Z) :
  unpack_4s2H s = Ok x -> Z.of_nat (List.length s) = 8.
Proof.
  unfold unpack_4s2H, has_len.
  destruct (Z.eqb_spec (Z.of_nat (List.length s)) 8); [auto | discriminate].
Qed.

Lemma unpack_4s2H_Raise (s : bytes) (e : exn) :
  unpack_4s2H s = Raise e -> e = StructError.
Proof.
  unfold unpack_4s2H. destruct (has_len s 8); [discriminate | congruence].
Qed.

(** What a turn of the loop can do: raise (never for lack of fuel), stop,
    or go on after a record header that lies within the file. *)
Lemma getparams_step_cases (f : bytes) (offset : Z) (full : bool)
  (i : Z) (params : dict HeaderValue) (fullblock : list full_entry)
  (o : ftsreader) :
  match fst (getparams_step f offset full (i, params, fullblock) o) with
  | Raise e => e <> FuelExhausted
  | Ok (false, _) => True
  | Ok (true, st') =>
      0 <= offset + i
      /\ offset + i + 8 <= Z.of_nat (List.length f)
      /\ i + 8 < fst (fst st')
  end.
Proof.
  unfold getparams_step.
  destruct (Z.ltb_spec (offset + i) 0) as [Hneg|Hpos].
  - erewrite bind_Raise by (apply seek_neg; lia). cbn [fst].
    destruct (String.eqb (filemode o) "hdd"); discriminate.
  - destruct (unpack_4s2H (read_at f (offset + i) 8))
      as [[[para0 thistype] length]|e] eqn:Hun.
    + assert (Hin : offset + i + 8 <= Z.of_nat (List.length f)).
      { apply unpack_4s2H_Ok in Hun.
        rewrite read_at_length in Hun by lia. lia. }
      destruct (negb (bytes_eqb (firstn 3 (trim_para para0))
                        (list_byte_of_string "END")) && (0 <? length))
        eqn:Hgo.
      * assert (Hlen : 0 < length).
        { apply andb_prop in Hgo. destruct Hgo as [_ Hgo].
          now apply Z.ltb_lt in Hgo. }
        destruct (decode_value thistype length
                    (read_at f (offset + (i + 8)) (2 * length)))
          as [val|e] eqn:Hval;
          [destruct (decode_utf8 (trim_para para0)) as [key|e] eqn:Hkey|].
        -- step_prefix.
           erewrite bind_Ok by (unfold lift; rewrite ?Hval; reflexivity).
           erewrite bind_Ok by (unfold lift; rewrite ?Hkey; reflexivity).
           unfold ret; cbn [fst snd]; repeat split; lia.
        -- step_prefix.
           erewrite bind_Ok by (unfold lift; rewrite ?Hval; reflexivity).
           erewrite bind_Raise by (unfold lift; rewrite ?Hkey; reflexivity).
           unfold bind, log_append, modify, ret; cbn [fst snd].
           repeat split; lia.
        -- step_prefix.
           erewrite bind_Raise by (unfold lift; rewrite ?Hval; reflexivity).
           unfold bind, log_append, modify, ret; cbn [fst snd].
           repeat split; lia.
      * erewrite bind_Ok by (apply seek_ok; lia). cbv beta zeta.
        erewrite bind_Ok by reflexivity.
        cbv beta iota zeta. rewrite Hgo. exact I.
    + erewrite bind_Ok by (apply seek_ok; lia). cbv beta zeta.
      erewrite bind_Raise by reflexivity. cbn [fst].
      apply unpack_4s2H_Raise in Hun. subst e. discriminate.
Qed.

Lemma getparams_loop_fuel (fuel : nat) (f : bytes) (offset : Z)
  (full : bool) (i : Z) (params : dict HeaderValue)
  (fullblock : list full_entry) (o : ftsreader) (e : exn) :
  (0 < fuel)%nat ->
  offset + i < 0
  \/ Z.of_nat (List.length f) - (offset + i) < Z.of_nat fuel ->
  fst (getparams_loop fuel f offset full (i, params, fullblock) o) = Raise e ->
  e <> FuelExhausted.
Proof.
  revert i params fullblock o.
  induction fuel as [|k IH]; intros i params fullblock o Hk Hfuel; [lia|].
  cbn [getparams_loop].
  pose proof (getparams_step_cases f offset full i params fullblock o) as Hc.
  destruct (getparams_step f offset full (i, params, fullblock) o)
    as [[[go st']|e'] o1] eqn:Hstep; cbn [fst] in Hc.
  - erewrite bind_Ok by eassumption. cbn [fst snd].
    destruct go.
    + destruct st' as [[i' params'] fullblock']. cbn [fst] in Hc.
      apply IH; lia.
    + discriminate.
  - erewrite bind_Raise by eassumption. cbn [fst]. congruence.
Qed.

Lemma source_Raise (disk : string -> option bytes) (p m : string)
  (sd : option bytes) (e : exn) :
  source disk p m sd = Raise e -> e <> FuelExhausted.
Proof.
  unfold source, getfileobject. mred.
  destruct (String.eqb m "hdd").
  - destruct (disk p); simpl; congruence.
  - destruct (String.eqb m "bytesfromfile").
    + destruct (disk p); simpl; congruence.
    + destruct (String.eqb m "mem"); simpl; congruence.
Qed.

(** The fuel given to the loop is never used up: whatever the reader, the
    offset and the file, [getparamsfromblock] returns a dictionary or
    raises one of Python's exceptions. *)
Theorem getparamsfromblock_terminates (disk : string -> option bytes)
  (offset length : Z) (o : ftsreader) (e : exn) :
  fst (getparamsfromblock disk offset length o) = Raise e ->
  e <> FuelExhausted.
Proof.
  unfold getparamsfromblock, getparams_run.
  destruct (source disk (path o) (filemode o) (streamdata o)) as [f|e'] eqn:Hs.
  - pose proof (getparams_loop_fuel (S (List.length f)) f offset false 0 [] [] o)
      as Hfuel.
    destruct (getparams_loop (S (List.length f)) f offset false (0, [], []) o)
      as [[st|e'] o1] eqn:Hloop.
    + erewrite bind_Ok; [discriminate|].
      erewrite bind_Ok by (rewrite getfileobject_eq, Hs; reflexivity).
      eassumption.
    + erewrite bind_Raise.
      2:{ erewrite bind_Ok by (rewrite getfileobject_eq, Hs; reflexivity).
          eassumption. }
      cbn [fst]. intros [= <-]. apply Hfuel; [lia | lia | exact (f_equal fst Hloop)].
  - erewrite bind_Raise.
    2:{ erewrite bind_Raise by (rewrite getfileobject_eq, Hs; reflexivity).
        reflexivity. }
    cbn [fst]. intros [= <-]. eapply source_Raise; eassumption.
Qed.

(** ** Building the header *)

Lemma attr_Some {A} (field : ftsreader -> option A) (o : ftsreader) (a : A) :
  field o = Some a -> attr field o = (Ok a, o).
Proof. intros H. unfold attr. munfold. now rewrite H. Qed.

Lemma read_entry_inv (f : bytes) (pos : Z) (o0 o : ftsreader) :
  dir_inv o0 o -> dir_inv o0 (snd (read_entry f pos o)).
Proof.
  intros [Hs [Hh [d [Hfs Hwf]]]]. unfold read_entry.
  destruct (unpack_2BH2i (read_at f pos 12)) as [[[[[bt bt2] r] len] off2]|e].
  - erewrite bind_Ok by reflexivity. cbv beta iota zeta.
    erewrite bind_Ok by reflexivity.
    unfold fs_setitem.
    erewrite bind_Ok by (apply attr_Some; cbn; eassumption).
    cbn [modify snd].
    repeat split; try apply Hs; try assumption.
    eexists. split; [reflexivity|]. now apply dict_set_wf.
  - erewrite bind_Raise by reflexivity. cbn [snd].
    repeat split; try apply Hs; try assumption. now exists d.
Qed.

Lemma read_entries_inv (f : bytes) (n : nat) (pos : Z) (o0 o : ftsreader) :
  dir_inv o0 o -> dir_inv o0 (snd (read_entries f n pos o)).
Proof.
  revert pos o. induction n as [|k IH]; intros pos o Hinv; [exact Hinv|].
  cbn [read_entries]. unfold bind.
  pose proof (read_entry_inv f pos o0 o Hinv) as H1.
  destruct (read_entry f pos o) as [[[]|e] o1]; cbn [snd] in *.
  - now apply IH.
  - exact H1.
Qed.

(** Whatever [read_structure] returns, it leaves a well-formed directory,
    and the source and the header as they were. *)
Lemma read_structure_inv (disk : string -> option bytes) (o : ftsreader) :
  dir_inv o (snd (read_structure disk o)).
Proof.
  assert (H0 : dir_inv o (set_fs [] o)).
  { repeat split. exists []. split; [reflexivity | constructor]. }
  assert (H1 : forall l, dir_inv o (ext (set_fs [] o) l)).
  { intros l. repeat split. exists []. split; [reflexivity | constructor]. }
  unfold read_structure.
  erewrite bind_Ok by reflexivity.
  unfold bind at 1. rewrite getfileobject_eq.
  destruct (source disk (path (set_fs [] o)) (filemode (set_fs [] o))
              (streamdata (set_fs [] o))) as [f|e]; [|exact H0].
  erewrite bind_Ok by (apply seek_ok; lia).
  erewrite bind_Ok by reflexivity.
  destruct (unpack_6i (read_at f 0 24))
    as [[[[[[m s1] s2] offset1] s3] n]|e].
  - erewrite bind_Ok by reflexivity. cbv beta iota zeta.
    destruct (Z.ltb_spec offset1 0).
    + erewrite bind_Raise by (apply seek_neg; lia). apply H1.
    + erewrite bind_Ok by (apply seek_ok; lia).
      apply read_entries_inv. apply H1.
  - erewrite bind_Raise by reflexivity. apply H1.
Qed.

Lemma dict_get_app_fresh {V} (k : string) (v : V) (done rest : dict V) :
  ~ In k (dict_keys done) ->
  dict_get k (done ++ (k, v) :: rest) = Some v.
Proof.
  induction done as [|[k' v'] r IH]; simpl; intros H.
  - now rewrite String.eqb_refl.
  - destruct (String.eqb_spec k k') as [->|Hne].
    + exfalso. apply H. now left.
    + apply IH. intros I. apply H. now right.
Qed.

Lemma header_entry_keys (disk : string -> option bytes) (o : ftsreader)
  (entry : string * BlockDescriptor) (k : string) :
  In k (dict_keys (header_entry disk o entry)) -> k = fst entry.
Proof.
  unfold header_entry.
  destruct (is_header_block (fst entry) (snd entry)); [|intros []].
  destruct (fst (getparamsfromblock disk (offset (snd entry))
                   (length (snd entry)) o)); [|intros []].
  simpl. intros [E|[]]. now symmetry.
Qed.

Lemma header_of_keys (disk : string -> option bytes) (o : ftsreader)
  (d : dict BlockDescriptor) (k : string) :
  In k (dict_keys (header_of disk o d)) -> In k (dict_keys d).
Proof.
  unfold header_of, dict_keys.
  induction d as [|entry r IH]; simpl; [auto|].
  rewrite map_app, in_app_iff. intros [H|H].
  - left. symmetry. now apply (header_entry_keys disk o entry k).
  - right. now apply IH.
Qed.

Lemma header_of_app (disk : string -> option bytes) (o : ftsreader)
  (d1 d2 : dict BlockDescriptor) :
  header_of disk o (d1 ++ d2) = header_of disk o d1 ++ header_of disk o d2.
Proof. unfold header_of. apply flat_map_app. Qed.

(** One turn of the loop of [read_header], at the directory entry
    [(block, desc)], the header holding [h] so far. *)
Lemma read_header_block_step (disk : string -> option bytes)
  (o0 o : ftsreader) (d : dict BlockDescriptor)
  (h : dict (dict HeaderValue)) (block : string) (desc : BlockDescriptor) :
  same_source o0 o ->
  fs o = Some d ->
  dict_get block d = Some desc ->
  header o = Some h ->
  ~ In block (dict_keys h) ->
  exists o',
    read_header_block disk block o = (Ok tt, o')
    /\ same_source o0 o'
    /\ fs o' = Some d
    /\ header o' = Some (h ++ header_entry disk o0 (block, desc)).
Proof.
  intros Hs Hfs Hget Hh Hfresh.
  unfold read_header_block, header_entry, is_header_block. cbn [fst snd].
  erewrite bind_Ok by (apply attr_Some; eassumption).
  erewrite bind_Ok by (unfold lift, dict_item; rewrite Hget; reflexivity).
  destruct (negb (String.eqb (str_slice block None (Some 10)) "Data Block")
            && (0 <? length desc)); cbn [andb].
  2:{ exists o. rewrite app_nil_r. repeat split; try apply Hs; assumption. }
  destruct (contains "unknown" block || contains "something" block);
    cbn [negb].
  { exists o. rewrite app_nil_r. repeat split; try apply Hs; assumption. }
  destruct (getparamsfromblock_frame disk (offset desc) (length desc) o0)
    as [r [l Hframe]].
  rewrite (Hframe o0) by (now repeat split). cbn [fst].
  set (o1 := ext o [Msg ("Reading Header Block: " +++ block)]).
  assert (Hs1 : same_source o0 o1).
  { eapply same_source_trans; [exact Hs | apply same_source_ext]. }
  unfold try_except.
  erewrite bind_Ok by reflexivity.
  destruct r as [params|e].
  - erewrite bind_Ok by (apply Hframe; exact Hs1).
    unfold header_setitem.
    erewrite bind_Ok by (apply attr_Some; cbn; eassumption).
    cbn [modify].
    eexists. split; [reflexivity|].
    repeat split; try apply Hs; cbn; try assumption.
    now rewrite dict_set_fresh.
  - erewrite bind_Raise by (apply Hframe; exact Hs1).
    cbn [log_append modify]. unfold log_append, modify.
    eexists. split; [reflexivity|].
    repeat split; try apply Hs; cbn; try assumption.
    now rewrite app_nil_r.
Qed.

Lemma read_header_loop (disk : string -> option bytes) (o0 : ftsreader)
  (d : dict BlockDescriptor) :
  dict_wf d ->
  forall (todo done : dict BlockDescriptor) (o : ftsreader),
    d = done ++ todo ->
    same_source o0 o ->
    fs o = Some d ->
    header o = Some (header_of disk o0 done) ->
    exists o',
      for_each (dict_keys todo) (read_header_block disk) o = (Ok tt, o')
      /\ same_source o0 o'
      /\ fs o' = Some d
      /\ header o' = Some (header_of disk o0 d).
Proof.
  intros Hwf todo.
  induction todo as [|[block desc] rest IH]; intros done o Hd Hs Hfs Hh.
  - exists o. rewrite app_nil_r in Hd. subst done.
    repeat split; try apply Hs; try reflexivity; assumption.
  - assert (Hnew : ~ In block (dict_keys done)).
    { unfold dict_wf, dict_keys in Hwf. rewrite Hd, map_app in Hwf.
      simpl in Hwf. apply NoDup_remove_2 in Hwf.
      intros I. apply Hwf. apply in_or_app. now left. }
    destruct (read_header_block_step disk o0 o d (header_of disk o0 done)
                block desc Hs Hfs) as [o1 [Hrun [Hs1 [Hfs1 Hh1]]]].
    + rewrite Hd. now apply dict_get_app_fresh.
    + exact Hh.
    + intros I. apply Hnew. now apply (header_of_keys disk o0).
    + destruct (IH (done ++ [(block, desc)]) o1) as [o2 [Hrun2 H2]].
      * now rewrite <- app_assoc.
      * exact Hs1.
      * exact Hfs1.
      * rewrite header_of_app. cbn [header_of flat_map].
        now rewrite app_nil_r.
      * exists o2. split; [|exact H2].
        cbn [dict_keys map fst for_each].
        erewrite bind_Ok by exact Hrun. exact Hrun2.
Qed.

Lemma header_of_bearing (disk : string -> option bytes) (o : ftsreader)
  (d : dict BlockDescriptor) :
  dict_keys (header_of disk o d)
  = dict_keys (filter (header_bearing disk o) d).
Proof.
  unfold header_of, dict_keys.
  induction d as [|entry r IH]; [reflexivity|].
  cbn [flat_map filter]. rewrite map_app, IH.
  unfold header_entry, header_bearing.
  destruct (is_header_block (fst entry) (snd entry)); [|reflexivity].
  now destruct (fst (getparamsfromblock disk (offset (snd entry))
                       (length (snd entry)) o)).
Qed.

(** What [read_header] leaves behind when it returns. *)
Lemma read_header_run (disk : string -> option bytes)
  (o o' : ftsreader) :
  read_header disk o = (Ok 0, o') ->
  exists d,
    fs o' = Some d
    /\ dict_wf d
    /\ header o' = Some (header_of disk o d).
Proof.
  unfold read_header. intros Hrun.
  erewrite bind_Ok in Hrun by reflexivity.
  set (o1 := set_log (log o ++ [Msg "Reading Header ..."]) o) in *.
  pose proof (read_structure_inv disk o1) as [Hs [_ [d [Hfs Hwf]]]].
  destruct (read_structure disk o1) as [[[]|e] o2] eqn:Hstruct;
    cbn [snd] in *.
  2:{ erewrite bind_Raise in Hrun by eassumption. discriminate. }
  erewrite bind_Ok in Hrun by eassumption.
  erewrite bind_Ok in Hrun by reflexivity.
  erewrite bind_Ok in Hrun by (apply attr_Some; cbn; eassumption).
  destruct (read_header_loop disk o d Hwf d [] (set_header [] o2))
    as [o3 [Hloop [Hs3 [Hfs3 Hh3]]]].
  - reflexivity.
  - eapply same_source_trans; [apply (same_source_ext o)|].
    eapply same_source_trans; [exact Hs|]. now repeat split.
  - exact Hfs.
  - reflexivity.
  - erewrite bind_Ok in Hrun by exact Hloop.
    injection Hrun as <-.
    exists d. repeat split; assumption.
Qed.

(** C7, as stated, fails: the entry of type 0 is no data block and has
    length 10, yet the header has no key for it. *)
Lemma unidentified_block_not_in_header :
  exists desc h,
    option_map (dict_get "something len  10") (fs unidentified_block_reader)
    = Some (Some desc)
    /\ str_slice "something len  10" None (Some 10) <> "Data Block"
    /\ length desc = 10
    /\ header unidentified_block_reader = Some h
    /\ dict_mem "something len  10" h = false
    /\ dict_keys h = ["Instrument Parameters"].
Proof.
  eexists _, _. repeat split; try reflexivity. discriminate.
Qed.

(** ** The dictionaries that the reader builds are well formed *)

Lemma getparams_step_wf (f : bytes) (offset : Z) (full : bool)
  (i : Z) (params : dict HeaderValue) (fullblock : list full_entry)
  (o : ftsreader) :
  dict_wf params ->
  match fst (getparams_step f offset full (i, params, fullblock) o) with
  | Ok (_, st') => dict_wf (snd (fst st'))
  | Raise _ => True
  end.
Proof.
  intros Hwf. unfold getparams_step.
  destruct (Z.ltb_spec (offset + i) 0) as [Hneg|Hpos].
  - erewrite bind_Raise by (apply seek_neg; lia). exact I.
  - destruct (unpack_4s2H (read_at f (offset + i) 8))
      as [[[para0 thistype] length]|e] eqn:Hun.
    + destruct (negb (bytes_eqb (firstn 3 (trim_para para0))
                        (list_byte_of_string "END")) && (0 <? length))
        eqn:Hgo.
      * destruct (decode_value thistype length
                    (read_at f (offset + (i + 8)) (2 * length)))
          as [val|e] eqn:Hval;
          [destruct (decode_utf8 (trim_para para0)) as [key|e] eqn:Hkey|].
        -- step_prefix.
           erewrite bind_Ok by (unfold lift; rewrite ?Hval; reflexivity).
           erewrite bind_Ok by (unfold lift; rewrite ?Hkey; reflexivity).
           unfold ret; cbn [fst snd]. now apply dict_set_wf.
        -- step_prefix.
           erewrite bind_Ok by (unfold lift; rewrite ?Hval; reflexivity).
           erewrite bind_Raise by (unfold lift; rewrite ?Hkey; reflexivity).
           unfold bind, log_append, modify, ret; cbn [fst snd]. exact Hwf.
        -- step_prefix.
           erewrite bind_Raise by (unfold lift; rewrite ?Hval; reflexivity).
           unfold bind, log_append, modify, ret; cbn [fst snd]. exact Hwf.
      * erewrite bind_Ok by (apply seek_ok; lia). cbv beta zeta.
        erewrite bind_Ok by reflexivity.
        cbv beta iota zeta. rewrite Hgo. exact Hwf.
    + erewrite bind_Ok by (apply seek_ok; lia). cbv beta zeta.
      erewrite bind_Raise by reflexivity. exact I.
Qed.

Lemma getparams_loop_wf (fuel : nat) (f : bytes) (offset : Z) (full : bool)
  (i : Z) (params : dict HeaderValue) (fullblock : list full_entry)
  (o : ftsreader) (st : loop_state) :
  dict_wf params ->
  fst (getparams_loop fuel f offset full (i, params, fullblock) o) = Ok st ->
  dict_wf (snd (fst st)).
Proof.
  revert i params fullblock o.
  induction fuel as [|k IH]; intros i params fullblock o Hwf;
    [discriminate|].
  cbn [getparams_loop].
  pose proof (getparams_step_wf f offset full i params fullblock o Hwf) as Hc.
  destruct (getparams_step f offset full (i, params, fullblock) o)
    as [[[go st']|e'] o1] eqn:Hstep; cbn [fst] in Hc.
  - erewrite bind_Ok by eassumption. cbn [fst snd].
    destruct go.
    + destruct st' as [[i' params'] fullblock']. cbn [fst snd] in Hc.
      now apply IH.
    + cbn [ret fst]. intros [= <-]. exact Hc.
  - erewrite bind_Raise by eassumption. discriminate.
Qed.

Lemma getparamsfromblock_wf (disk : string -> option bytes)
  (offset length : Z) (o : ftsreader) (params : dict HeaderValue) :
  fst (getparamsfromblock disk offset length o) = Ok params ->
  dict_wf params.
Proof.
  unfold getparamsfromblock, getparams_run.
  destruct (source disk (path o) (filemode o) (streamdata o)) as [f|e'] eqn:Hs.
  - pose proof (getparams_loop_wf (S (List.length f)) f offset false 0 [] [] o)
      as Hloop.
    destruct (getparams_loop (S (List.length f)) f offset false (0, [], []) o)
      as [[st|e'] o1] eqn:Hrun.
    + erewrite bind_Ok.
      2:{ erewrite bind_Ok by (rewrite getfileobject_eq, Hs; reflexivity).
          eassumption. }
      cbn [ret fst]. intros [= <-]. apply Hloop; [apply NoDup_nil | exact (f_equal fst Hrun)].
    + erewrite bind_Raise; [discriminate|].
      erewrite bind_Ok by (rewrite getfileobject_eq, Hs; reflexivity).
      eassumption.
  - erewrite bind_Raise; [discriminate|].
    erewrite bind_Raise by (rewrite getfileobject_eq, Hs; reflexivity).
    reflexivity.
Qed.

Lemma header_of_wf (disk : string -> option bytes) (o : ftsreader)
  (d : dict BlockDescriptor) :
  header_wf (header_of disk o d).
Proof.
  unfold header_wf, header_of.
  induction d as [|entry r IH]; [constructor|].
  cbn [flat_map]. apply Forall_app. split; [|exact IH].
  unfold header_entry.
  destruct (is_header_block (fst entry) (snd entry)); [|constructor].
  destruct (fst (getparamsfromblock disk (offset (snd entry))
                   (length (snd entry)) o)) as [params|e] eqn:E;
    [|constructor].
  constructor; [|constructor]. cbn [snd].
  eapply getparamsfromblock_wf. exact E.
Qed.

Lemma filter_keys_wf {V} (p : string * V -> bool) (d : dict V) :
  dict_wf d -> dict_wf (filter p d).
Proof.
  unfold dict_wf, dict_keys.
  induction d as [|[k v] r IH]; intros H; [constructor|].
  cbn [map fst] in H. inversion H as [|? ? Hk Hr]; subst.
  cbn [filter]. destruct (p (k, v)); [|now apply IH].
  cbn [map fst]. constructor; [|now apply IH].
  intros I. apply Hk. apply in_map_iff in I.
  destruct I as [[k' v'] [E I]]. apply filter_In in I.
  apply in_map_iff. exists (k', v'). now split.
Qed.

(** The header that [read_header] builds is a dictionary of dictionaries:
    no block twice, and no parameter twice in a block. *)
Lemma read_header_wf (disk : string -> option bytes) (o o' : ftsreader) :
  read_header disk o = (Ok 0, o') ->
  exists h, header o' = Some h /\ dict_wf h /\ header_wf h.
Proof.
  intros Hrun.
  destruct (read_header_run disk o o' Hrun) as [d [_ [Hwf Hh]]].
  exists (header_of disk o d). split; [exact Hh|]. split.
  - unfold dict_wf. rewrite header_of_bearing. now apply filter_keys_wf.
  - apply header_of_wf.
Qed.

(** ** Slices *)

Lemma slice_bounds_prefix (n k : nat) :
  slice_bounds n None (Some (Z.of_nat k)) = (0%nat, Nat.min n k).
Proof.
  unfold slice_bounds, slice_index. f_equal.
  destruct (Z.ltb_spec (Z.of_nat k) 0); lia.
Qed.

Lemma slice_bounds_suffix (n k : nat) :
  (1 <= k <= n)%nat ->
  slice_bounds n (Some (- Z.of_nat k)) None = ((n - k)%nat, n).
Proof.
  intros H. unfold slice_bounds, slice_index. f_equal.
  destruct (Z.ltb_spec (- Z.of_nat k) 0); lia.
Qed.

Lemma slice_bounds_suffix_0 (n : nat) :
  slice_bounds n (Some (- Z.of_nat 0)) None = (0%nat, n).
Proof. unfold slice_bounds, slice_index. simpl. f_equal. lia. Qed.

Lemma slice_prefix {A} (a : list A) (k : nat) :
  slice a None (Some (Z.of_nat k)) = firstn k a.
Proof.
  unfold slice. rewrite slice_bounds_prefix. simpl skipn.
  rewrite Nat.sub_0_r.
  destruct (Nat.le_gt_cases k (List.length a)).
  - now rewrite Nat.min_r.
  - rewrite Nat.min_l by lia. rewrite !firstn_all2 by lia. reflexivity.
Qed.

Lemma slice_empty {A} (a : list A) (i : Z) :
  slice a (Some i) (Some i) = [].
Proof.
  unfold slice, slice_bounds. now rewrite Nat.sub_diag.
Qed.

(** ** Slice assignment *)

Lemma setslice_prefix {A} (a v : list A) (k : nat) :
  List.length v = k -> (k <= List.length a)%nat ->
  setslice a None (Some (Z.of_nat k)) v = Ok (v ++ skipn k a).
Proof.
  intros Hv Hk. unfold setslice. rewrite slice_bounds_prefix.
  rewrite Nat.min_r by lia. rewrite Nat.sub_0_r, Hv, Nat.eqb_refl.
  reflexivity.
Qed.

Lemma setslice_suffix {A} (a v : list A) (k : nat) :
  List.length v = k -> (1 <= k <= List.length a)%nat ->
  setslice a (Some (- Z.of_nat k)) None v
  = Ok (firstn (List.length a - k) a ++ v).
Proof.
  intros Hv Hk. unfold setslice. rewrite slice_bounds_suffix by lia.
  replace (List.length a - (List.length a - k))%nat with k by lia.
  rewrite Hv, Nat.eqb_refl.
  replace (List.length a - k + k)%nat with (List.length a) by lia.
  now rewrite skipn_all, app_nil_r.
Qed.

(** Assigning an empty array to [a[-0:]], which is all of [a]. *)
Lemma setslice_suffix_0 {A} (a : list A) :
  a <> [] -> setslice a (Some (- Z.of_nat 0)) None [] = Raise ValueError.
Proof.
  intros H. unfold setslice. rewrite slice_bounds_suffix_0.
  destruct a as [|x r]; [contradiction|]. reflexivity.
Qed.

Lemma skipn_repeat {A} (x : A) (k n : nat) :
  skipn k (repeat x n) = repeat x (n - k).
Proof.
  revert k. induction n as [|n IH]; intros [|k]; simpl; auto.
Qed.

Lemma firstn_repeat {A} (x : A) (k n : nat) :
  (k <= n)%nat -> firstn k (repeat x n) = repeat x k.
Proof.
  revert k. induction n as [|n IH]; intros [|k] H; simpl; auto; [lia|].
  f_equal. apply IH. lia.
Qed.

(** ** The apodization function *)

Lemma ramp_length_nat (l0 : Z) :
  0 <= l0 -> ramp_length l0 = Z.of_nat (Z.to_nat l0 / 20).
Proof.
  intros H. unfold ramp_length. rewrite Z.quot_div_nonneg by lia.
  rewrite Nat2Z.inj_div, Z2Nat.id by lia.
  change (Z.of_nat 20) with 20. change 100 with (20 * 5).
  now rewrite Z.div_mul_cancel_r by lia.
Qed.

Lemma ramp_length_eq (l0 : Z) (l : nat) :
  ramp_length l0 = Z.of_nat l -> List.length (ramp (ramp_length l0)) = l.
Proof.
  intros H. unfold ramp, arange. rewrite !length_map, length_seq, H.
  apply Nat2Z.id.
Qed.

Lemma apodization_ok (l0 : Z) :
  20 <= l0 ->
  let n := Z.to_nat l0 in
  let l := (n / 20)%nat in
  apodization l0
  = Ok (rev (ramp (Z.of_nat l)) ++ repeat 1%R (n - 2 * l) ++ ramp (Z.of_nat l)).
Proof.
  intros H n l. unfold apodization.
  rewrite ramp_length_nat by lia. fold n. fold l.
  assert (Hl : (1 <= l)%nat).
  { unfold l. apply Nat.div_le_lower_bound; lia. }
  assert (Hl2 : (20 * l <= n)%nat).
  { unfold l. apply Nat.Div0.mul_div_le. }
  assert (Hr : List.length (ramp (Z.of_nat l)) = l).
  { unfold ramp, arange. rewrite !length_map, length_seq. apply Nat2Z.id. }
  unfold ones. destruct (Z.ltb_spec l0 0); [lia|]. cbn [rbind].
  rewrite setslice_prefix
    by (rewrite ?length_rev, ?repeat_length; fold n; lia).
  cbn [rbind].
  rewrite setslice_suffix
    by (rewrite ?length_app, ?length_rev, ?length_skipn, ?repeat_length;
        fold n; lia).
  f_equal.
  rewrite length_app, length_rev, length_skipn, repeat_length, Hr.
  fold n.
  replace (l + (n - l) - l)%nat with (l + (n - 2 * l))%nat by lia.
  rewrite skipn_repeat.
  rewrite <- Hr at 1. rewrite <- (length_rev (ramp (Z.of_nat l))).
  rewrite firstn_app_2, firstn_repeat by lia.
  now rewrite <- app_assoc.
Qed.

Lemma apodization_small (l0 : Z) :
  1 <= l0 <= 19 -> apodization l0 = Raise ValueError.
Proof.
  intros H. unfold apodization.
  rewrite ramp_length_nat by lia.
  replace (Z.to_nat l0 / 20)%nat with 0%nat
    by (symmetry; apply Nat.div_small; lia).
  unfold ones. destruct (Z.ltb_spec l0 0); [lia|]. cbn [rbind].
  rewrite setslice_prefix by (simpl; lia). cbn [rbind].
  apply setslice_suffix_0.
  destruct (Z.to_nat l0) eqn:E; [lia | discriminate].
Qed.

Lemma apodization_negative (l0 : Z) :
  l0 < 0 -> apodization l0 = Raise ValueError.
Proof.
  intros H. unfold apodization, ones.
  destruct (Z.ltb_spec l0 0); [reflexivity | lia].
Qed.

Lemma apodization_0 : apodization 0 = Ok [].
Proof. reflexivity. Qed.

(** C10. [smooth_ifg] needs a ramp of at least one sample, that is a
    window of at least 20 samples.  For a window of 1 to 19 samples the
    ramp is empty and its assignment to [a1[-0:]], the whole window, is
    refused: the apodization function is not built and nothing is
    returned.  For any window shorter than 20 samples the function
    raises. *)
Theorem smooth_ifg_needs_ramp (ifg : list R) (pkl : Z) (lwn cutoff : R)
  (l0 : Z) :
  (1 <= ramp_length l0 <-> 20 <= l0)
  /\ (1 <= l0 <= 19 ->
      ramp (ramp_length l0) = []
      /\ apodization l0 = Raise ValueError
      /\ smooth_ifg ifg pkl lwn cutoff l0 = Raise ValueError)
  /\ (l0 < 20 -> exists e, smooth_ifg ifg pkl lwn cutoff l0 = Raise e).
Proof.
  split; [|split].
  - unfold ramp_length. split; intros H.
    + destruct (Z.lt_ge_cases l0 20) as [Hlt|]; [|assumption].
      exfalso.
      assert (Z.quot (l0 * 5) 100 <= 0); [|lia].
      destruct (Z.le_gt_cases 0 l0).
      * rewrite Z.quot_small; lia.
      * apply Z.quot_le_upper_bound; lia.
    + apply Z.quot_le_lower_bound; lia.
  - intros H.
    assert (Hl : ramp_length l0 = 0).
    { unfold ramp_length. apply Z.quot_small. lia. }
    split; [now rewrite Hl|].
    split; [now apply apodization_small|].
    unfold smooth_ifg. now rewrite apodization_small.
  - intros H.
    destruct (Z.lt_ge_cases l0 0) as [Hneg|Hpos].
    + exists ValueError. unfold smooth_ifg.
      now rewrite apodization_negative.
    + destruct (Z.eq_dec l0 0) as [->|Hnz].
      * exists ValueError. unfold smooth_ifg, crop.
        rewrite apodization_0. cbn [rbind].
        rewrite Z.sub_0_r, Z.add_0_r, slice_empty. reflexivity.
      * exists ValueError. unfold smooth_ifg.
        now rewrite apodization_small by lia.
Qed.

Lemma smooth_ifg_needs_ramp_witness :
  (1 <= ramp_length 10 <-> 20 <= 10)
  /\ (ramp (ramp_length 10) = []
      /\ apodization 10 = Raise ValueError
      /\ smooth_ifg (repeat 0%R 10) 5 15798.022 3700 10 = Raise ValueError)
  /\ (exists e, smooth_ifg (repeat 0%R 10) 5 15798.022 3700 10 = Raise e).
Proof.
  destruct (smooth_ifg_needs_ramp (repeat 0%R 10) 5 15798.022 3700 10)
    as [H1 [H2 H3]].
  split; [exact H1 | split; [apply H2; lia | apply H3; lia]].
Defined.

Lemma nth_map_lt {A B} (f : A -> B) (xs : list A) (k : nat) (d : B) (d' : A) :
  (k < List.length xs)%nat -> nth k (map f xs) d = f (nth k xs d').
Proof.
  revert k. induction xs as [|x r IH]; intros [|k] H; simpl in *;
    try lia; auto. apply IH. lia.
Qed.

Lemma ramp_nth (l k : nat) :
  (k < l)%nat -> nth k (ramp (Z.of_nat l)) 0%R = ramp_value l k.
Proof.
  intros H. unfold ramp, arange, ramp_value.
  rewrite (nth_map_lt _ _ _ _ 0%R)
    by (rewrite length_map, length_seq, Nat2Z.id; lia).
  rewrite (nth_map_lt _ _ _ _ 0%nat) by (rewrite length_seq, Nat2Z.id; lia).
  rewrite seq_nth by (rewrite Nat2Z.id; lia).
  now rewrite <- INR_IZR_INZ.
Qed.

Lemma ramp_length_of_nat (l : nat) : List.length (ramp (Z.of_nat l)) = l.
Proof.
  unfold ramp, arange. rewrite !length_map, length_seq. apply Nat2Z.id.
Qed.

(** The last value of the ramp, which the reversal puts at [a1[0]]. *)
Lemma ramp_value_last (l : nat) :
  (1 <= l)%nat ->
  ramp_value l (l - 1) = (sin (PI / (2 * INR l)) ^ 4)%R
  /\ (0 <= ramp_value l (l - 1) <= (PI / (2 * INR l)) ^ 4)%R.
Proof.
  intros H.
  assert (Hl : (1 <= INR l)%R) by (change 1%R with (INR 1); now apply le_INR).
  set (x := (PI / (2 * INR l))%R).
  assert (Hx : (0 < x)%R).
  { unfold x. apply Rdiv_lt_0_compat; [apply PI_RGT_0 | lra]. }
  assert (Hxpi : (x <= PI)%R).
  { unfold x. pose proof PI_RGT_0.
    apply Rle_trans with (PI / 1)%R; [|lra].
    unfold Rdiv. apply Rmult_le_compat_l; [lra|].
    apply Rinv_le_contravar; lra. }
  assert (E : ramp_value l (l - 1) = (sin x ^ 4)%R).
  { unfold ramp_value. rewrite minus_INR by lia. simpl INR.
    replace (PI * (INR l - 1) / INR l)%R with (- (2 * x) + PI)%R
      by (unfold x; field; lra).
    rewrite neg_cos, cos_neg, cos_2a_sin. field. }
  split; [exact E|]. rewrite E.
  assert (Hs0 : (0 <= sin x)%R) by (apply sin_ge_0; lra).
  assert (Hsx : (sin x < x)%R) by (now apply sin_lt_x).
  split.
  - apply pow_le. exact Hs0.
  - apply pow_incr. lra.
Qed.

(** C8, as the code has it.  For a window of at least 20 samples the
    apodization function has the length of the window; it is 1 between the
    ramps, in particular at the middle sample; its first [l] samples are
    the raised-cosine ramp in reverse and its last [l] samples the ramp
    itself, [l] being a twentieth of the window length.  Its first sample
    is [sin(pi/(2l))^4], between 0 and [(pi/(2l))^4]: near 0 for a long
    ramp only. *)
Theorem apodization_shape (l0 : Z) :
  20 <= l0 ->
  let n := Z.to_nat l0 in
  let l := (n / 20)%nat in
  exists w,
    apodization l0 = Ok w
    /\ List.length w = n
    /\ (forall i, (l <= i < n - l)%nat -> nth i w 0%R = 1%R)
    /\ nth (n / 2) w 0%R = 1%R
    /\ (forall k, (k < l)%nat -> nth k w 0%R = ramp_value l (l - 1 - k))
    /\ (forall k, (k < l)%nat -> nth (n - l + k) w 0%R = ramp_value l k)
    /\ nth 0 w 0%R = (sin (PI / (2 * INR l)) ^ 4)%R
    /\ (0 <= nth 0 w 0%R <= (PI / (2 * INR l)) ^ 4)%R.
Proof.
  intros H n l.
  assert (Hl : (1 <= l)%nat).
  { unfold l. apply Nat.div_le_lower_bound; lia. }
  assert (Hl2 : (20 * l <= n)%nat).
  { unfold l. apply Nat.Div0.mul_div_le. }
  assert (Hn2 : (l <= n / 2 < n - l)%nat).
  { split.
    - apply Nat.div_le_lower_bound; lia.
    - apply Nat.Div0.div_lt_upper_bound. lia. }
  pose proof (ramp_length_of_nat l) as Hr.
  eexists. split; [apply apodization_ok; exact H|]. fold n. fold l.
  assert (Hmid : forall i, (l <= i < n - l)%nat ->
            nth i (rev (ramp (Z.of_nat l)) ++ repeat 1%R (n - 2 * l)
                   ++ ramp (Z.of_nat l)) 0%R = 1%R).
  { intros i Hi.
    rewrite app_nth2 by (rewrite length_rev; lia).
    rewrite app_nth1 by (rewrite length_rev, repeat_length; lia).
    apply nth_repeat_lt. rewrite length_rev. lia. }
  assert (Hlead : forall k, (k < l)%nat ->
            nth k (rev (ramp (Z.of_nat l)) ++ repeat 1%R (n - 2 * l)
                   ++ ramp (Z.of_nat l)) 0%R = ramp_value l (l - 1 - k)).
  { intros k Hk.
    rewrite app_nth1 by (rewrite length_rev; lia).
    rewrite rev_nth by lia. rewrite Hr.
    replace (l - S k)%nat with (l - 1 - k)%nat by lia.
    apply ramp_nth. lia. }
  split; [|split; [exact Hmid | split; [now apply Hmid | split;
            [exact Hlead | split; [|split]]]]].
  - rewrite !length_app, length_rev, repeat_length, Hr. lia.
  - intros k Hk.
    rewrite app_nth2 by (rewrite length_rev; lia).
    rewrite app_nth2 by (rewrite length_rev, repeat_length; lia).
    rewrite length_rev, repeat_length, Hr.
    replace (n - l + k - l - (n - 2 * l))%nat with k by lia.
    now apply ramp_nth.
  - rewrite Hlead by lia. rewrite Nat.sub_0_r.
    now apply ramp_value_last.
  - rewrite Hlead by lia. rewrite Nat.sub_0_r.
    now apply ramp_value_last.
Qed.

Lemma apodization_shape_witness :
  let n := Z.to_nat 4000 in
  let l := (n / 20)%nat in
  exists w,
    apodization 4000 = Ok w
    /\ List.length w = n
    /\ (forall i, (l <= i < n - l)%nat -> nth i w 0%R = 1%R)
    /\ nth (n / 2) w 0%R = 1%R
    /\ (forall k, (k < l)%nat -> nth k w 0%R = ramp_value l (l - 1 - k))
    /\ (forall k, (k < l)%nat -> nth (n - l + k) w 0%R = ramp_value l k)
    /\ nth 0 w 0%R = (sin (PI / (2 * INR l)) ^ 4)%R
    /\ (0 <= nth 0 w 0%R <= (PI / (2 * INR l)) ^ 4)%R.
Proof.
  apply (apodization_shape 4000). lia.
Defined.

Lemma apodization_20 : apodization 20 = Ok (repeat 1%R 20).
Proof.
  rewrite apodization_ok by lia.
  change (Z.to_nat 20 / 20)%nat with 1%nat.
  change (Z.to_nat 20 - 2 * 1)%nat with 18%nat.
  assert (E : ramp (Z.of_nat 1) = [1%R]).
  { unfold ramp, arange. simpl.
    replace (PI * 0 / 1)%R with 0%R by field.
    rewrite cos_0. f_equal. field. }
  rewrite E. reflexivity.
Qed.

(** C8, as stated, fails: with 20 samples the ramp has one sample, of value
    1, so the window is 1 throughout and its first sample is 1, not a value
    near 0. *)
Lemma apodization_20_flat :
  apodization 20 = Ok (repeat 1%R 20)
  /\ nth 0 (repeat 1%R 20) 0%R = 1%R.
Proof.
  split; [exact apodization_20 | reflexivity].
Qed.

(** ** The wavenumber axis *)

Lemma half : (0.5 = 1 / 2)%R.
Proof. lra. Qed.

Lemma wvn_value_eq (n : nat) (lwn : R) (k : nat) :
  (1 <= n)%nat -> lwn <> 0%R ->
  wvn_value n lwn k = (2 * lwn * INR k / INR n)%R.
Proof.
  intros Hn Hl. unfold wvn_value.
  assert (INR n <> 0%R) by (apply not_0_INR; lia).
  rewrite half. field. split; assumption.
Qed.

Lemma firstn_seq_le (k s m : nat) :
  (k <= m)%nat -> firstn k (seq s m) = seq s k.
Proof.
  revert s m. induction k as [|k IH]; intros s m H; [reflexivity|].
  destruct m as [|m]; [lia|].
  cbn [seq firstn]. f_equal. apply IH. lia.
Qed.

Lemma wavenumbers_ok (n : nat) (lwn : R) :
  (1 <= n)%nat -> lwn <> 0%R ->
  wavenumbers n lwn = Ok (map (wvn_value n lwn) (seq 0 (n / 2))).
Proof.
  intros Hn Hl. unfold wavenumbers, fftfreq.
  destruct (Req_dec_T lwn 0) as [E|_]; [contradiction|].
  assert (Hn0 : INR n <> 0%R) by (apply not_0_INR; lia).
  destruct (Req_dec_T (INR n * (0.5 / lwn)) 0) as [E|_].
  { exfalso. apply Rmult_integral in E. destruct E as [E|E]; [auto|].
    unfold Rdiv in E. apply Rmult_integral in E. destruct E as [E|E]; [lra|].
    now apply Rinv_neq_0_compat in E. }
  cbn [rbind]. f_equal.
  change 2 with (Z.of_nat 2). rewrite <- (Nat2Z.inj_div n 2), slice_prefix.
  rewrite firstn_map, firstn_app, length_map, length_seq.
  replace (n / 2 - ((n - 1) / 2 + 1))%nat with 0%nat.
  2:{ symmetry. apply Nat.sub_0_le.
      assert (n / 2 <= (n - 1) / 2 + 1)%nat; [|assumption].
      pose proof (Nat.div_mod_eq n 2). pose proof (Nat.div_mod_eq (n - 1) 2).
      pose proof (Nat.mod_upper_bound n 2). 
      pose proof (Nat.mod_upper_bound (n - 1) 2). lia. }
  cbn [firstn]. rewrite app_nil_r, firstn_map, firstn_seq_le.
  2:{ pose proof (Nat.div_mod_eq n 2). pose proof (Nat.div_mod_eq (n - 1) 2).
      pose proof (Nat.mod_upper_bound n 2).
      pose proof (Nat.mod_upper_bound (n - 1) 2). lia. }
  rewrite map_map. apply map_ext. intros k. unfold wvn_value.
  now rewrite <- INR_IZR_INZ.
Qed.

(** ** The cut-off index *)

Lemma Rltb_true (x y : R) : (x < y)%R -> Rltb x y = true.
Proof. intros H. unfold Rltb. now destruct (Rlt_dec x y). Qed.

Lemma Rltb_false (x y : R) : (y <= x)%R -> Rltb x y = false.
Proof. intros H. unfold Rltb. destruct (Rlt_dec x y); [lra | reflexivity]. Qed.

Lemma cutoff_index_le (wvn : list R) (cutoff : R) :
  (cutoff_index wvn cutoff <= List.length wvn)%nat.
Proof. unfold cutoff_index. apply filter_length_le. Qed.

Lemma cutoff_index_all (wvn : list R) (cutoff : R) :
  (forall nu, In nu wvn -> (nu < cutoff)%R) ->
  cutoff_index wvn cutoff = List.length wvn.
Proof.
  intros H. unfold cutoff_index. f_equal.
  apply forallb_filter_id. apply forallb_forall.
  intros nu Hin. apply Rltb_true. now apply H.
Qed.

Lemma cutoff_index_none (wvn : list R) (cutoff : R) :
  (forall nu, In nu wvn -> (cutoff <= nu)%R) ->
  cutoff_index wvn cutoff = 0%nat.
Proof.
  intros H. unfold cutoff_index.
  induction wvn as [|nu r IH]; [reflexivity|].
  cbn [filter]. rewrite Rltb_false by (apply H; now left).
  apply IH. intros x Hx. apply H. now right.
Qed.

Lemma cutoff_index_pos (nu : R) (r : list R) (cutoff : R) :
  (nu < cutoff)%R -> (1 <= cutoff_index (nu :: r) cutoff)%nat.
Proof.
  intros H. unfold cutoff_index. cbn [filter].
  rewrite Rltb_true by assumption. simpl. lia.
Qed.

Lemma wvn_value_bounds (n : nat) (lwn : R) (k : nat) :
  (1 <= n)%nat -> (0 < lwn)%R -> (k < n / 2)%nat ->
  (0 <= wvn_value n lwn k < lwn)%R.
Proof.
  intros Hn Hl Hk.
  rewrite wvn_value_eq by (try lia; lra).
  assert (Hn0 : (0 < INR n)%R) by (apply lt_0_INR; lia).
  assert (Hk0 : (0 <= INR k)%R) by apply pos_INR.
  assert (H2k : (2 * INR k < INR n)%R).
  { change 2%R with (INR 2). rewrite <- mult_INR. apply lt_INR.
    pose proof (Nat.div_mod_eq n 2). lia. }
  split.
  - apply Rmult_le_pos; [|left; now apply Rinv_0_lt_compat].
    apply Rmult_le_pos; lra.
  - apply Rmult_lt_reg_r with (INR n); [assumption|].
    unfold Rdiv. rewrite Rmult_assoc, Rinv_l by lra. nra.
Qed.

Lemma in_wvn (n : nat) (lwn nu : R) :
  In nu (map (wvn_value n lwn) (seq 0 (n / 2))) ->
  exists k, (k < n / 2)%nat /\ nu = wvn_value n lwn k.
Proof.
  intros H. apply in_map_iff in H. destruct H as [k [E Hk]].
  apply in_seq in Hk. exists k. split; [lia | now symmetry].
Qed.

(** ** The filter window *)

Lemma Cmul_1_0 : Cmul (of_real 1) C0 = C0.
Proof. unfold Cmul, of_real, C0. simpl. f_equal; ring. Qed.

Lemma Cmul_0_l (z : C) : Cmul C0 z = C0.
Proof. unfold Cmul, C0. simpl. f_equal; ring. Qed.

Lemma filter_window_ok (n : nat) (wvn : list R) (cutoff : R) :
  let l := cutoff_index wvn cutoff in
  (1 <= l)%nat -> (2 * List.length wvn <= n)%nat ->
  filter_window n wvn cutoff
  = Ok (map of_real (map (sfunc cutoff) (firstn l wvn))
        ++ repeat C0 (n - 2 * l)
        ++ map of_real (map (sfunc cutoff) (rev (firstn l wvn)))).
Proof.
  intros l Hl Hn.
  pose proof (cutoff_index_le wvn cutoff) as Hle. fold l in Hle.
  unfold filter_window. fold l.
  rewrite map_repeat, Cmul_1_0, slice_prefix.
  assert (Hh : List.length (firstn l wvn) = l)
    by (rewrite length_firstn; lia).
  rewrite setslice_prefix
    by (rewrite ?length_map, ?repeat_length; lia).
  cbn [rbind].
  rewrite setslice_suffix
    by (rewrite ?length_app, ?length_map, ?length_rev, ?length_skipn,
          ?repeat_length; lia).
  f_equal.
  rewrite length_app, !length_map, length_skipn, repeat_length, Hh.
  rewrite skipn_repeat.
  replace (l + (n - l) - l)%nat with (l + (n - 2 * l))%nat by lia.
  rewrite <- Hh at 1.
  rewrite <- (length_map (sfunc cutoff) (firstn l wvn)).
  rewrite <- (length_map of_real (map (sfunc cutoff) (firstn l wvn))).
  rewrite firstn_app_2, firstn_repeat by lia.
  now rewrite <- app_assoc.
Qed.

Lemma filter_window_none (n : nat) (wvn : list R) (cutoff : R) :
  cutoff_index wvn cutoff = 0%nat -> (1 <= n)%nat ->
  filter_window n wvn cutoff = Raise ValueError.
Proof.
  intros Hl Hn. unfold filter_window. rewrite Hl.
  rewrite slice_prefix. cbn [firstn map rev].
  rewrite setslice_prefix by (simpl; lia). cbn [rbind app skipn].
  apply setslice_suffix_0.
  destruct n; [lia | discriminate].
Qed.

Lemma nth_zip_with {A B D} (f : A -> B -> D) (a : list A) (b : list B)
  (i : nat) (da : A) (db : B) (dd : D) :
  (i < List.length a)%nat -> (i < List.length b)%nat ->
  nth i (zip_with f a b) dd = f (nth i a da) (nth i b db).
Proof.
  revert b i. induction a as [|x a IH]; intros [|y b] i Ha Hb;
    simpl in *; try lia.
  destruct i; [reflexivity|]. apply IH; lia.
Qed.

Lemma length_zip_with {A B D} (f : A -> B -> D) (a : list A) (b : list B) :
  List.length a = List.length b ->
  List.length (zip_with f a b) = List.length a.
Proof.
  revert b. induction a as [|x a IH]; intros [|y b] H; simpl in *;
    try lia. f_equal. apply IH. lia.
Qed.

Lemma mul_same_length {A} (f : A -> A -> A) (a b : list A) :
  List.length a = List.length b -> mul f a b = Ok (zip_with f a b).
Proof. intros H. unfold mul. now rewrite H, Nat.eqb_refl. Qed.

Lemma mul_Raise {A} (f : A -> A -> A) (a b : list A) (e : exn) :
  mul f a b = Raise e -> e = ValueError.
Proof.
  unfold mul. destruct (Nat.eqb (List.length a) (List.length b));
    [discriminate|].
  destruct a as [|x [|x' a]]; destruct b as [|y [|y' b]];
    try discriminate; congruence.
Qed.

Lemma mul_length {A} (f : A -> A -> A) (a b c : list A) :
  mul f a b = Ok c -> (2 <= List.length b)%nat ->
  List.length c = List.length b.
Proof.
  unfold mul.
  destruct (Nat.eqb_spec (List.length a) (List.length b)) as [E|N].
  - intros [= <-] _. now rewrite length_zip_with.
  - destruct a as [|x [|x' a]]; destruct b as [|y [|y' b]];
      try discriminate; simpl; try lia.
    + intros [= <-] _. simpl. now rewrite length_map.
Qed.

Lemma length_dft (sign : R) (x : list C) :
  List.length (dft sign x) = List.length x.
Proof. unfold dft. now rewrite length_map, length_seq. Qed.

Lemma fft_ok (x : list C) :
  (1 <= List.length x)%nat -> fft x = Ok (dft (-1) x).
Proof. destruct x; simpl; [lia | reflexivity]. Qed.

Lemma ifft_ok (y : list C) :
  (1 <= List.length y)%nat ->
  ifft y = Ok (map (Cscale (/ INR (List.length y))) (dft 1 y)).
Proof. destruct y; simpl; [lia | reflexivity]. Qed.

Lemma length_wavenumber_axis (n : nat) (lwn : R) :
  List.length (wavenumber_axis n lwn) = (n / 2)%nat.
Proof. unfold wavenumber_axis. now rewrite length_map, length_seq. Qed.

Lemma two_half_le (n : nat) : (2 * (n / 2) <= n)%nat.
Proof. pose proof (Nat.div_mod_eq n 2). lia. Qed.

Lemma length_filter_window (n : nat) (wvn : list R) (cutoff : R)
  (a2 : list C) :
  (1 <= cutoff_index wvn cutoff)%nat -> (2 * List.length wvn <= n)%nat ->
  filter_window n wvn cutoff = Ok a2 -> List.length a2 = n.
Proof.
  intros Hl Hn. rewrite filter_window_ok by assumption. intros [= <-].
  pose proof (cutoff_index_le wvn cutoff).
  rewrite !length_app, !length_map, length_rev, repeat_length, length_firstn.
  lia.
Qed.

Lemma apodization_length (l0 : Z) :
  20 <= l0 ->
  exists w, apodization l0 = Ok w /\ List.length w = Z.to_nat l0.
Proof.
  intros H. eexists. split; [now apply apodization_ok|].
  assert (20 * (Z.to_nat l0 / 20) <= Z.to_nat l0)%nat
    by apply Nat.Div0.mul_div_le.
  rewrite !length_app, length_rev, repeat_length, ramp_length_of_nat. lia.
Qed.

(** A run of [smooth_ifg] that goes through: a window of at least 20
    samples that the interferogram covers, a laser wavenumber other than
    0 and at least one wavenumber below the cut-off. *)
Lemma smooth_ifg_run (ifg : list R) (pkl : Z) (lwn cutoff : R) (l0 : Z) :
  let n := Z.to_nat l0 in
  20 <= l0 ->
  List.length (crop ifg pkl l0) = n ->
  lwn <> 0%R ->
  (1 <= cutoff_index (wavenumber_axis n lwn) cutoff)%nat ->
  exists w a2,
    apodization l0 = Ok w
    /\ List.length w = n
    /\ filter_window n (wavenumber_axis n lwn) cutoff = Ok a2
    /\ List.length a2 = n
    /\ smooth_ifg ifg pkl lwn cutoff l0
       = Ok {| ifg_s :=
                 map fst
                   (map (Cscale (/ INR n))
                      (dft 1 (zip_with Cmul a2
                                (spectrum (apodized ifg pkl l0 w)))));
               ys := zip_with Cmul a2 (spectrum (apodized ifg pkl l0 w));
               a1 := w;
               wvn := wavenumber_axis n lwn |}.
Proof.
  intros n Hl0 Hcrop Hlwn Hidx.
  destruct (apodization_length l0 Hl0) as [w [Hw Hlen]]. fold n in Hlen.
  assert (Hn : (20 <= n)%nat) by (unfold n; lia).
  assert (H2 : (2 * List.length (wavenumber_axis n lwn) <= n)%nat).
  { rewrite length_wavenumber_axis. apply two_half_le. }
  destruct (filter_window n (wavenumber_axis n lwn) cutoff) as [a2|e] eqn:Hf.
  2:{ rewrite filter_window_ok in Hf by assumption. discriminate. }
  pose proof (length_filter_window _ _ _ _ Hidx H2 Hf) as Hlen2.
  exists w, a2. repeat split; try assumption.
  assert (Hifga : List.length (apodized ifg pkl l0 w) = n).
  { unfold apodized. rewrite length_zip_with; rewrite length_map; lia. }
  assert (Hspc : List.length (spectrum (apodized ifg pkl l0 w)) = n).
  { unfold spectrum. now rewrite length_dft, length_map. }
  unfold smooth_ifg. rewrite Hw. cbn [rbind].
  rewrite mul_same_length by (rewrite length_map; lia). cbn [rbind].
  fold (apodized ifg pkl l0 w).
  rewrite fft_ok by (rewrite length_map; lia). cbn [rbind].
  fold (spectrum (apodized ifg pkl l0 w)). rewrite Hspc.
  rewrite wavenumbers_ok by (try lia; assumption). cbn [rbind].
  fold (wavenumber_axis n lwn). rewrite Hf. cbn [rbind].
  rewrite mul_same_length by lia. cbn [rbind].
  rewrite ifft_ok by (rewrite length_zip_with; lia). cbn [rbind].
  rewrite length_zip_with by lia. rewrite Hlen2. reflexivity.
Qed.

(** ** The shape of the filter window *)

Lemma nth_wavenumber_axis (n : nat) (lwn : R) (k : nat) :
  (k < n / 2)%nat -> nth k (wavenumber_axis n lwn) 0%R = wvn_value n lwn k.
Proof.
  intros H. unfold wavenumber_axis.
  rewrite (nth_map_lt _ _ _ _ 0%nat) by (now rewrite length_seq).
  now rewrite seq_nth.
Qed.

(** C1, as the code has it.  When at least one wavenumber lies below the
    cut-off, the window has the length of the spectrum; its first [l] bins
    hold [cos(pi*nu/(2*cutoff))^2] for the wavenumbers in ascending order
    and its last [l] bins the same values in reverse order, [l] being the
    number of wavenumbers below the cut-off; every bin in between holds 0,
    so that the filtered spectrum is 0 there. *)
Theorem filter_window_shape (n : nat) (lwn cutoff : R) :
  let l := cutoff_index (wavenumber_axis n lwn) cutoff in
  (1 <= n)%nat ->
  lwn <> 0%R ->
  (1 <= l)%nat ->
  wavenumbers n lwn = Ok (wavenumber_axis n lwn)
  /\ (2 * l <= n)%nat
  /\ exists a2,
       filter_window n (wavenumber_axis n lwn) cutoff = Ok a2
       /\ List.length a2 = n
       /\ (forall i, (i < l)%nat ->
             nth i a2 C0 = of_real (sfunc cutoff (wvn_value n lwn i)))
       /\ (forall i, (i < l)%nat ->
             nth (n - 1 - i) a2 C0
             = of_real (sfunc cutoff (wvn_value n lwn i)))
       /\ (forall i, (l <= i < n - l)%nat -> nth i a2 C0 = C0)
       /\ (forall spc i,
             List.length spc = n -> (l <= i < n - l)%nat ->
             exists ys, mul Cmul a2 spc = Ok ys /\ nth i ys C0 = C0).
Proof.
  intros l Hn Hlwn Hl.
  pose proof (cutoff_index_le (wavenumber_axis n lwn) cutoff) as Hle.
  fold l in Hle. rewrite length_wavenumber_axis in Hle.
  pose proof (two_half_le n) as H2.
  assert (Hw : (2 * List.length (wavenumber_axis n lwn) <= n)%nat)
    by (now rewrite length_wavenumber_axis).
  split; [now apply wavenumbers_ok|]. split; [lia|].
  eexists. split; [now apply filter_window_ok|]. fold l.
  set (head := firstn l (wavenumber_axis n lwn)).
  assert (Hh : List.length head = l).
  { unfold head. rewrite length_firstn, length_wavenumber_axis. lia. }
  assert (Hnth : forall i, (i < l)%nat -> nth i head 0%R = wvn_value n lwn i).
  { intros i Hi. unfold head. rewrite nth_firstn.
    destruct (Nat.ltb_spec i l); [|lia].
    apply nth_wavenumber_axis. lia. }
  set (v1 := map of_real (map (sfunc cutoff) head)).
  set (v2 := map of_real (map (sfunc cutoff) (rev head))).
  assert (Hv1 : List.length v1 = l) by (unfold v1; now rewrite !length_map).
  assert (Hv2 : List.length v2 = l)
    by (unfold v2; now rewrite !length_map, length_rev).
  assert (Hlen : List.length (v1 ++ repeat C0 (n - 2 * l) ++ v2) = n).
  { rewrite !length_app, repeat_length. lia. }
  assert (Hmid : forall i, (l <= i < n - l)%nat ->
            nth i (v1 ++ repeat C0 (n - 2 * l) ++ v2) C0 = C0).
  { intros i Hi. rewrite app_nth2 by lia.
    rewrite app_nth1 by (rewrite repeat_length; lia).
    apply nth_repeat_lt. lia. }
  split; [exact Hlen|]. split; [|split; [|split; [exact Hmid|]]].
  - intros i Hi. rewrite app_nth1 by lia. unfold v1.
    rewrite (nth_map_lt _ _ _ _ 0%R) by (rewrite length_map; lia).
    rewrite (nth_map_lt _ _ _ _ 0%R) by lia.
    now rewrite Hnth.
  - intros i Hi. rewrite app_nth2 by lia.
    rewrite app_nth2 by (rewrite repeat_length; lia).
    rewrite repeat_length. unfold v2.
    rewrite (nth_map_lt _ _ _ _ 0%R)
      by (rewrite length_map, length_rev; lia).
    rewrite (nth_map_lt _ _ _ _ 0%R) by (rewrite length_rev; lia).
    rewrite rev_nth by lia. rewrite Hh, Hv1.
    replace (l - S (n - 1 - i - l - (n - 2 * l)))%nat with i by lia.
    now rewrite Hnth.
  - intros spc i Hspc Hi. eexists.
    split; [apply mul_same_length; lia|].
    rewrite (nth_zip_with _ _ _ _ C0 C0) by lia.
    rewrite Hmid by assumption. apply Cmul_0_l.
Qed.

Lemma cutoff_index_20_10_2 : cutoff_index (wavenumber_axis 20 10) 2 = 2%nat.
Proof.
  unfold cutoff_index, wavenumber_axis.
  change (20 / 2)%nat with 10%nat. cbn [seq map filter].
  rewrite !wvn_value_eq by (lia || lra).
  rewrite !INR_IZR_INZ. cbn [Z.of_nat Pos.of_succ_nat Pos.succ].
  repeat match goal with
         | |- context [Rltb ?x ?y] =>
             first [ rewrite (Rltb_true x y) by lra
                   | rewrite (Rltb_false x y) by lra ]
         end.
  reflexivity.
Qed.

Lemma filter_window_shape_witness :
  let l := cutoff_index (wavenumber_axis 20 10) 2 in
  wavenumbers 20 10 = Ok (wavenumber_axis 20 10)
  /\ (2 * l <= 20)%nat
  /\ exists a2,
       filter_window 20 (wavenumber_axis 20 10) 2 = Ok a2
       /\ List.length a2 = 20%nat
       /\ (forall i, (i < l)%nat ->
             nth i a2 C0 = of_real (sfunc 2 (wvn_value 20 10 i)))
       /\ (forall i, (i < l)%nat ->
             nth (20 - 1 - i) a2 C0 = of_real (sfunc 2 (wvn_value 20 10 i)))
       /\ (forall i, (l <= i < 20 - l)%nat -> nth i a2 C0 = C0)
       /\ (forall spc i,
             List.length spc = 20%nat -> (l <= i < 20 - l)%nat ->
             exists ys, mul Cmul a2 spc = Ok ys /\ nth i ys C0 = C0).
Proof.
  apply (filter_window_shape 20 10 2).
  - lia.
  - lra.
  - rewrite cutoff_index_20_10_2. lia.
Defined.

(** C1, as stated, fails: for 20 samples, a laser wavenumber of 10 and a
    cut-off of 2 there are two bins below the cut-off, and bin 10, in the
    middle, holds 0 and not 1; a spectrum that is 1 there is 0 there after
    the filter. *)
Lemma filter_window_middle_is_zero :
  exists a2 ys,
    wavenumbers 20 10 = Ok (wavenumber_axis 20 10)
    /\ cutoff_index (wavenumber_axis 20 10) 2 = 2%nat
    /\ filter_window 20 (wavenumber_axis 20 10) 2 = Ok a2
    /\ nth 10 a2 C1 = C0
    /\ mul Cmul a2 (repeat C1 20) = Ok ys
    /\ nth 10 ys C1 = C0
    /\ C0 <> C1.
Proof.
  eexists _, _.
  split; [apply wavenumbers_ok; [lia | lra]|].
  split; [exact cutoff_index_20_10_2|].
  split.
  { apply filter_window_ok.
    - rewrite cutoff_index_20_10_2. lia.
    - rewrite length_wavenumber_axis. simpl. lia. }
  rewrite cutoff_index_20_10_2.
  split; [reflexivity|].
  split.
  { apply mul_same_length. unfold wavenumber_axis. reflexivity. }
  split.
  - unfold wavenumber_axis. cbn. unfold Cmul, C0, C1. cbn. f_equal; ring.
  - unfold C0, C1. intros [= H]. lra.
Qed.

(** ** A cut-off above or below every wavenumber *)

Lemma filter_window_nth_low (n : nat) (lwn cutoff : R) (i : nat) :
  (i < cutoff_index (wavenumber_axis n lwn) cutoff)%nat ->
  exists a2,
    filter_window n (wavenumber_axis n lwn) cutoff = Ok a2
    /\ List.length a2 = n
    /\ nth i a2 C0 = of_real (sfunc cutoff (wvn_value n lwn i)).
Proof.
  intros Hi.
  set (l := cutoff_index (wavenumber_axis n lwn) cutoff) in *.
  pose proof (cutoff_index_le (wavenumber_axis n lwn) cutoff) as Hle.
  fold l in Hle. rewrite length_wavenumber_axis in Hle.
  pose proof (two_half_le n) as H2.
  assert (Hw : (2 * List.length (wavenumber_axis n lwn) <= n)%nat)
    by (now rewrite length_wavenumber_axis).
  assert (Hl : (1 <= l)%nat) by lia.
  eexists. split; [now apply filter_window_ok|]. fold l.
  assert (Hh : List.length (firstn l (wavenumber_axis n lwn)) = l).
  { rewrite length_firstn, length_wavenumber_axis. lia. }
  split.
  - rewrite !length_app, !length_map, length_rev, repeat_length, Hh. lia.
  - rewrite app_nth1 by (rewrite !length_map; lia).
    rewrite (nth_map_lt _ _ _ _ 0%R) by (rewrite length_map; lia).
    rewrite (nth_map_lt _ _ _ _ 0%R) by lia.
    rewrite nth_firstn. destruct (Nat.ltb_spec i l); [|lia].
    rewrite nth_wavenumber_axis by lia. reflexivity.
Qed.

Lemma sfunc_between (cutoff nu : R) :
  (0 < nu < cutoff)%R -> (0 < sfunc cutoff nu < 1)%R.
Proof.
  intros [Hnu Hc]. unfold sfunc.
  set (x := (PI * nu / (2 * cutoff))%R).
  pose proof PI_RGT_0 as Hpi.
  assert (Hx : (0 < x < PI / 2)%R).
  { unfold x. split.
    - apply Rdiv_lt_0_compat; [apply Rmult_lt_0_compat|]; lra.
    - apply Rmult_lt_reg_r with (2 * cutoff)%R; [lra|].
      unfold Rdiv at 1. rewrite Rmult_assoc, Rinv_l by lra. nra. }
  assert (H0 : (0 < cos x)%R) by (apply cos_gt_0; lra).
  assert (H1 : (cos x < 1)%R).
  { rewrite <- cos_0. apply cos_decreasing_1; lra. }
  nra.
Qed.

Lemma smooth_ifg_no_bin (ifg : list R) (pkl : Z) (lwn cutoff : R) (l0 : Z) :
  20 <= l0 ->
  lwn <> 0%R ->
  cutoff_index (wavenumber_axis (Z.to_nat l0) lwn) cutoff = 0%nat ->
  smooth_ifg ifg pkl lwn cutoff l0 = Raise ValueError.
Proof.
  intros Hl0 Hlwn Hidx.
  destruct (apodization_length l0 Hl0) as [w [Hw Hlen]].
  unfold smooth_ifg. rewrite Hw. cbn [rbind].
  destruct (mul Rmult
              (map (fun x => (x - median (crop ifg pkl l0))%R)
                 (crop ifg pkl l0)) w) as [ifga|e] eqn:Hmul.
  2:{ apply mul_Raise in Hmul. now subst e. }
  apply mul_length in Hmul; [|lia].
  cbn [rbind].
  rewrite fft_ok by (rewrite length_map; lia). cbn [rbind].
  rewrite length_dft, length_map, Hmul, Hlen.
  rewrite wavenumbers_ok by (try lia; assumption). cbn [rbind].
  fold (wavenumber_axis (Z.to_nat l0) lwn).
  rewrite filter_window_none by (try lia; assumption). reflexivity.
Qed.

(** C2, as the code has it.  For a window of at least 20 samples and a
    positive laser wavenumber [lwn], which is the Nyquist wavenumber of the
    axis: when the cut-off is [lwn] or more, every wavenumber of the axis
    is below it, so the cut-off index is half the window length, not 0;
    the window holds [cos(pi*nu/(2*cutoff))^2], a value strictly between 0
    and 1 at bin 1, so it is not the identity; and when the crop has as
    many samples as the window, what is returned is the real part of the
    inverse transform of the spectrum of the apodized crop times that
    window.  When the cut-off is 0 or less, the cut-off index is 0 and
    [smooth_ifg] raises [ValueError]. *)
Theorem cutoff_above_nyquist (ifg : list R) (pkl : Z) (lwn cutoff : R)
  (l0 : Z) :
  let n := Z.to_nat l0 in
  20 <= l0 ->
  (0 < lwn)%R ->
  ((lwn <= cutoff)%R ->
   cutoff_index (wavenumber_axis n lwn) cutoff = (n / 2)%nat
   /\ exists a2,
        filter_window n (wavenumber_axis n lwn) cutoff = Ok a2
        /\ nth 1 a2 C0 = of_real (sfunc cutoff (wvn_value n lwn 1))
        /\ (0 < sfunc cutoff (wvn_value n lwn 1) < 1)%R
        /\ (List.length (crop ifg pkl l0) = n ->
            exists s,
              smooth_ifg ifg pkl lwn cutoff l0 = Ok s
              /\ ys s = zip_with Cmul a2
                          (spectrum (apodized ifg pkl l0 (a1 s)))
              /\ ifg_s s
                 = map fst (map (Cscale (/ INR n)) (dft 1 (ys s)))))
  /\ ((cutoff <= 0)%R ->
      cutoff_index (wavenumber_axis n lwn) cutoff = 0%nat
      /\ smooth_ifg ifg pkl lwn cutoff l0 = Raise ValueError).
Proof.
  intros n Hl0 Hlwn.
  assert (Hn : (20 <= n)%nat) by (unfold n; lia).
  assert (Hhalf : (10 <= n / 2)%nat).
  { apply Nat.div_le_lower_bound; lia. }
  split.
  - intros Hc.
    assert (Hall : cutoff_index (wavenumber_axis n lwn) cutoff = (n / 2)%nat).
    { rewrite cutoff_index_all; [apply length_wavenumber_axis|].
      intros nu Hin. apply in_wvn in Hin. destruct Hin as [k [Hk ->]].
      assert (0 <= wvn_value n lwn k < lwn)%R
        by (apply wvn_value_bounds; lia || lra).
      lra. }
    split; [exact Hall|].
    destruct (filter_window_nth_low n lwn cutoff 1) as [a2 [Hf [Hlen Hnth]]];
      [rewrite Hall; lia|].
    exists a2. split; [exact Hf|]. split; [exact Hnth|].
    split.
    + apply sfunc_between.
      assert (H1 : (0 <= wvn_value n lwn 1 < lwn)%R)
        by (apply wvn_value_bounds; lia || lra).
      split; [|lra].
      rewrite wvn_value_eq by (lia || lra).
      assert (0 < INR n)%R by (apply lt_0_INR; lia).
      apply Rdiv_lt_0_compat; [|assumption]. simpl. lra.
    + intros Hcrop.
      destruct (smooth_ifg_run ifg pkl lwn cutoff l0 Hl0 Hcrop)
        as [w [a2' [Hw [Hwl [Hf' [Hl2 Hrun]]]]]];
        [lra | fold n; rewrite Hall; lia |].
      fold n in Hf', Hrun. rewrite Hf in Hf'. injection Hf' as <-.
      eexists. split; [exact Hrun|]. split; reflexivity.
  - intros Hc.
    assert (Hnone : cutoff_index (wavenumber_axis n lwn) cutoff = 0%nat).
    { apply cutoff_index_none.
      intros nu Hin. apply in_wvn in Hin. destruct Hin as [k [Hk ->]].
      assert (0 <= wvn_value n lwn k < lwn)%R
        by (apply wvn_value_bounds; lia || lra).
      lra. }
    split; [exact Hnone|].
    apply smooth_ifg_no_bin; [assumption | lra | exact Hnone].
Qed.

(** ** A run on a unit pulse *)

Lemma insert_zeros_0 (k : nat) :
  insert 0%R (repeat 0%R k) = repeat 0%R (S k).
Proof.
  destruct k; [reflexivity|]. cbn [repeat insert].
  unfold Rleb. destruct (Rle_dec 0 0); [reflexivity | lra].
Qed.

Lemma sort_zeros (k : nat) : sort (repeat 0%R k) = repeat 0%R k.
Proof.
  induction k as [|k IH]; [reflexivity|].
  cbn [repeat]. unfold sort in *. cbn [fold_right]. rewrite IH.
  apply insert_zeros_0.
Qed.

Lemma insert_1_zeros (k : nat) :
  insert 1%R (repeat 0%R k) = repeat 0%R k ++ [1%R].
Proof.
  induction k as [|k IH]; [reflexivity|].
  cbn [repeat insert app]. unfold Rleb.
  destruct (Rle_dec 1 0); [lra|]. now rewrite IH.
Qed.

Lemma median_delta20 : median delta20 = 0%R.
Proof.
  unfold median, delta20.
  assert (E : sort (1%R :: repeat 0%R 19) = repeat 0%R 19 ++ [1%R]).
  { unfold sort. cbn [fold_right].
    change (fold_right insert [] (repeat 0%R 19)) with (sort (repeat 0%R 19)).
    rewrite sort_zeros. apply insert_1_zeros. }
  rewrite E. cbn. lra.
Qed.

Lemma crop_delta20 : crop delta20 10 20 = delta20.
Proof. reflexivity. Qed.

Lemma map_sub_0 (l : list R) : map (fun x => (x - 0)%R) l = l.
Proof.
  induction l as [|x l IH]; [reflexivity|]. cbn [map].
  now rewrite IH, Rminus_0_r.
Qed.

Lemma zip_with_ones (l : list R) :
  zip_with Rmult l (repeat 1%R (List.length l)) = l.
Proof.
  induction l as [|x l IH]; [reflexivity|].
  cbn [zip_with repeat List.length]. now rewrite IH, Rmult_1_r.
Qed.

Lemma apodized_delta20 : apodized delta20 10 20 (repeat 1%R 20) = delta20.
Proof.
  unfold apodized. rewrite crop_delta20, median_delta20, map_sub_0.
  apply (zip_with_ones delta20).
Qed.

Lemma twiddle_0_l (sign : R) (n k : nat) : twiddle sign n 0 k = C1.
Proof.
  unfold twiddle, C1. simpl INR.
  replace (sign * 2 * PI * 0 * INR k / INR n)%R with 0%R
    by (unfold Rdiv; ring).
  now rewrite cos_0, sin_0.
Qed.

Lemma twiddle_0_r (sign : R) (n j : nat) : twiddle sign n j 0 = C1.
Proof.
  unfold twiddle, C1. simpl INR.
  replace (sign * 2 * PI * INR j * 0 / INR n)%R with 0%R
    by (unfold Rdiv; ring).
  now rewrite cos_0, sin_0.
Qed.

Lemma Cmul_1_r (z : C) : Cmul z C1 = z.
Proof.
  destruct z as [x y]. unfold Cmul, C1. simpl. f_equal; ring.
Qed.

Lemma Cadd_0_r (z : C) : Cadd z C0 = z.
Proof.
  destruct z as [x y]. unfold Cadd, C0. simpl. f_equal; ring.
Qed.

Lemma Csum_zeros (f : nat -> C) (s m : nat) :
  Csum (zip_with (fun j xj => Cmul xj (f j)) (seq s m) (repeat (of_real 0) m))
  = C0.
Proof.
  revert s. induction m as [|m IH]; intros s; [reflexivity|].
  cbn [seq repeat zip_with Csum fold_right].
  change (fold_right Cadd C0 ?l) with (Csum l). rewrite IH.
  unfold Cadd, Cmul, of_real, C0. simpl. f_equal; ring.
Qed.

Lemma map_const_seq {A} (c : A) (s n : nat) :
  map (fun _ => c) (seq s n) = repeat c n.
Proof.
  revert s. induction n as [|n IH]; intros s; [reflexivity|].
  cbn [seq map repeat]. now rewrite IH.
Qed.

(** The transform of a unit pulse at sample 0 is 1 at every bin. *)
Lemma dft_pulse (sign : R) (m : nat) :
  dft sign (of_real 1 :: repeat (of_real 0) m) = repeat C1 (S m).
Proof.
  unfold dft. cbn [List.length]. rewrite repeat_length.
  rewrite <- (map_const_seq C1 0 (S m)).
  apply map_ext. intros k.
  cbn [seq zip_with Csum fold_right].
  change (fold_right Cadd C0 ?l) with (Csum l).
  rewrite Csum_zeros, twiddle_0_l, Cadd_0_r.
  unfold Cmul, of_real, C1. simpl. f_equal; ring.
Qed.

Lemma spectrum_delta20 : spectrum delta20 = repeat C1 20.
Proof.
  unfold spectrum, delta20. cbn [map]. rewrite map_repeat.
  apply (dft_pulse (-1) 19).
Qed.

Lemma zip_with_Cmul_ones (a : list C) :
  zip_with Cmul a (repeat C1 (List.length a)) = a.
Proof.
  induction a as [|x a IH]; [reflexivity|].
  cbn [zip_with repeat List.length]. now rewrite IH, Cmul_1_r.
Qed.

(** Bin 0 of a transform is the sum of the samples. *)
Lemma Csum_twiddle_0 (sign : R) (n : nat) (y : list C) (s : nat) :
  Csum (zip_with (fun j yj => Cmul yj (twiddle sign n j 0))
          (seq s (List.length y)) y)
  = Csum y.
Proof.
  revert s. induction y as [|z y IH]; intros s; [reflexivity|].
  cbn [List.length seq zip_with Csum fold_right].
  change (fold_right Cadd C0 ?l) with (Csum l).
  now rewrite IH, twiddle_0_r, Cmul_1_r.
Qed.

Lemma dft_nth_0 (sign : R) (y : list C) :
  (1 <= List.length y)%nat -> nth 0 (dft sign y) C0 = Csum y.
Proof.
  intros H. unfold dft.
  destruct y as [|z y]; [simpl in H; lia|].
  cbn [List.length]. cbn [seq map nth].
  apply (Csum_twiddle_0 sign (S (List.length y)) (z :: y) 0).
Qed.

Lemma fst_Csum (l : list C) : fst (Csum l) = Rsum (map fst l).
Proof.
  induction l as [|z l IH]; [reflexivity|].
  unfold Csum, Rsum in *. simpl. now rewrite IH.
Qed.

Lemma Rsum_app (l1 l2 : list R) : Rsum (l1 ++ l2) = (Rsum l1 + Rsum l2)%R.
Proof.
  unfold Rsum. induction l1 as [|x l1 IH]; simpl.
  - ring.
  - rewrite IH. ring.
Qed.

Lemma Rsum_rev (l : list R) : Rsum (rev l) = Rsum l.
Proof.
  induction l as [|x l IH]; [reflexivity|].
  cbn [rev]. rewrite Rsum_app, IH. unfold Rsum. simpl. ring.
Qed.

Lemma map_fst_of_real (l : list R) : map fst (map of_real l) = l.
Proof.
  induction l as [|x l IH]; [reflexivity|]. cbn [map]. now rewrite IH.
Qed.

Lemma sfunc_le_1 (cutoff nu : R) : (sfunc cutoff nu <= 1)%R.
Proof.
  unfold sfunc. pose proof (COS_bound (PI * nu / (2 * cutoff))). nra.
Qed.

Lemma sfunc_le_half (cutoff nu : R) :
  (0 < cutoff)%R -> (cutoff / 2 <= nu <= 3 * cutoff / 2)%R ->
  (sfunc cutoff nu <= 1 / 2)%R.
Proof.
  intros Hc [Hlo Hhi]. unfold sfunc.
  set (x := (PI * nu / (2 * cutoff))%R).
  pose proof PI_RGT_0 as Hpi.
  assert (E : (2 * x = PI * (nu / cutoff))%R) by (unfold x; field; lra).
  assert (H1 : (1 / 2 <= nu / cutoff)%R).
  { apply Rmult_le_reg_r with cutoff; [assumption|].
    unfold Rdiv at 2. rewrite Rmult_assoc, Rinv_l by lra. lra. }
  assert (H2 : (nu / cutoff <= 3 / 2)%R).
  { apply Rmult_le_reg_r with cutoff; [assumption|].
    unfold Rdiv at 1. rewrite Rmult_assoc, Rinv_l by lra. lra. }
  assert (Hcos : (cos (2 * x) <= 0)%R).
  { apply cos_le_0; rewrite E; nra. }
  rewrite cos_2a_cos in Hcos. nra.
Qed.

Lemma cutoff_index_above (n : nat) (lwn cutoff : R) :
  (1 <= n)%nat -> (0 < lwn)%R -> (lwn <= cutoff)%R ->
  cutoff_index (wavenumber_axis n lwn) cutoff = (n / 2)%nat.
Proof.
  intros Hn Hlwn Hc.
  rewrite cutoff_index_all; [apply length_wavenumber_axis|].
  intros nu Hin. apply in_wvn in Hin. destruct Hin as [k [Hk ->]].
  assert (0 <= wvn_value n lwn k < lwn)%R
    by (apply wvn_value_bounds; lia || lra).
  lra.
Qed.

(** The sum of the window values over the ten wavenumbers of the axis. *)
Lemma taper_sum_20_10_11 :
  (Rsum (map (sfunc 11) (wavenumber_axis 20 10)) <= 9)%R.
Proof.
  unfold wavenumber_axis. change (20 / 2)%nat with 10%nat.
  cbn [seq map Rsum fold_right].
  assert (H8 : (sfunc 11 (wvn_value 20 10 8) <= 1 / 2)%R).
  { apply sfunc_le_half; [lra|].
    rewrite wvn_value_eq by (lia || lra).
    rewrite !INR_IZR_INZ. cbn [Z.of_nat Pos.of_succ_nat Pos.succ]. lra. }
  assert (H9 : (sfunc 11 (wvn_value 20 10 9) <= 1 / 2)%R).
  { apply sfunc_le_half; [lra|].
    rewrite wvn_value_eq by (lia || lra).
    rewrite !INR_IZR_INZ. cbn [Z.of_nat Pos.of_succ_nat Pos.succ]. lra. }
  pose proof (sfunc_le_1 11 (wvn_value 20 10 0)).
  pose proof (sfunc_le_1 11 (wvn_value 20 10 1)).
  pose proof (sfunc_le_1 11 (wvn_value 20 10 2)).
  pose proof (sfunc_le_1 11 (wvn_value 20 10 3)).
  pose proof (sfunc_le_1 11 (wvn_value 20 10 4)).
  pose proof (sfunc_le_1 11 (wvn_value 20 10 5)).
  pose proof (sfunc_le_1 11 (wvn_value 20 10 6)).
  pose proof (sfunc_le_1 11 (wvn_value 20 10 7)).
  lra.
Qed.

Lemma cutoff_above_nyquist_witness :
  (cutoff_index (wavenumber_axis (Z.to_nat 20) 10) 11
   = (Z.to_nat 20 / 2)%nat
   /\ exists a2,
        filter_window (Z.to_nat 20) (wavenumber_axis (Z.to_nat 20) 10) 11
        = Ok a2
        /\ nth 1 a2 C0 = of_real (sfunc 11 (wvn_value (Z.to_nat 20) 10 1))
        /\ (0 < sfunc 11 (wvn_value (Z.to_nat 20) 10 1) < 1)%R
        /\ exists s,
             smooth_ifg delta20 10 10 11 20 = Ok s
             /\ ys s = zip_with Cmul a2
                         (spectrum (apodized delta20 10 20 (a1 s)))
             /\ ifg_s s
                = map fst (map (Cscale (/ INR (Z.to_nat 20)))
                             (dft 1 (ys s))))
  /\ (cutoff_index (wavenumber_axis (Z.to_nat 20) 10) 0 = 0%nat
      /\ smooth_ifg delta20 10 10 0 20 = Raise ValueError).
Proof.
  split.
  - destruct (cutoff_above_nyquist delta20 10 10 11 20) as [H _];
      [lia | lra |].
    destruct H as [Hidx [a2 [Hf [Hnth [Hb Hrun]]]]]; [lra|].
    split; [exact Hidx|]. exists a2.
    split; [exact Hf|]. split; [exact Hnth|]. split; [exact Hb|].
    apply Hrun. reflexivity.
  - destruct (cutoff_above_nyquist delta20 10 10 0 20) as [_ H];
      [lia | lra |].
    apply H. lra.
Defined.

(** C2, as stated, fails.  Take a unit pulse of 20 samples, a laser
    wavenumber of 10 and a cut-off of 11, above the Nyquist wavenumber 10.
    The cut-off index is 10 and not 0; the apodized crop is the pulse
    itself, of value 1 at sample 0; the smoothed signal is at most 9/10
    there. *)
Lemma smooth_ifg_above_nyquist_differs :
  exists s,
    (10 < 11)%R
    /\ smooth_ifg delta20 10 10 11 20 = Ok s
    /\ cutoff_index (wvn s) 11 = 10%nat
    /\ apodized delta20 10 20 (a1 s) = delta20
    /\ nth 0 (apodized delta20 10 20 (a1 s)) 0%R = 1%R
    /\ (nth 0 (ifg_s s) 0 <= 9 / 10)%R.
Proof.
  assert (Hidx : cutoff_index (wavenumber_axis 20 10) 11 = 10%nat).
  { rewrite cutoff_index_above by (lia || lra). reflexivity. }
  destruct (smooth_ifg_run delta20 10 10 11 20)
    as [w [a2 [Hw [Hwl [Hf [Hl2 Hrun]]]]]].
  - lia.
  - reflexivity.
  - lra.
  - change (Z.to_nat 20) with 20%nat. rewrite Hidx. lia.
  - change (Z.to_nat 20) with 20%nat in *.
    assert (Ew : w = repeat 1%R 20)
      by (rewrite apodization_20 in Hw; congruence).
    subst w.
    rewrite apodized_delta20, spectrum_delta20 in Hrun.
    rewrite <- Hl2 in Hrun at 2. rewrite zip_with_Cmul_ones in Hrun.
    eexists. split; [lra|]. split; [exact Hrun|]. cbn [wvn a1 ifg_s].
    split; [exact Hidx|]. split; [apply apodized_delta20|].
    split; [rewrite apodized_delta20; reflexivity|].
    rewrite (nth_map_lt _ _ _ _ C0)
      by (rewrite length_map, length_dft; lia).
    rewrite (nth_map_lt _ _ _ _ C0) by (rewrite length_dft; lia).
    rewrite dft_nth_0 by lia.
    unfold Cscale. cbn [fst]. rewrite fst_Csum.
    rewrite filter_window_ok in Hf
      by (rewrite ?Hidx, ?length_wavenumber_axis; simpl; lia).
    injection Hf as <-. rewrite Hidx.
    rewrite (firstn_all2 (n := 10))
      by (rewrite length_wavenumber_axis; simpl; lia).
    cbn [repeat Nat.sub Nat.mul Nat.add app].
    rewrite map_app, !map_fst_of_real, Rsum_app, map_rev, Rsum_rev.
    pose proof taper_sum_20_10_11 as Hs.
    rewrite INR_IZR_INZ. cbn [Z.of_nat Pos.of_succ_nat Pos.succ].
    lra.
Qed.

(** * Further properties of the reader *)

(** ** What [getparamsfromblock] can raise *)

Lemma getparams_step_raise (f : bytes) (offset : Z) (full : bool)
  (i : Z) (params : dict HeaderValue) (fullblock : list full_entry)
  (o : ftsreader) (e : exn) :
  0 <= offset + i ->
  fst (getparams_step f offset full (i, params, fullblock) o) = Raise e ->
  e = StructError.
Proof.
  intros Hpos. unfold getparams_step.
  destruct (unpack_4s2H (read_at f (offset + i) 8))
    as [[[para0 thistype] length]|e'] eqn:Hun.
  - destruct (negb (bytes_eqb (firstn 3 (trim_para para0))
                      (list_byte_of_string "END")) && (0 <? length))
      eqn:Hgo.
    + destruct (decode_value thistype length
                  (read_at f (offset + (i + 8)) (2 * length)))
        as [val|e'] eqn:Hval;
        [destruct (decode_utf8 (trim_para para0)) as [key|e'] eqn:Hkey|].
      * step_prefix.
        erewrite bind_Ok by (unfold lift; rewrite ?Hval; reflexivity).
        erewrite bind_Ok by (unfold lift; rewrite ?Hkey; reflexivity).
        discriminate.
      * step_prefix.
        erewrite bind_Ok by (unfold lift; rewrite ?Hval; reflexivity).
        erewrite bind_Raise by (unfold lift; rewrite ?Hkey; reflexivity).
        discriminate.
      * step_prefix.
        erewrite bind_Raise by (unfold lift; rewrite ?Hval; reflexivity).
        discriminate.
    + erewrite bind_Ok by (apply seek_ok; lia). cbv beta zeta.
      erewrite bind_Ok by reflexivity.
      cbv beta iota zeta. rewrite Hgo. discriminate.
  - erewrite bind_Ok by (apply seek_ok; lia). cbv beta zeta.
    erewrite bind_Raise by reflexivity. cbn [fst].
    apply unpack_4s2H_Raise in Hun. congruence.
Qed.

Lemma getparams_loop_raise (fuel : nat) (f : bytes) (offset : Z)
  (full : bool) (i : Z) (params : dict HeaderValue)
  (fullblock : list full_entry) (o : ftsreader) (e : exn) :
  0 <= offset + i ->
  fst (getparams_loop fuel f offset full (i, params, fullblock) o) = Raise e ->
  e = StructError \/ e = FuelExhausted.
Proof.
  revert i params fullblock o.
  induction fuel as [|k IH]; intros i params fullblock o Hpos.
  - cbn. intros [= <-]. now right.
  - cbn [getparams_loop].
    pose proof (getparams_step_cases f offset full i params fullblock o) as Hc.
    pose proof (getparams_step_raise f offset full i params fullblock o) as Hr.
    destruct (getparams_step f offset full (i, params, fullblock) o)
      as [[[go st']|e'] o1] eqn:Hstep; cbn [fst] in Hc, Hr.
    + erewrite bind_Ok by eassumption. cbn [fst snd].
      destruct go.
      * destruct st' as [[i' params'] fullblock']. cbn [fst] in Hc.
        apply IH. lia.
      * discriminate.
    + erewrite bind_Raise by eassumption. cbn [fst]. intros [= <-].
      left. now apply Hr.
Qed.

(** X1. [getparamsfromblock] always comes to an end, and in one of these
    ways only: the error of opening the source; for a negative offset the
    error of [seek] ([OSError] on a disk file, [ValueError] in memory);
    otherwise a dictionary without repeated tags, or [struct.error] when
    the source ends before an [END] record.  No payload, whatever its
    bytes, makes it raise. *)
Theorem getparamsfromblock_outcomes (disk : string -> option bytes)
  (offset length : Z) (o : ftsreader) :
  match source disk (path o) (filemode o) (streamdata o) with
  | Raise e => fst (getparamsfromblock disk offset length o) = Raise e
  | Ok f =>
      if offset <? 0
      then fst (getparamsfromblock disk offset length o)
           = Raise (if String.eqb (filemode o) "hdd"
                    then OSError else ValueError)
      else (exists params,
              fst (getparamsfromblock disk offset length o) = Ok params
              /\ dict_wf params)
           \/ fst (getparamsfromblock disk offset length o)
              = Raise StructError
  end.
Proof.
  destruct (source disk (path o) (filemode o) (streamdata o)) as [f|e] eqn:Hs.
  - destruct (Z.ltb_spec offset 0) as [Hneg|Hpos].
    + unfold getparamsfromblock, getparams_run.
      erewrite bind_Raise; [reflexivity|].
      erewrite bind_Ok by (rewrite getfileobject_eq, Hs; reflexivity).
      cbn [getparams_loop].
      erewrite bind_Raise; [reflexivity|].
      unfold getparams_step.
      erewrite bind_Raise by (apply seek_neg; lia). reflexivity.
    + destruct (fst (getparamsfromblock disk offset length o))
        as [params|e] eqn:E.
      * left. exists params. split; [reflexivity|].
        now apply (getparamsfromblock_wf disk offset length o).
      * right. f_equal.
        pose proof (getparamsfromblock_terminates disk offset length o e E)
          as Hfuel.
        revert E. unfold getparamsfromblock, getparams_run.
        pose proof (getparams_loop_raise (S (List.length f)) f offset false
                      0 [] [] o) as Hloop.
        destruct (getparams_loop (S (List.length f)) f offset false
                    (0, [], []) o) as [[st|e'] o1] eqn:Hrun.
        -- erewrite bind_Ok; [discriminate|].
           erewrite bind_Ok by (rewrite getfileobject_eq, Hs; reflexivity).
           eassumption.
        -- erewrite bind_Raise.
           2:{ erewrite bind_Ok
                 by (rewrite getfileobject_eq, Hs; reflexivity).
               eassumption. }
           cbn [fst]. intros [= <-].
           destruct (Hloop e') as [H|H];
             [lia | exact (f_equal fst Hrun) | exact H | contradiction].
  - unfold getparamsfromblock, getparams_run.
    erewrite bind_Raise; [reflexivity|].
    erewrite bind_Raise by (rewrite getfileobject_eq, Hs; reflexivity).
    reflexivity.
Qed.

(** ** [read_header] and the directory *)

(** X2. [read_header] fails exactly when [read_structure] does, and with
    the same exception; no failure while decoding a block reaches its
    caller. *)
Theorem read_header_fails_with_structure (disk : string -> option bytes)
  (o : ftsreader) :
  fst (read_header disk o)
  = match fst (read_structure disk (ext o [Msg "Reading Header ..."])) with
    | Ok _ => Ok 0
    | Raise e => Raise e
    end.
Proof.
  unfold read_header.
  erewrite bind_Ok by reflexivity.
  change (set_log (log o ++ [Msg "Reading Header ..."]) o)
    with (ext o [Msg "Reading Header ..."]).
  set (o1 := ext o [Msg "Reading Header ..."]).
  pose proof (read_structure_inv disk o1) as [Hs [_ [d [Hfs Hwf]]]].
  destruct (read_structure disk o1) as [[[]|e] o2] eqn:Hstruct;
    cbn [snd fst] in *.
  2:{ erewrite bind_Raise by eassumption. reflexivity. }
  erewrite bind_Ok by eassumption.
  erewrite bind_Ok by reflexivity.
  erewrite bind_Ok by (apply attr_Some; cbn; eassumption).
  destruct (read_header_loop disk o d Hwf d [] (set_header [] o2))
    as [o3 [Hloop _]].
  - reflexivity.
  - eapply same_source_trans; [apply (same_source_ext o)|].
    eapply same_source_trans; [exact Hs|]. now repeat split.
  - exact Hfs.
  - reflexivity.
  - erewrite bind_Ok by exact Hloop. reflexivity.
Qed.

(** X3. The header that [read_header] builds is a dictionary of
    dictionaries: no block twice, no parameter twice within a block, and
    every block of the header is an entry of the directory. *)
Theorem read_header_dictionary (disk : string -> option bytes)
  (o o' : ftsreader) :
  read_header disk o = (Ok 0, o') ->
  exists d h,
    fs o' = Some d
    /\ header o' = Some h
    /\ dict_wf h
    /\ header_wf h
    /\ incl (dict_keys h) (dict_keys d).
Proof.
  intros Hrun.
  destruct (read_header_run disk o o' Hrun) as [d [Hfs [Hwf Hh]]].
  exists d, (header_of disk o d).
  split; [exact Hfs|]. split; [exact Hh|]. split; [|split].
  - unfold dict_wf. rewrite header_of_bearing. now apply filter_keys_wf.
  - apply header_of_wf.
  - intros k Hk. now apply (header_of_keys disk o).
Qed.

Lemma read_header_dictionary_witness :
  let o := new "" false "mem" (Some unidentified_block_file) in
  exists d h,
    fs (snd (read_header nodisk o)) = Some d
    /\ header (snd (read_header nodisk o)) = Some h
    /\ dict_wf h
    /\ header_wf h
    /\ incl (dict_keys h) (dict_keys d).
Proof.
  intros o.
  apply (read_header_dictionary nodisk o (snd (read_header nodisk o))).
  vm_compute. reflexivity.
Defined.

(** ** Which directory entries are header blocks *)

Lemma prefix_app (n a b : string) :
  String.prefix n a = true -> String.prefix n (a +++ b) = true.
Proof.
  revert a. induction n as [|c n IH]; intros a H;
    [destruct (a +++ b); reflexivity|].
  destruct a as [|c' a]; [discriminate|].
  cbn [String.prefix String.append] in *.
  destruct (ascii_dec c c'); [now apply IH | discriminate].
Qed.

Lemma contains_app (n a b : string) :
  contains n a = true -> contains n (a +++ b) = true.
Proof.
  induction a as [|c a IH]; intros H.
  - cbn [contains] in H. rewrite orb_false_r in H.
    destruct n; [|discriminate].
    destruct b; reflexivity.
  - cbn [contains String.append] in *.
    apply orb_true_iff in H. apply orb_true_iff. destruct H as [H|H].
    + left. now apply (prefix_app n (String c a) b).
    + right. now apply IH.
Qed.

Lemma name_check_all :
  forallb (fun bt => forallb (name_check bt) byte_values) byte_values = true.
Proof. vm_compute. reflexivity. Qed.

Lemma in_byte_values (z : Z) : 0 <= z < 256 -> In z byte_values.
Proof.
  intros H. unfold byte_values. apply in_map_iff.
  exists (Z.to_nat z). split; [lia|]. apply in_seq. lia.
Qed.

(** X4. Of the names that [read_structure] gives to directory entries,
    [read_header] reads as header blocks exactly those of the six
    parameter types (160, 23, 96, 64, 48, 32) whose length is positive,
    whatever the secondary type: data blocks (7), the unidentified type 0
    and every unknown type are left out. *)
Theorem header_blocks_by_type (bt bt2 len : Z) (d : BlockDescriptor) :
  0 <= bt < 256 ->
  0 <= bt2 < 256 ->
  is_header_block (hdrblockname (str_of_Z bt) (str_of_Z bt2) len) d
  = parameter_type bt && (0 <? length d).
Proof.
  intros Hbt Hbt2.
  pose proof name_check_all as Hall.
  rewrite forallb_forall in Hall.
  specialize (Hall bt (in_byte_values bt Hbt)).
  rewrite forallb_forall in Hall.
  specialize (Hall bt2 (in_byte_values bt2 Hbt2)).
  unfold name_check in Hall. unfold is_header_block, hdrblockname.
  destruct (String.eqb (str_of_Z bt) "0"
            || negb (dict_mem (str_of_Z bt) blocknames)).
  - apply andb_prop in Hall. destruct Hall as [Hskip Hpar].
    apply negb_true_iff in Hpar. rewrite Hpar. cbn [andb].
    apply orb_true_iff in Hskip.
    replace (contains "unknown"
               (hdrblockname0 (str_of_Z bt) (str_of_Z bt2) +++ " len "
                +++ fmt_3i len)
             || contains "something"
                  (hdrblockname0 (str_of_Z bt) (str_of_Z bt2) +++ " len "
                   +++ fmt_3i len)) with true.
    + cbn [negb]. now rewrite andb_false_r.
    + symmetry. apply orb_true_iff.
      destruct Hskip as [H|H]; [left | right]; now apply contains_app.
  - apply eqb_prop in Hall.
    rewrite <- Hall.
    destruct (negb (String.eqb
                      (str_slice (hdrblockname0 (str_of_Z bt) (str_of_Z bt2))
                         None (Some 10)) "Data Block"));
      destruct (0 <? length d);
      destruct (negb (contains "unknown"
                        (hdrblockname0 (str_of_Z bt) (str_of_Z bt2))
                      || contains "something"
                           (hdrblockname0 (str_of_Z bt) (str_of_Z bt2))));
      reflexivity.
Qed.

Lemma header_blocks_by_type_witness :
  is_header_block (hdrblockname (str_of_Z 32) (str_of_Z 0) 10)
    {| blocktype := "32"; blocktype2 := "0"; length := 10; offset := 48 |}
  = parameter_type 32 && (0 <? 10).
Proof.
  apply (header_blocks_by_type 32 0 10
           {| blocktype := "32"; blocktype2 := "0"; length := 10;
              offset := 48 |}); lia.
Defined.

(** ** Looking a parameter up *)

Lemma dict_get_In {V} (k : string) (v : V) (d : dict V) :
  dict_wf d -> In (k, v) d -> dict_get k d = Some v.
Proof.
  unfold dict_wf, dict_keys.
  induction d as [|[k' v'] r IH]; intros Hwf Hin; [contradiction|].
  cbn [map fst] in Hwf. inversion Hwf as [|? ? Hk Hr]; subst.
  cbn [dict_get]. destruct Hin as [E|Hin].
  - injection E as -> ->. now rewrite String.eqb_refl.
  - destruct (String.eqb_spec k k') as [->|Hne].
    + exfalso. apply Hk. apply in_map_iff. now exists (k', v).
    + now apply IH.
Qed.

Lemma blocks_with_In (par b : string) (h : dict (dict HeaderValue)) :
  In b (blocks_with par h) ->
  exists params, In (b, params) h /\ dict_mem par params = true.
Proof.
  unfold blocks_with. intros H. apply in_map_iff in H.
  destruct H as [[b' params] [E H]]. cbn [fst] in E. subst b'.
  apply filter_In in H. destruct H as [Hin Hmem].
  now exists params.
Qed.

(** X5. [get_header_par] returns the value of a parameter that exactly one
    block of the header holds.  For a parameter that several blocks hold
    (such as [FXV] in a file with two data blocks) it returns [None]: the
    list of blocks is no key of the header. *)
Theorem get_header_par_value (o : ftsreader) (h : dict (dict HeaderValue))
  (par : string) :
  header o = Some h ->
  dict_wf h ->
  header_wf h ->
  (forall b, blocks_with par h = [b] ->
     exists params v,
       dict_get b h = Some params
       /\ dict_get par params = Some v
       /\ get_header_par par o = (Ok (Some v), o))
  /\ ((1 < List.length (blocks_with par h))%nat ->
      get_header_par par o = (Ok None, o)).
Proof.
  intros Hh Hwf Hhwf.
  assert (E : search_header_par par o
              = (Ok match blocks_with par h with
                    | [] => RNone
                    | [p] => RName p
                    | _ => RList (blocks_with par h)
                    end, o)).
  { unfold search_header_par, attr, bind, get. rewrite Hh. simpl.
    rewrite header_pars_blocks_with by assumption.
    now destruct (blocks_with par h) as [|p [|q r]]. }
  split.
  - intros b Hb.
    destruct (blocks_with_In par b h) as [params [Hin Hmem]];
      [rewrite Hb; now left|].
    unfold dict_mem in Hmem.
    destruct (dict_get par params) as [v|] eqn:Hv; [|discriminate].
    exists params, v.
    pose proof (dict_get_In b params h Hwf Hin) as Hget.
    split; [exact Hget|]. split; [exact Hv|].
    unfold get_header_par, try_except.
    erewrite bind_Ok by (rewrite E, Hb; reflexivity).
    erewrite bind_Ok.
    2:{ unfold header_lookup.
        erewrite bind_Ok by (apply attr_Some; eassumption).
        unfold lift, dict_item. rewrite Hget. reflexivity. }
    erewrite bind_Ok by (unfold lift, dict_item; rewrite Hv; reflexivity).
    reflexivity.
  - intros Hlen.
    unfold get_header_par, try_except.
    erewrite bind_Ok by (rewrite E; reflexivity).
    destruct (blocks_with par h) as [|p [|q r]]; simpl in Hlen; try lia.
    erewrite bind_Raise; [reflexivity|].
    unfold header_lookup.
    erewrite bind_Ok by (apply attr_Some; eassumption).
    reflexivity.
Qed.

Lemma get_header_par_value_witness :
  (exists params v,
     dict_get "Instrument Parameters" header2 = Some params
     /\ dict_get "PKL" params = Some v
     /\ get_header_par "PKL" reader2 = (Ok (Some v), reader2))
  /\ get_header_par "FXV" reader2 = (Ok None, reader2).
Proof.
  assert (Hwf : dict_wf header2).
  { unfold header2, dict_wf. repeat constructor; simpl; intuition discriminate. }
  assert (Hhwf : header_wf header2).
  { unfold header_wf, header2, dict_wf.
    repeat constructor; simpl; intuition discriminate. }
  destruct (get_header_par_value reader2 header2 "PKL" eq_refl Hwf Hhwf)
    as [H1 _].
  destruct (get_header_par_value reader2 header2 "FXV" eq_refl Hwf Hhwf)
    as [_ H2].
  split; [apply H1; reflexivity | apply H2; simpl; lia].
Defined.

(** ** The verdict of [test_if_ftsfile] *)

(** X6. [test_if_ftsfile] never raises.  It sets [status] and [isftsfile]
    to the same value: true exactly when the source can be opened and
    begins with the four magic bytes.  It leaves the directory, the header
    and the source as they were. *)
Theorem test_if_ftsfile_verdict (disk : string -> option bytes)
  (o : ftsreader) :
  let ok :=
    match source disk (path o) (filemode o) (streamdata o) with
    | Ok f => bytes_eqb (firstn 4 f) ftsmagicval
    | Raise _ => false
    end in
  exists o',
    test_if_ftsfile disk o = (Ok tt, o')
    /\ status o' = ok
    /\ isftsfile o' = Some ok
    /\ fs o' = fs o
    /\ header o' = header o
    /\ same_source o o'.
Proof.
  unfold test_if_ftsfile.
  unfold bind, try_except, log_append, modify at 1.
  rewrite getfileobject_eq. cbn [path filemode streamdata set_log].
  destruct (source disk (path o) (filemode o) (streamdata o)) as [f|e].
  - change 4 with (Z.of_nat 4). rewrite read_at_0.
    unfold seek, bind, get, ret. cbn [Z.ltb Z.compare].
    destruct (bytes_eqb (firstn 4 f) ftsmagicval).
    + destruct (verbose o) eqn:Hv; cbn -[firstn String.append];
        rewrite ?Hv; cbn -[firstn String.append];
        eexists; repeat split; reflexivity.
    + cbn -[firstn String.append]. eexists; repeat split; reflexivity.
  - cbn -[String.append]. eexists; repeat split; reflexivity.
Qed.

(** ** Reading a data block *)

Lemma length_chunks (w count : nat) (bs : bytes) :
  List.length (chunks w count bs) = count.
Proof.
  revert bs. induction count as [|k IH]; intros bs; [reflexivity|].
  cbn [chunks List.length]. now rewrite IH.
Qed.

Lemma nth_chunks (w count : nat) (bs : bytes) (i : nat) :
  (i < count)%nat ->
  nth i (chunks w count bs) [] = firstn w (skipn (w * i) bs).
Proof.
  revert bs i. induction count as [|k IH]; intros bs i H; [lia|].
  cbn [chunks]. destruct i as [|i].
  - now rewrite Nat.mul_0_r.
  - cbn [nth]. rewrite IH by lia. rewrite skipn_skipn.
    f_equal. f_equal. lia.
Qed.

(** What [get_block] does, in one equation. *)
Lemma get_block_eq (disk : string -> option bytes) (pointer length : Z)
  (o : ftsreader) :
  get_block disk pointer length o
  = (match source disk (path o) (filemode o) (streamdata o) with
     | Raise e => Raise e
     | Ok f =>
         if pointer <? 0
         then Raise (if String.eqb (filemode o) "hdd"
                     then OSError else ValueError)
         else unpack_nf length (read_at f pointer (length * 4))
     end,
     ext o [Msg ("Getting data block at " +++ str_of_Z pointer
                 +++ " with length " +++ str_of_Z length)]).
Proof.
  unfold get_block.
  erewrite bind_Ok by reflexivity.
  unfold bind at 1. rewrite getfileobject_eq.
  cbn [path filemode streamdata set_log].
  destruct (source disk (path o) (filemode o) (streamdata o)) as [f|e];
    [|reflexivity].
  destruct (Z.ltb_spec pointer 0).
  - erewrite bind_Raise by (apply seek_neg; lia). reflexivity.
  - erewrite bind_Ok by (apply seek_ok; lia). reflexivity.
Qed.

(** X7. A data block that lies within the source is read in full:
    [get_block] returns exactly [length] samples, and sample [i] is made of
    the four bytes at [pointer + 4*i], least significant first. *)
Theorem get_block_in_range (disk : string -> option bytes) (o : ftsreader)
  (f : bytes) (pointer length : Z) :
  source disk (path o) (filemode o) (streamdata o) = Ok f ->
  0 <= pointer ->
  0 <= length ->
  pointer + 4 * length <= Z.of_nat (List.length f) ->
  exists y,
    fst (get_block disk pointer length o) = Ok y
    /\ List.length y = Z.to_nat length
    /\ forall i, (i < Z.to_nat length)%nat ->
         nth i y 0 = le_uint (sub f (Z.to_nat pointer + 4 * i) 4).
Proof.
  intros Hs Hp Hl Hfit.
  rewrite get_block_eq, Hs. cbn [fst].
  destruct (Z.ltb_spec pointer 0); [lia|].
  unfold unpack_nf, has_len.
  rewrite read_at_length by lia.
  destruct (Z.leb_spec 0 length); [|lia].
  destruct (Z.eqb_spec
              (Z.min (length * 4) (Z.max 0 (Z.of_nat (List.length f) - pointer)))
              (4 * length)); [|lia].
  cbn [andb]. eexists. split; [reflexivity|].
  split; [now rewrite length_map, length_chunks|].
  intros i Hi.
  rewrite (nth_map_lt _ _ _ _ ([] : bytes)) by (now rewrite length_chunks).
  rewrite nth_chunks by assumption. f_equal.
  unfold read_at, sub.
  destruct (Z.ltb_spec (length * 4) 0); [lia|].
  rewrite skipn_firstn_comm, firstn_firstn, skipn_skipn.
  rewrite Nat.min_l by lia. f_equal. f_equal. lia.
Qed.

Lemma get_block_in_range_witness :
  exists y,
    fst (get_block nodisk 0 2 (new "" false "mem" (Some two_samples)))
    = Ok y
    /\ List.length y = Z.to_nat 2
    /\ forall i, (i < Z.to_nat 2)%nat ->
         nth i y 0 = le_uint (sub two_samples (Z.to_nat 0 + 4 * i) 4).
Proof.
  apply (get_block_in_range nodisk (new "" false "mem" (Some two_samples))
           two_samples 0 2).
  - reflexivity.
  - lia.
  - lia.
  - simpl. lia.
Defined.

(** ** [get_datablocks] *)

Lemma search_block_found (block : string) (o : ftsreader)
  (d : dict BlockDescriptor) (desc : BlockDescriptor) :
  fs o = Some d -> dict_get block d = Some desc ->
  search_block block o = (Ok (Some desc), o).
Proof.
  intros Hfs Hget. unfold search_block.
  erewrite bind_Ok by (apply attr_Some; eassumption).
  now rewrite Hget.
Qed.

Lemma unpack_nf_length (count : Z) (data : bytes) (y : list Z) :
  unpack_nf count data = Ok y -> List.length y = Z.to_nat count /\ 0 <= count.
Proof.
  unfold unpack_nf.
  destruct (Z.leb_spec 0 count); [|discriminate].
  destruct (has_len data (4 * count)); [|discriminate].
  intros [= <-]. split; [|assumption].
  now rewrite length_map, length_chunks.
Qed.

(** X8. When [get_datablocks] returns, the block is in the directory and
    is one of the six for which an axis is built; the samples are those
    that [get_block] reads at the offset and with the length of the
    directory entry, as many as that length says; and the x-axis has as
    many points as there are samples. *)
Theorem get_datablocks_shape (disk : string -> option bytes)
  (block : string) (o o' : ftsreader) (x : linspace) (y : list Z) :
  get_datablocks disk block o = (Ok (x, y), o') ->
  exists d desc,
    fs o = Some d
    /\ dict_get block d = Some desc
    /\ fst (get_block disk (offset desc) (length desc) o) = Ok y
    /\ List.length y = Z.to_nat (length desc)
    /\ ax_num x = List.length y
    /\ In block axis_blocks.
Proof.
  intros Hrun. unfold get_datablocks in Hrun.
  erewrite bind_Ok in Hrun by reflexivity.
  set (o1 := set_log (log o ++ [Msg "Getting data blocks"]) o) in *.
  destruct (fs o) as [d|] eqn:Hfs.
  2:{ erewrite bind_Raise in Hrun; [discriminate|].
      unfold search_block. erewrite bind_Raise; [reflexivity|].
      unfold attr, bind, get. cbn. rewrite Hfs. reflexivity. }
  destruct (dict_get block d) as [desc|] eqn:Hget.
  2:{ erewrite bind_Ok in Hrun.
      2:{ unfold search_block.
          erewrite bind_Ok by (apply attr_Some; exact Hfs).
          rewrite Hget. erewrite bind_Ok by reflexivity. reflexivity. }
      erewrite bind_Raise in Hrun by reflexivity. discriminate. }
  erewrite bind_Ok in Hrun by (eapply search_block_found; eassumption).
  erewrite bind_Ok in Hrun by reflexivity.
  erewrite bind_Ok in Hrun by (eapply search_block_found; eassumption).
  erewrite bind_Ok in Hrun by reflexivity.
  unfold bind at 1 in Hrun. rewrite get_block_eq in Hrun.
  change (source disk (path o1) (filemode o1) (streamdata o1))
    with (source disk (path o) (filemode o) (streamdata o)) in Hrun.
  change (filemode o1) with (filemode o) in Hrun.
  exists d, desc. split; [reflexivity|]. split; [exact Hget|].
  rewrite get_block_eq. cbn [fst].
  destruct (match source disk (path o) (filemode o) (streamdata o) with
            | Ok f =>
                if offset desc <? 0
                then Raise (if String.eqb (filemode o) "hdd"
                            then OSError else ValueError)
                else unpack_nf (length desc)
                       (read_at f (offset desc) (length desc * 4))
            | Raise e => Raise e
            end) as [yax|e] eqn:Hy; [|discriminate].
  assert (Hlen : List.length yax = Z.to_nat (length desc)).
  { destruct (source disk (path o) (filemode o) (streamdata o));
      [|discriminate].
    destruct (offset desc <? 0); [discriminate|].
    now apply unpack_nf_length in Hy. }
  revert Hrun. unfold xax_case, spectral_axis, header_item, axis_blocks.
  destruct (String.eqb_spec block "Data Block IgSm") as [->|N1];
    [|destruct (String.eqb_spec block "Data Block") as [->|N2];
      [|destruct (String.eqb_spec block "Data Block SpSm") as [->|N3];
        [|destruct (String.eqb_spec block "Data Block ScSm") as [->|N4];
          [|destruct (String.eqb_spec block "Data Block TrSm") as [->|N5];
            [|destruct (String.eqb_spec block "Data Block PhSm")
                as [->|N6]]]]]].
  all: cbn [orb String.eqb Ascii.eqb Bool.eqb].
  all: munfold; cbn -[String.append In opd_stop linspace_ends].
  all: repeat match goal with
         | |- context [match ?t with _ => _ end] =>
             lazymatch t with
             | header _ => destruct t
             | dict_item _ _ => destruct t
             | dict_get _ _ => destruct t
             | opd_stop _ => destruct t
             | linspace_ends _ _ => destruct t
             end; cbn -[String.append In opd_stop linspace_ends]
         end.
  all: try discriminate.
  all: intros [= <- <- _]; cbn [ax_num].
  all: repeat split; try assumption; try reflexivity; simpl; tauto.
Qed.

Lemma get_datablocks_shape_witness :
  let x := {| ax_start := AZero; ax_stop := AOpd (VFloat 4591870180066957722);
              ax_num := 2 |} in
  let y := [1; 4294967294] in
  exists d desc,
    fs ifg_reader = Some d
    /\ dict_get "Data Block IgSm" d = Some desc
    /\ fst (get_block nodisk (offset desc) (length desc) ifg_reader) = Ok y
    /\ List.length y = Z.to_nat (length desc)
    /\ ax_num x = List.length y
    /\ In "Data Block IgSm" axis_blocks.
Proof.
  intros x y.
  eapply (get_datablocks_shape nodisk "Data Block IgSm" ifg_reader _ x y).
  vm_compute. reflexivity.
Defined.

(** X9. For a block that is in the directory and can be read but whose name
    is none of the six for which an axis is built, [get_datablocks] reads
    the samples and then fails with [UnboundLocalError]. *)
Theorem get_datablocks_no_axis (disk : string -> option bytes)
  (block : string) (o : ftsreader) (d : dict BlockDescriptor)
  (desc : BlockDescriptor) (y : list Z) :
  fs o = Some d ->
  dict_get block d = Some desc ->
  fst (get_block disk (offset desc) (length desc) o) = Ok y ->
  ~ In block axis_blocks ->
  fst (get_datablocks disk block o) = Raise UnboundLocalError.
Proof.
  intros Hfs Hget Hy Hno. unfold get_datablocks.
  erewrite bind_Ok by reflexivity.
  set (o1 := set_log (log o ++ [Msg "Getting data blocks"]) o) in *.
  erewrite bind_Ok by (eapply search_block_found; eassumption).
  erewrite bind_Ok by reflexivity.
  erewrite bind_Ok by (eapply search_block_found; eassumption).
  erewrite bind_Ok by reflexivity.
  unfold bind at 1. rewrite get_block_eq.
  change (source disk (path o1) (filemode o1) (streamdata o1))
    with (source disk (path o) (filemode o) (streamdata o)).
  change (filemode o1) with (filemode o).
  rewrite get_block_eq in Hy. cbn [fst] in Hy. rewrite Hy.
  unfold axis_blocks in Hno. unfold xax_case.
  destruct (String.eqb_spec block "Data Block IgSm") as [->|N1];
    [exfalso; apply Hno; simpl; tauto|].
  destruct (String.eqb_spec block "Data Block") as [->|N2];
    [exfalso; apply Hno; simpl; tauto|].
  destruct (String.eqb_spec block "Data Block SpSm") as [->|N3];
    [exfalso; apply Hno; simpl; tauto|].
  destruct (String.eqb_spec block "Data Block ScSm") as [->|N4];
    [exfalso; apply Hno; simpl; tauto|].
  destruct (String.eqb_spec block "Data Block TrSm") as [->|N5];
    [exfalso; apply Hno; simpl; tauto|].
  destruct (String.eqb_spec block "Data Block PhSm") as [->|N6];
    [exfalso; apply Hno; simpl; tauto|].
  reflexivity.
Qed.

Lemma get_datablocks_no_axis_witness :
  fst (get_datablocks nodisk "Acquisition Parameters" ifg_reader)
  = Raise UnboundLocalError.
Proof.
  eapply (get_datablocks_no_axis nodisk "Acquisition Parameters" ifg_reader).
  - reflexivity.
  - reflexivity.
  - vm_compute. reflexivity.
  - simpl. intuition discriminate.
Defined.

(** ** When [read_structure] succeeds *)

Lemma read_entry_result (f : bytes) (pos : Z) (o : ftsreader)
  (d : dict BlockDescriptor) :
  fs o = Some d -> 0 <= pos ->
  if pos + 12 <=? Z.of_nat (List.length f)
  then exists o1 d1, read_entry f pos o = (Ok tt, o1) /\ fs o1 = Some d1
  else read_entry f pos o = (Raise StructError, o).
Proof.
  intros Hfs Hpos. unfold read_entry, unpack_2BH2i, has_len.
  rewrite read_at_length by lia.
  destruct (Z.leb_spec (pos + 12) (Z.of_nat (List.length f))).
  - destruct (Z.eqb_spec (Z.min 12 (Z.max 0 (Z.of_nat (List.length f) - pos)))
                12); [|lia].
    erewrite bind_Ok by reflexivity. cbv beta iota zeta.
    erewrite bind_Ok by reflexivity.
    unfold fs_setitem.
    erewrite bind_Ok by (apply attr_Some; cbn; eassumption).
    eexists _, _. split; reflexivity.
  - destruct (Z.eqb_spec (Z.min 12 (Z.max 0 (Z.of_nat (List.length f) - pos)))
                12); [lia|].
    erewrite bind_Raise by reflexivity. reflexivity.
Qed.

Lemma read_entries_result (f : bytes) (n : nat) (pos : Z) (o : ftsreader)
  (d : dict BlockDescriptor) :
  fs o = Some d -> 0 <= pos ->
  fst (read_entries f n pos o)
  = if Nat.eqb n 0 || (pos + 12 * Z.of_nat n <=? Z.of_nat (List.length f))
    then Ok tt else Raise StructError.
Proof.
  revert pos o d. induction n as [|k IH]; intros pos o d Hfs Hpos;
    [reflexivity|].
  cbn [read_entries Nat.eqb orb].
  pose proof (read_entry_result f pos o d Hfs Hpos) as H.
  destruct (Z.leb_spec (pos + 12) (Z.of_nat (List.length f))) as [Hfit|Hcut].
  - destruct H as [o1 [d1 [Hrun Hfs1]]].
    erewrite bind_Ok by exact Hrun.
    rewrite (IH (pos + 12) o1 d1 Hfs1) by lia.
    destruct k as [|k]; cbn [Nat.eqb orb].
    + destruct (Z.leb_spec (pos + 12 * Z.of_nat 1) (Z.of_nat (List.length f)));
        [reflexivity | lia].
    + destruct (Z.leb_spec (pos + 12 + 12 * Z.of_nat (S k))
                  (Z.of_nat (List.length f)));
        destruct (Z.leb_spec (pos + 12 * Z.of_nat (S (S k)))
                    (Z.of_nat (List.length f)));
        try reflexivity; lia.
  - erewrite bind_Raise by exact H. cbn [fst].
    destruct (Z.leb_spec (pos + 12 * Z.of_nat (S k))
                (Z.of_nat (List.length f))); [lia | reflexivity].
Qed.

Lemma sub_firstn (f : bytes) (m off len : nat) :
  (off + len <= m)%nat -> sub (firstn m f) off len = sub f off len.
Proof.
  intros H. unfold sub.
  rewrite skipn_firstn_comm, firstn_firstn. f_equal. lia.
Qed.

(** X10. [read_structure] succeeds exactly when the source has the 24 bytes
    of the global header, the directory offset in it is not negative, and
    the directory it announces lies within the source (or has no entry).
    A source shorter than 24 bytes or a directory that is cut short gives
    [struct.error]; a negative offset gives the error of [seek]. *)
Theorem read_structure_outcome (disk : string -> option bytes)
  (o : ftsreader) (f : bytes) :
  source disk (path o) (filemode o) (streamdata o) = Ok f ->
  let size := Z.of_nat (List.length f) in
  let offset1 := le_int32 (sub f 12 4) in
  let numberofblocks := le_int32 (sub f 20 4) in
  fst (read_structure disk o)
  = if size <? 24 then Raise StructError
    else if offset1 <? 0
    then Raise (if String.eqb (filemode o) "hdd" then OSError else ValueError)
    else if (numberofblocks <=? 0) || (offset1 + 12 * numberofblocks <=? size)
    then Ok tt
    else Raise StructError.
Proof.
  intros Hs size offset1 numberofblocks.
  unfold read_structure.
  erewrite bind_Ok by reflexivity.
  erewrite bind_Ok by (rewrite getfileobject_eq; cbn; rewrite Hs; reflexivity).
  erewrite bind_Ok by (apply seek_ok; lia).
  erewrite bind_Ok by reflexivity.
  unfold unpack_6i, has_len.
  change 24 with (Z.of_nat 24) at 1. rewrite read_at_0.
  rewrite length_firstn.
  fold size.
  destruct (Z.ltb_spec size 24) as [Hshort|Hlong].
  - destruct (Z.eqb_spec (Z.of_nat (Nat.min 24 (List.length f))) 24);
      [unfold size in Hshort; lia|].
    erewrite bind_Raise by reflexivity. reflexivity.
  - destruct (Z.eqb_spec (Z.of_nat (Nat.min 24 (List.length f))) 24);
      [|unfold size in Hlong; lia].
    erewrite bind_Ok by reflexivity. cbv beta iota zeta.
    change 24 with (Z.of_nat 24); rewrite read_at_0.
    rewrite !sub_firstn by lia.
    fold offset1. fold numberofblocks.
    destruct (Z.ltb_spec offset1 0) as [Hneg|Hpos].
    + erewrite bind_Raise by (apply seek_neg; lia). reflexivity.
    + erewrite bind_Ok by (apply seek_ok; lia).
      erewrite read_entries_result by (try reflexivity; lia).
      fold size.
      destruct (Z.leb_spec numberofblocks 0) as [Hn|Hn].
      * replace (Z.to_nat numberofblocks) with 0%nat by lia. reflexivity.
      * rewrite Z2Nat.id by lia.
        destruct (Z.to_nat numberofblocks) eqn:E; [lia|]. reflexivity.
Qed.

Lemma read_structure_outcome_witness :
  fst (read_structure nodisk (new "" false "mem" (Some ifg_file)))
  = Ok tt.
Proof.
  rewrite (read_structure_outcome nodisk
             (new "" false "mem" (Some ifg_file)) ifg_file eq_refl).
  vm_compute. reflexivity.
Defined.

(** ** The smoother: when it returns *)

Lemma length_slice {A} (a : list A) (i j : Z) :
  List.length (slice a (Some i) (Some j))
  = (slice_index (List.length a) j - slice_index (List.length a) i)%nat.
Proof.
  unfold slice, slice_bounds.
  rewrite length_firstn, length_skipn.
  assert (slice_index (List.length a) j <= List.length a)%nat
    by (unfold slice_index; lia).
  lia.
Qed.

Lemma length_crop_inside (ifg : list R) (pkl l0 : Z) :
  0 <= l0 <= 2 * pkl ->
  2 * pkl + l0 <= 2 * Z.of_nat (List.length ifg) + 1 ->
  List.length (crop ifg pkl l0) = Z.to_nat l0.
Proof.
  intros H1 H2. unfold crop. rewrite length_slice. unfold slice_index.
  destruct (Z.ltb_spec (Z.quot (2 * pkl + l0) 2) 0);
    destruct (Z.ltb_spec (Z.quot (2 * pkl - l0) 2) 0);
    Z.to_euclidean_division_equations; lia.
Qed.

Lemma length_crop_outside (ifg : list R) (pkl l0 : Z) :
  0 <= pkl -> 1 <= l0 ->
  2 * pkl < l0 \/ 2 * Z.of_nat (List.length ifg) + 1 < 2 * pkl + l0 ->
  (List.length (crop ifg pkl l0) < Z.to_nat l0)%nat.
Proof.
  intros H0 H1 H2. unfold crop. rewrite length_slice. unfold slice_index.
  destruct (Z.ltb_spec (Z.quot (2 * pkl + l0) 2) 0);
    destruct (Z.ltb_spec (Z.quot (2 * pkl - l0) 2) 0);
    Z.to_euclidean_division_equations; lia.
Qed.

Lemma cutoff_index_axis_pos (n : nat) (lwn cutoff : R) :
  (2 <= n)%nat -> lwn <> 0%R -> (0 < cutoff)%R ->
  (1 <= cutoff_index (wavenumber_axis n lwn) cutoff)%nat.
Proof.
  intros Hn Hl Hc. unfold wavenumber_axis.
  destruct (n / 2)%nat eqn:E.
  - assert (1 <= n / 2)%nat by (apply Nat.div_le_lower_bound; lia). lia.
  - cbn [seq map]. apply cutoff_index_pos.
    rewrite wvn_value_eq by (assumption || lia).
    cbn [INR]. replace (2 * lwn * 0 / INR n)%R with 0%R; [assumption|].
    unfold Rdiv. ring.
Qed.

(** X11. [smooth_ifg] returns whenever the window has at least 20 points
    and lies within the interferogram ([l0/2 <= pkl] and
    [int(pkl + l0/2) <= len(ifg)]), [lwn] is not zero and the cutoff is
    positive.  The smoothed interferogram, the filtered spectrum and the
    apodization function then all have [l0] points, and the wavenumber
    axis has [l0 // 2]. *)
Theorem smooth_ifg_returns (ifg : list R) (pkl : Z) (lwn cutoff : R)
  (l0 : Z) :
  20 <= l0 ->
  l0 <= 2 * pkl ->
  2 * pkl + l0 <= 2 * Z.of_nat (List.length ifg) + 1 ->
  lwn <> 0%R ->
  (0 < cutoff)%R ->
  exists s,
    smooth_ifg ifg pkl lwn cutoff l0 = Ok s
    /\ List.length (ifg_s s) = Z.to_nat l0
    /\ List.length (ys s) = Z.to_nat l0
    /\ List.length (a1 s) = Z.to_nat l0
    /\ List.length (wvn s) = (Z.to_nat l0 / 2)%nat.
Proof.
  intros H20 Hlo Hhi Hlwn Hcut.
  assert (Hcrop : List.length (crop ifg pkl l0) = Z.to_nat l0)
    by (apply length_crop_inside; lia).
  assert (Hl : (1 <= cutoff_index (wavenumber_axis (Z.to_nat l0) lwn)
                      cutoff)%nat)
    by (apply cutoff_index_axis_pos; (assumption || lia)).
  destruct (smooth_ifg_run ifg pkl lwn cutoff l0 H20 Hcrop Hlwn Hl)
    as [w [a2 [Hw [Hlw [Ha2 [Hla2 Hrun]]]]]].
  assert (Hys : List.length
                  (zip_with Cmul a2 (spectrum (apodized ifg pkl l0 w)))
                = Z.to_nat l0).
  { assert (Hsp : List.length (spectrum (apodized ifg pkl l0 w))
                  = Z.to_nat l0).
    { unfold spectrum, apodized.
      rewrite length_dft, length_map, length_zip_with;
        rewrite length_map; congruence. }
    rewrite length_zip_with; congruence. }
  eexists. split; [exact Hrun|]. cbn [ifg_s ys a1 wvn].
  repeat split.
  - rewrite !length_map, length_dft. exact Hys.
  - exact Hys.
  - exact Hlw.
  - unfold wavenumber_axis. rewrite length_map, length_seq. reflexivity.
Qed.

Lemma smooth_ifg_returns_witness :
  exists s,
    smooth_ifg (repeat 1%R 20) 10 1%R 1%R 20 = Ok s
    /\ List.length (ifg_s s) = Z.to_nat 20
    /\ List.length (ys s) = Z.to_nat 20
    /\ List.length (a1 s) = Z.to_nat 20
    /\ List.length (wvn s) = (Z.to_nat 20 / 2)%nat.
Proof.
  apply smooth_ifg_returns; cbn; try lia; lra.
Defined.

(** X12. When the window of at least 20 points around a peak position that
    is not negative reaches beyond the interferogram, before its first
    sample or after its last one, the crop is shorter than the apodization
    function and [smooth_ifg] fails with [ValueError], unless exactly one
    sample is left (which numpy broadcasts). *)
Theorem smooth_ifg_window_outside (ifg : list R) (pkl : Z) (lwn cutoff : R)
  (l0 : Z) :
  20 <= l0 ->
  0 <= pkl ->
  2 * pkl < l0 \/ 2 * Z.of_nat (List.length ifg) + 1 < 2 * pkl + l0 ->
  List.length (crop ifg pkl l0) <> 1%nat ->
  smooth_ifg ifg pkl lwn cutoff l0 = Raise ValueError.
Proof.
  intros H20 Hpkl Hout H1.
  assert (Hlt : (List.length (crop ifg pkl l0) < Z.to_nat l0)%nat)
    by (apply length_crop_outside; (assumption || lia)).
  destruct (apodization_length l0 H20) as [w [Hw Hlw]].
  unfold smooth_ifg. rewrite Hw. cbn [rbind].
  unfold mul. rewrite length_map, Hlw.
  destruct (Nat.eqb_spec (List.length (crop ifg pkl l0)) (Z.to_nat l0));
    [lia|].
  destruct (crop ifg pkl l0) as [|x [|x' r]] eqn:E; cbn [map List.length] in *.
  - destruct w as [|y [|y' w']]; cbn [List.length] in Hlw;
      [lia | lia | reflexivity].
  - congruence.
  - destruct w as [|y [|y' w']]; cbn [List.length] in Hlw;
      [lia | lia | reflexivity].
Qed.

Lemma smooth_ifg_window_outside_witness :
  smooth_ifg (repeat 1%R 20) 5 1%R 1%R 20 = Raise ValueError.
Proof.
  apply smooth_ifg_window_outside; cbn; try lia. discriminate.
Defined.

(** ** The smoother removes a constant offset *)

Lemma slice_map {A B} (g : A -> B) (a : list A) (i j : option Z) :
  slice (map g a) i j = map g (slice a i j).
Proof.
  unfold slice. rewrite length_map.
  destruct (slice_bounds (List.length a) i j) as [lo hi].
  rewrite skipn_map, firstn_map. reflexivity.
Qed.

Lemma Rleb_shift (c x y : R) : Rleb (x + c) (y + c) = Rleb x y.
Proof.
  unfold Rleb.
  destruct (Rle_dec (x + c) (y + c)), (Rle_dec x y); try reflexivity;
    exfalso; lra.
Qed.

Lemma insert_shift (c x : R) (l : list R) :
  insert (x + c) (map (fun y => y + c)%R l)
  = map (fun y => y + c)%R (insert x l).
Proof.
  induction l as [|y r IH]; [reflexivity|].
  cbn [map insert]. rewrite Rleb_shift.
  destruct (Rleb x y); cbn [map]; [reflexivity|]. rewrite IH. reflexivity.
Qed.

Lemma sort_shift (c : R) (l : list R) :
  sort (map (fun y => y + c)%R l) = map (fun y => y + c)%R (sort l).
Proof.
  unfold sort. induction l as [|x r IH]; [reflexivity|].
  cbn [map fold_right]. rewrite IH. apply insert_shift.
Qed.

Lemma length_insert (x : R) (l : list R) :
  List.length (insert x l) = S (List.length l).
Proof.
  induction l as [|y r IH]; [reflexivity|].
  cbn [insert]. destruct (Rleb x y); cbn [List.length]; lia.
Qed.

Lemma length_sort (l : list R) : List.length (sort l) = List.length l.
Proof.
  unfold sort. induction l as [|x r IH]; [reflexivity|].
  cbn [fold_right]. rewrite length_insert. cbn [List.length]. lia.
Qed.

Lemma nth_shift (c : R) (l : list R) (k : nat) :
  (k < List.length l)%nat ->
  nth k (map (fun y => y + c)%R l) 0%R = (nth k l 0 + c)%R.
Proof.
  intros H.
  rewrite (nth_indep _ 0%R (0 + c)%R) by (rewrite length_map; exact H).
  apply (map_nth (fun y => y + c)%R).
Qed.

Lemma median_shift (c : R) (a : list R) :
  a <> [] ->
  median (map (fun y => y + c)%R a) = (median a + c)%R.
Proof.
  intros Hne. unfold median. rewrite length_map, sort_shift.
  assert (Hn : (1 <= List.length a)%nat)
    by (destruct a; [congruence | cbn; lia]).
  assert (Hhalf : (List.length a / 2 < List.length a)%nat)
    by (apply Nat.div_lt; lia).
  rewrite !nth_shift by (rewrite length_sort; lia).
  destruct (Nat.even (List.length a)); [field | reflexivity].
Qed.

(** X13. [smooth_ifg] removes a constant offset: over the reals, adding the
    same number to every sample of the interferogram changes nothing of
    what it returns, nor whether it fails. *)
Theorem smooth_ifg_offset (ifg : list R) (c : R) (pkl : Z) (lwn cutoff : R)
  (l0 : Z) :
  smooth_ifg (map (fun y => y + c)%R ifg) pkl lwn cutoff l0
  = smooth_ifg ifg pkl lwn cutoff l0.
Proof.
  unfold smooth_ifg, crop. rewrite slice_map.
  set (ifg0 := slice ifg _ _).
  replace (map (fun x => x - median (map (fun y => y + c) ifg0))
             (map (fun y => y + c) ifg0))%R
    with (map (fun x => x - median ifg0)%R ifg0); [reflexivity|].
  rewrite map_map. destruct ifg0 as [|x r] eqn:E; [reflexivity|].
  rewrite median_shift by discriminate.
  apply map_ext. intros y. ring.
Qed.

(** ** The wavenumber axis and the cutoff *)

Lemma mono_filter_prefix (g : nat -> R) (c : R) (a m : nat) :
  (forall j k, (j <= k)%nat -> (g j <= g k)%R) ->
  let xs := map g (seq a m) in
  filter (fun nu => Rltb nu c) xs = firstn (cutoff_index xs c) xs
  /\ forall k, (k < m)%nat ->
       ((g (a + k)%nat < c)%R <-> (k < cutoff_index xs c)%nat).
Proof.
  intros Hg. revert a. induction m as [|m IH]; intros a xs; subst xs.
  - split; [reflexivity|]. intros k Hk. lia.
  - cbn [seq map]. destruct (IH (S a)) as [IH1 IH2].
    set (r := map g (seq (S a) m)) in *.
    destruct (Rlt_dec (g a) c) as [Hlt|Hge].
    + assert (Hidx : cutoff_index (g a :: r) c = S (cutoff_index r c)).
      { unfold cutoff_index. cbn [filter]. unfold Rltb at 1.
        destruct (Rlt_dec (g a) c); [reflexivity | contradiction]. }
      rewrite Hidx. cbn [filter firstn]. unfold Rltb at 1.
      destruct (Rlt_dec (g a) c); [|contradiction].
      split; [f_equal; exact IH1|].
      intros [|k] Hk.
      * rewrite Nat.add_0_r. split; intros; [lia | assumption].
      * replace (a + S k)%nat with (S a + k)%nat by lia.
        rewrite IH2 by lia. lia.
    + assert (Hall : forall nu, In nu (g a :: r) -> (c <= nu)%R).
      { intros nu [<-|Hin]; [lra|].
        apply in_map_iff in Hin. destruct Hin as [k [<- Hk]].
        apply in_seq in Hk.
        assert (g a <= g k)%R by (apply Hg; lia). lra. }
      pose proof (cutoff_index_none (g a :: r) c Hall) as Hidx.
      rewrite Hidx. split.
      * unfold cutoff_index in Hidx.
        apply length_zero_iff_nil in Hidx. exact Hidx.
      * intros k Hk. split; [|lia].
        intros Hlt. exfalso.
        assert (g a <= g (a + k)%nat)%R by (apply Hg; lia). lra.
Qed.

Lemma wvn_value_le (n : nat) (lwn : R) (j k : nat) :
  (1 <= n)%nat -> (0 < lwn)%R -> (j <= k)%nat ->
  (wvn_value n lwn j <= wvn_value n lwn k)%R.
Proof.
  intros Hn Hl Hjk.
  assert (0 < INR n)%R by (apply lt_0_INR; lia).
  rewrite !wvn_value_eq by (lia || lra).
  apply le_INR in Hjk.
  unfold Rdiv. apply Rmult_le_compat_r; [left; now apply Rinv_0_lt_compat|].
  nra.
Qed.

Lemma wvn_value_lt (n : nat) (lwn : R) (j k : nat) :
  (1 <= n)%nat -> (0 < lwn)%R -> (j < k)%nat ->
  (wvn_value n lwn j < wvn_value n lwn k)%R.
Proof.
  intros Hn Hl Hjk.
  assert (0 < INR n)%R by (apply lt_0_INR; lia).
  rewrite !wvn_value_eq by (lia || lra).
  apply lt_INR in Hjk.
  unfold Rdiv. apply Rmult_lt_compat_r; [now apply Rinv_0_lt_compat|].
  nra.
Qed.

(** X14. For a positive [lwn] the wavenumber axis increases strictly from
    0, so the entries below the cutoff come first: the slice [wvn[:l]]
    from which the filter window is computed is exactly [wvn[wvn<cutoff]],
    and entry [k] is below the cutoff exactly when [k < l]. *)
Theorem cutoff_index_splits_axis (n : nat) (lwn cutoff : R) :
  (1 <= n)%nat ->
  (0 < lwn)%R ->
  let axis := wavenumber_axis n lwn in
  let l := cutoff_index axis cutoff in
  wavenumbers n lwn = Ok axis
  /\ (forall j k, (j < k < n / 2)%nat ->
        (nth j axis 0 < nth k axis 0)%R)
  /\ slice axis None (Some (Z.of_nat l))
     = filter (fun nu => Rltb nu cutoff) axis
  /\ (forall k, (k < n / 2)%nat ->
        ((nth k axis 0 < cutoff)%R <-> (k < l)%nat)).
Proof.
  intros Hn Hl axis l.
  destruct (mono_filter_prefix (wvn_value n lwn) cutoff 0 (n / 2)) as [Hpre Hiff].
  { intros j k Hjk. now apply wvn_value_le. }
  fold (wavenumber_axis n lwn) in Hpre, Hiff. fold axis in Hpre, Hiff.
  fold l in Hpre, Hiff.
  assert (Hlen : List.length axis = (n / 2)%nat)
    by (unfold axis, wavenumber_axis;
        rewrite length_map, length_seq; reflexivity).
  assert (Hnth : forall k, (k < n / 2)%nat ->
                   nth k axis 0%R = wvn_value n lwn k).
  { intros k Hk. unfold axis, wavenumber_axis.
    rewrite (nth_indep _ 0%R (wvn_value n lwn 0))
      by (rewrite length_map, length_seq; exact Hk).
    rewrite map_nth, seq_nth by exact Hk. reflexivity. }
  split; [apply wavenumbers_ok; (assumption || lra)|].
  split; [|split].
  - intros j k Hjk. rewrite !Hnth by lia. apply wvn_value_lt; (lia || lra).
  - rewrite slice_prefix. symmetry. exact Hpre.
  - intros k Hk. rewrite Hnth by exact Hk. apply (Hiff k Hk).
Qed.

Lemma cutoff_index_splits_axis_witness :
  slice (wavenumber_axis 20 1) None
    (Some (Z.of_nat (cutoff_index (wavenumber_axis 20 1) 1)))
  = filter (fun nu => Rltb nu 1) (wavenumber_axis 20 1).
Proof.
  assert (H1 : (1 <= 20)%nat) by lia.
  assert (H2 : (0 < 1)%R) by lra.
  exact (proj1 (proj2 (proj2 (cutoff_index_splits_axis 20 1 1 H1 H2)))).
Defined.

(** ** The two windows never amplify *)

Lemma ramp_bounds (l : Z) (x : R) :
  In x (ramp l) -> (0 <= x <= 1)%R.
Proof.
  unfold ramp. intros H. apply in_map_iff in H.
  destruct H as [k [<- _]].
  pose proof (COS_bound (PI * k / IZR l)) as [Hlo Hhi].
  split; nra.
Qed.

Lemma sfunc_bounds (cutoff nu : R) : (0 <= sfunc cutoff nu <= 1)%R.
Proof.
  split; [|apply sfunc_le_1].
  unfold sfunc. apply pow2_ge_0.
Qed.

(** X15. Whenever the apodization function [a1] is built, it reads the
    same from both ends and each of its weights lies between 0 and 1. *)
Theorem apodization_symmetric_bounded (l0 : Z) (w : list R) :
  apodization l0 = Ok w ->
  rev w = w /\ forall x, In x w -> (0 <= x <= 1)%R.
Proof.
  intros Hw.
  destruct (Z.le_gt_cases 20 l0) as [H20|Hsmall].
  - rewrite (apodization_ok l0 H20) in Hw.
    assert (Hw' : w = rev (ramp (Z.of_nat (Z.to_nat l0 / 20)))
                      ++ repeat 1%R (Z.to_nat l0 - 2 * (Z.to_nat l0 / 20))
                      ++ ramp (Z.of_nat (Z.to_nat l0 / 20)))
      by congruence.
    subst w. split.
    + rewrite !rev_app_distr, rev_involutive, rev_repeat, app_assoc.
      reflexivity.
    + intros x Hx. rewrite !in_app_iff in Hx.
      destruct Hx as [Hx|[Hx|Hx]].
      * apply in_rev in Hx. exact (ramp_bounds _ _ Hx).
      * apply repeat_spec in Hx. subst x. lra.
      * exact (ramp_bounds _ _ Hx).
  - destruct (Z.eq_dec l0 0) as [->|Hne].
    + rewrite apodization_0 in Hw.
      assert (w = []) by congruence. subst w.
      split; [reflexivity | intros x []].
    + destruct (Z.lt_ge_cases l0 0) as [Hneg|Hpos].
      * rewrite (apodization_negative l0 Hneg) in Hw. discriminate.
      * rewrite apodization_small in Hw by lia. discriminate.
Qed.

Lemma apodization_symmetric_bounded_witness :
  exists w,
    apodization 20 = Ok w
    /\ rev w = w /\ forall x, In x w -> (0 <= x <= 1)%R.
Proof.
  assert (H : 20 <= 20) by lia.
  eexists. split; [exact (apodization_ok 20 H)|].
  exact (apodization_symmetric_bounded 20 _ (apodization_ok 20 H)).
Defined.

Lemma sfunc_decreasing (cutoff x y : R) :
  (0 < cutoff)%R -> (0 <= x < y)%R -> (y < cutoff)%R ->
  (sfunc cutoff y < sfunc cutoff x)%R.
Proof.
  intros Hc Hxy Hy. unfold sfunc.
  pose proof PI_RGT_0 as Hpi.
  assert (Hinv : (0 < / (2 * cutoff))%R)
    by (apply Rinv_0_lt_compat; lra).
  assert (Hx : (0 <= PI * x / (2 * cutoff))%R)
    by (unfold Rdiv; apply Rmult_le_pos; [nra | lra]).
  assert (Hlt : (PI * x / (2 * cutoff) < PI * y / (2 * cutoff))%R)
    by (unfold Rdiv; apply Rmult_lt_compat_r; [lra | nra]).
  assert (Hhalf : (PI * y / (2 * cutoff) < PI / 2)%R).
  { replace (PI / 2)%R with (PI * cutoff / (2 * cutoff))%R
      by (field; lra).
    unfold Rdiv. apply Rmult_lt_compat_r; [lra | nra]. }
  assert (Hcos : (cos (PI * y / (2 * cutoff))
                  < cos (PI * x / (2 * cutoff)))%R)
    by (apply cos_decreasing_1; lra).
  assert (Hpos : (0 < cos (PI * y / (2 * cutoff)))%R)
    by (apply cos_gt_0; lra).
  nra.
Qed.

(** X16. For a window of at least two points, a positive [lwn] and a
    positive cutoff, the filter window [a2] is real with weights between 0
    and 1; its weight is 1 at wavenumber 0 and decreases strictly over the
    bins below the cutoff. *)
Theorem filter_window_taper (n : nat) (lwn cutoff : R) :
  (2 <= n)%nat ->
  (0 < lwn)%R ->
  (0 < cutoff)%R ->
  let l := cutoff_index (wavenumber_axis n lwn) cutoff in
  exists a2,
    filter_window n (wavenumber_axis n lwn) cutoff = Ok a2
    /\ (1 <= l)%nat
    /\ nth 0 a2 C0 = (1%R, 0%R)
    /\ (forall j k, (j < k < l)%nat ->
          (fst (nth k a2 C0) < fst (nth j a2 C0))%R)
    /\ (forall z, In z a2 -> snd z = 0%R /\ (0 <= fst z <= 1)%R).
Proof.
  intros Hn Hl Hc l.
  assert (H1 : (1 <= l)%nat)
    by (apply cutoff_index_axis_pos; (assumption || lra)).
  assert (Hlen : List.length (wavenumber_axis n lwn) = (n / 2)%nat)
    by (unfold wavenumber_axis; rewrite length_map, length_seq;
        reflexivity).
  assert (H2 : (2 * List.length (wavenumber_axis n lwn) <= n)%nat)
    by (rewrite Hlen; apply Nat.Div0.mul_div_le).
  pose proof (filter_window_ok n (wavenumber_axis n lwn) cutoff H1 H2)
    as Hok.
  fold l in Hok.
  assert (Hle : (l <= n / 2)%nat)
    by (rewrite <- Hlen; apply cutoff_index_le).
  assert (Hval : forall i, (i < l)%nat ->
            nth i (map of_real (map (sfunc cutoff)
                                  (firstn l (wavenumber_axis n lwn)))
                   ++ repeat C0 (n - 2 * l)
                   ++ map of_real (map (sfunc cutoff)
                                     (rev (firstn l (wavenumber_axis n lwn)))))
                C0
            = of_real (sfunc cutoff (wvn_value n lwn i))).
  { intros i Hi.
    destruct (filter_window_nth_low n lwn cutoff i Hi) as [a2 [Ha2 [_ Hn2]]].
    rewrite Hok in Ha2. injection Ha2 as <-. exact Hn2. }
  destruct (mono_filter_prefix (wvn_value n lwn) cutoff 0 (n / 2))
    as [_ Hiff].
  { intros j k Hjk. apply wvn_value_le; (lia || lra). }
  fold (wavenumber_axis n lwn) in Hiff. fold l in Hiff.
  eexists. split; [exact Hok|]. split; [exact H1|].
  split; [|split].
  - rewrite Hval by lia. unfold of_real. f_equal.
    rewrite wvn_value_eq by (lia || lra). unfold sfunc. cbn [INR].
    replace (PI * (2 * lwn * 0 / INR n) / (2 * cutoff))%R with 0%R
      by (unfold Rdiv; ring).
    rewrite cos_0. ring.
  - intros j k Hjk. rewrite !Hval by lia. unfold of_real. cbn [fst].
    apply sfunc_decreasing; [exact Hc | |].
    + split.
      * apply (wvn_value_bounds n lwn j); (lia || lra).
      * apply wvn_value_lt; (lia || lra).
    + apply (Hiff k); lia.
  - intros z Hz. rewrite !in_app_iff in Hz.
    destruct Hz as [Hz|[Hz|Hz]].
    + apply in_map_iff in Hz. destruct Hz as [x [<- Hx]].
      apply in_map_iff in Hx. destruct Hx as [nu [<- _]].
      split; [reflexivity | apply sfunc_bounds].
    + apply repeat_spec in Hz. subst z. cbn. split; [reflexivity | lra].
    + apply in_map_iff in Hz. destruct Hz as [x [<- Hx]].
      apply in_map_iff in Hx. destruct Hx as [nu [<- _]].
      split; [reflexivity | apply sfunc_bounds].
Qed.

Lemma filter_window_taper_witness :
  exists a2,
    filter_window 20 (wavenumber_axis 20 1) 1 = Ok a2
    /\ (1 <= cutoff_index (wavenumber_axis 20 1) 1)%nat
    /\ nth 0 a2 C0 = (1%R, 0%R)
    /\ (forall j k,
          (j < k < cutoff_index (wavenumber_axis 20 1) 1)%nat ->
          (fst (nth k a2 C0) < fst (nth j a2 C0))%R)
    /\ (forall z, In z a2 -> snd z = 0%R /\ (0 <= fst z <= 1)%R).
Proof.
  apply (filter_window_taper 20 1 1); [lia | lra | lra].
Defined.

(** ** What the methods leave alone *)

Lemma keeps_ret {A} (a : A) : keeps (ret a).
Proof. intros o. reflexivity. Qed.

Lemma keeps_raise {A} (e : exn) : keeps (@raise A e).
Proof. intros o. reflexivity. Qed.

Lemma keeps_lift {A} (r : result A) : keeps (lift r).
Proof. intros o. reflexivity. Qed.

Lemma keeps_get : keeps get.
Proof. intros o. reflexivity. Qed.

Lemma keeps_modify (f : ftsreader -> ftsreader) :
  (forall o, flags (f o) = flags o) -> keeps (modify f).
Proof. intros H o. apply H. Qed.

Lemma keeps_log_append (e : log_entry) : keeps (log_append e).
Proof. intros o. reflexivity. Qed.

Lemma keeps_bind {A B} (m : M A) (k : A -> M B) :
  keeps m -> (forall a, keeps (k a)) -> keeps (bind m k).
Proof.
  intros Hm Hk o. unfold bind. specialize (Hm o).
  destruct (m o) as [[a|e] o1]; cbn [snd] in *.
  - rewrite (Hk a o1). exact Hm.
  - exact Hm.
Qed.

Lemma keeps_try_except {A} (m : M A) (h : exn -> M A) :
  keeps m -> (forall e, keeps (h e)) -> keeps (try_except m h).
Proof.
  intros Hm Hh o. unfold try_except. specialize (Hm o).
  destruct (m o) as [[a|e] o1]; cbn [snd] in *.
  - exact Hm.
  - rewrite (Hh e o1). exact Hm.
Qed.

Ltac keeps_tac :=
  repeat first
    [ apply keeps_ret | apply keeps_raise | apply keeps_lift
    | apply keeps_get | apply keeps_log_append
    | apply keeps_modify; intros ?; reflexivity
    | apply keeps_bind; [|intros ?]
    | apply keeps_try_except; [|intros ?]
    | match goal with
      | |- keeps (if ?b then _ else _) => destruct b
      | |- keeps (match ?x with _ => _ end) => destruct x
      end ].

Lemma keeps_attr {A} (field : ftsreader -> option A) : keeps (attr field).
Proof.
  unfold attr. apply keeps_bind; [apply keeps_get|].
  intros o. destruct (field o); keeps_tac.
Qed.

Lemma keeps_getfileobject (disk : string -> option bytes) :
  keeps (getfileobject disk).
Proof. unfold getfileobject. keeps_tac. Qed.

Lemma keeps_seek (pos : Z) : keeps (seek pos).
Proof. unfold seek. keeps_tac. Qed.

Lemma keeps_read_entries (f : bytes) (n : nat) (pos : Z) :
  keeps (read_entries f n pos).
Proof.
  revert pos. induction n as [|k IH]; intros pos; cbn [read_entries].
  - apply keeps_ret.
  - apply keeps_bind; [|intros ?; apply IH].
    unfold read_entry, fs_setitem.
    apply keeps_bind; [apply keeps_lift|].
    intros [[[[bt bt2] r] len] off2]. cbv beta iota zeta.
    apply keeps_bind; [apply keeps_log_append|]. intros _.
    apply keeps_bind; [apply keeps_attr|]. intros cur.
    apply keeps_modify. intros o. reflexivity.
Qed.

Lemma keeps_read_structure (disk : string -> option bytes) :
  keeps (read_structure disk).
Proof.
  unfold read_structure.
  apply keeps_bind; [apply keeps_modify; intros o; reflexivity|]. intros _.
  apply keeps_bind; [apply keeps_getfileobject|]. intros f.
  apply keeps_bind; [apply keeps_seek|]. intros _.
  apply keeps_bind; [apply keeps_log_append|]. intros _.
  apply keeps_bind; [apply keeps_lift|].
  intros [[[[[a b] c] offset1] d] n]. cbv beta iota zeta.
  apply keeps_bind; [apply keeps_seek|]. intros _.
  apply keeps_read_entries.
Qed.

Lemma keeps_getparams_step (f : bytes) (offset : Z) (full : bool)
  (st : loop_state) : keeps (getparams_step f offset full st).
Proof.
  unfold getparams_step. destruct st as [[i params] fullblock].
  apply keeps_bind; [apply keeps_seek|]. intros _. cbv zeta.
  apply keeps_bind; [apply keeps_lift|].
  intros [[para0 thistype] length]. cbv beta iota zeta.
  match goal with |- keeps (if ?b then _ else _) => destruct b end;
    [|apply keeps_ret].
  apply keeps_bind; [apply keeps_seek|]. intros _.
  apply keeps_try_except.
  - apply keeps_bind; [apply keeps_lift|]. intros val.
    apply keeps_bind; [apply keeps_lift|]. intros key. apply keeps_ret.
  - intros e. apply keeps_bind; [apply keeps_log_append|]. intros _.
    apply keeps_ret.
Qed.

Lemma keeps_getparams_loop (fuel : nat) (f : bytes) (offset : Z)
  (full : bool) (st : loop_state) :
  keeps (getparams_loop fuel f offset full st).
Proof.
  revert st. induction fuel as [|k IH]; intros st; cbn [getparams_loop].
  - apply keeps_raise.
  - apply keeps_bind; [apply keeps_getparams_step|].
    intros [go st']. cbn [fst snd]. destruct go; [apply IH | apply keeps_ret].
Qed.

Lemma keeps_getparamsfromblock (disk : string -> option bytes)
  (offset length : Z) : keeps (getparamsfromblock disk offset length).
Proof.
  unfold getparamsfromblock, getparams_run.
  apply keeps_bind; [|intros ?; apply keeps_ret].
  apply keeps_bind; [apply keeps_getfileobject|]. intros f.
  apply keeps_getparams_loop.
Qed.

Lemma keeps_read_header_block (disk : string -> option bytes)
  (block : string) : keeps (read_header_block disk block).
Proof.
  unfold read_header_block, header_setitem.
  apply keeps_bind; [apply keeps_attr|]. intros cur.
  apply keeps_bind; [apply keeps_lift|]. intros d.
  match goal with |- keeps (if ?b then _ else _) => destruct b end;
    [|apply keeps_ret].
  match goal with |- keeps (if ?b then _ else _) => destruct b end;
    [apply keeps_ret|].
  apply keeps_try_except; [|intros e; apply keeps_log_append].
  apply keeps_bind; [apply keeps_log_append|]. intros _.
  apply keeps_bind; [apply keeps_getparamsfromblock|]. intros params.
  apply keeps_bind; [apply keeps_attr|]. intros h.
  apply keeps_modify. intros o. reflexivity.
Qed.

Lemma keeps_for_each {A} (xs : list A) (body : A -> M unit) :
  (forall x, keeps (body x)) -> keeps (for_each xs body).
Proof.
  intros H. induction xs as [|x r IH]; cbn [for_each].
  - apply keeps_ret.
  - apply keeps_bind; [apply H | intros _; exact IH].
Qed.

Lemma keeps_read_header (disk : string -> option bytes) :
  keeps (read_header disk).
Proof.
  unfold read_header.
  apply keeps_bind; [apply keeps_log_append|]. intros _.
  apply keeps_bind; [apply keeps_read_structure|]. intros _.
  apply keeps_bind; [apply keeps_modify; intros o; reflexivity|]. intros _.
  apply keeps_bind; [apply keeps_attr|]. intros cur.
  apply keeps_bind; [|intros _; apply keeps_ret].
  apply keeps_for_each. intros b. apply keeps_read_header_block.
Qed.

(** ** Methods that only write to the log *)

Lemma only_logs_ret {A} (a : A) : only_logs (ret a).
Proof. intros o. exists []. cbn. now rewrite ext_nil. Qed.

Lemma only_logs_raise {A} (e : exn) : only_logs (@raise A e).
Proof. intros o. exists []. cbn. now rewrite ext_nil. Qed.

Lemma only_logs_lift {A} (r : result A) : only_logs (lift r).
Proof. intros o. exists []. cbn. now rewrite ext_nil. Qed.

Lemma only_logs_get : only_logs get.
Proof. intros o. exists []. cbn. now rewrite ext_nil. Qed.

Lemma only_logs_log_append (e : log_entry) : only_logs (log_append e).
Proof. intros o. exists [e]. reflexivity. Qed.

Lemma only_logs_bind {A B} (m : M A) (k : A -> M B) :
  only_logs m -> (forall a, only_logs (k a)) -> only_logs (bind m k).
Proof.
  intros Hm Hk o. unfold bind. destruct (Hm o) as [l1 H1].
  destruct (m o) as [[a|e] o1]; cbn [snd] in *; subst o1.
  - destruct (Hk a (ext o l1)) as [l2 H2]. exists (l1 ++ l2).
    rewrite H2. apply ext_ext.
  - now exists l1.
Qed.

Lemma only_logs_try_except {A} (m : M A) (h : exn -> M A) :
  only_logs m -> (forall e, only_logs (h e)) -> only_logs (try_except m h).
Proof.
  intros Hm Hh o. unfold try_except. destruct (Hm o) as [l1 H1].
  destruct (m o) as [[a|e] o1]; cbn [snd] in *; subst o1.
  - now exists l1.
  - destruct (Hh e (ext o l1)) as [l2 H2]. exists (l1 ++ l2).
    rewrite H2. apply ext_ext.
Qed.

Lemma only_logs_attr {A} (field : ftsreader -> option A) :
  only_logs (attr field).
Proof.
  unfold attr. apply only_logs_bind; [apply only_logs_get|].
  intros o. destruct (field o); [apply only_logs_ret | apply only_logs_raise].
Qed.

Lemma only_logs_getfileobject (disk : string -> option bytes) :
  only_logs (getfileobject disk).
Proof.
  intros o. exists []. rewrite getfileobject_eq. cbn. now rewrite ext_nil.
Qed.

Lemma only_logs_seek (pos : Z) : only_logs (seek pos).
Proof.
  unfold seek. apply only_logs_bind; [apply only_logs_get|].
  intros o. destruct (pos <? 0); [apply only_logs_raise | apply only_logs_ret].
Qed.

Lemma only_logs_get_block (disk : string -> option bytes)
  (pointer length : Z) : only_logs (get_block disk pointer length).
Proof.
  unfold get_block.
  apply only_logs_bind; [apply only_logs_log_append|]. intros _.
  apply only_logs_bind; [apply only_logs_getfileobject|]. intros f.
  apply only_logs_bind; [apply only_logs_seek|]. intros _.
  apply only_logs_lift.
Qed.

Lemma only_logs_search_block (blockname : string) :
  only_logs (search_block blockname).
Proof.
  unfold search_block.
  apply only_logs_bind; [apply only_logs_attr|]. intros cur.
  destruct (dict_get blockname cur); [apply only_logs_ret|].
  apply only_logs_bind; [apply only_logs_log_append|]. intros _.
  apply only_logs_ret.
Qed.

Lemma only_logs_has_block (blockname : string) :
  only_logs (has_block blockname).
Proof.
  unfold has_block.
  apply only_logs_bind; [apply only_logs_attr|]. intros cur.
  apply only_logs_ret.
Qed.

Lemma only_logs_subscript {A} (x : option BlockDescriptor)
  (field : BlockDescriptor -> A) : only_logs (subscript x field).
Proof.
  unfold subscript.
  destruct x; [apply only_logs_ret | apply only_logs_raise].
Qed.

Lemma only_logs_header_item (block par : string) :
  only_logs (header_item block par).
Proof.
  unfold header_item.
  apply only_logs_bind; [apply only_logs_attr|]. intros h.
  apply only_logs_bind; [apply only_logs_lift|]. intros params.
  apply only_logs_lift.
Qed.

Lemma only_logs_spectral_axis (pars : string) (n : nat) :
  only_logs (spectral_axis pars n).
Proof.
  unfold spectral_axis.
  apply only_logs_bind; [apply only_logs_header_item|]. intros fxv.
  apply only_logs_bind; [apply only_logs_header_item|]. intros lxv.
  apply only_logs_bind; [apply only_logs_lift|]. intros ends.
  apply only_logs_ret.
Qed.

Lemma only_logs_xax_case (cond : bool) (msg : string) (mk : M linspace)
  (xax : option linspace) :
  only_logs mk -> only_logs (xax_case cond msg mk xax).
Proof.
  intros H. unfold xax_case. destruct cond; [|apply only_logs_ret].
  apply only_logs_bind; [apply only_logs_log_append|]. intros _.
  apply only_logs_bind; [exact H|]. intros x. apply only_logs_ret.
Qed.

Lemma only_logs_get_datablocks (disk : string -> option bytes)
  (block : string) : only_logs (get_datablocks disk block).
Proof.
  unfold get_datablocks.
  apply only_logs_bind; [apply only_logs_log_append|]. intros _.
  apply only_logs_bind; [apply only_logs_search_block|]. intros b1.
  apply only_logs_bind; [apply only_logs_subscript|]. intros off.
  apply only_logs_bind; [apply only_logs_search_block|]. intros b2.
  apply only_logs_bind; [apply only_logs_subscript|]. intros len.
  apply only_logs_bind; [apply only_logs_get_block|]. intros yax.
  cbv zeta.
  apply only_logs_bind.
  { apply only_logs_xax_case.
    apply only_logs_bind; [apply only_logs_header_item|]. intros res.
    apply only_logs_bind; [apply only_logs_lift|]. intros stop.
    apply only_logs_ret. }
  intros x1.
  do 4 (apply only_logs_bind;
        [apply only_logs_xax_case; apply only_logs_spectral_axis|];
        intros ?).
  match goal with |- only_logs (match ?x with _ => _ end) => destruct x end;
    [apply only_logs_ret | apply only_logs_raise].
Qed.

(** X17. [read_header], whether it returns or raises, changes nothing but
    the log, the directory and the header: [status] and [isftsfile] stay
    as they were (a failed read leaves [status] true), and so do the
    interferogram, the path, the file mode, the stream data, the folder
    and the file name. *)
Theorem read_header_leaves (disk : string -> option bytes) (o : ftsreader) :
  let o' := snd (read_header disk o) in
  status o' = status o
  /\ isftsfile o' = isftsfile o
  /\ ifgopd o' = ifgopd o
  /\ ifg o' = ifg o
  /\ verbose o' = verbose o
  /\ path o' = path o
  /\ filemode o' = filemode o
  /\ streamdata o' = streamdata o
  /\ folder o' = folder o
  /\ filename o' = filename o.
Proof.
  intros o'. pose proof (keeps_read_header disk o) as H.
  fold o' in H. unfold flags in H.
  injection H as H1 H2 H3 H4 H5 H6 H7 H8 H9 H10.
  repeat split; assumption.
Qed.

(** X18. The methods that look up and read data blocks ([has_block],
    [search_block], [get_block], [get_datablocks]) change nothing of the
    reader but its log, to which they only append, whether they return or
    raise. *)
Theorem data_block_methods_only_log (disk : string -> option bytes)
  (block : string) (pointer length : Z) (o : ftsreader) :
  (exists l, snd (has_block block o) = ext o l)
  /\ (exists l, snd (search_block block o) = ext o l)
  /\ (exists l, snd (get_block disk pointer length o) = ext o l)
  /\ (exists l, snd (get_datablocks disk block o) = ext o l).
Proof.
  split; [apply only_logs_has_block|].
  split; [apply only_logs_search_block|].
  split; [apply only_logs_get_block | apply only_logs_get_datablocks].
Qed.

(** ** The constructor *)

Lemma test_if_ftsfile_state (disk : string -> option bytes)
  (o : ftsreader) :
  let ok :=
    match source disk (path o) (filemode o) (streamdata o) with
    | Ok f => bytes_eqb (firstn 4 f) ftsmagicval
    | Raise _ => false
    end in
  exists l,
    test_if_ftsfile disk o
    = (Ok tt, set_isftsfile ok (set_status ok (ext o l))).
Proof.
  unfold test_if_ftsfile.
  unfold bind, try_except, log_append, modify at 1.
  rewrite getfileobject_eq. cbn [path filemode streamdata set_log].
  destruct (source disk (path o) (filemode o) (streamdata o)) as [f|e].
  - change 4 with (Z.of_nat 4). rewrite read_at_0.
    unfold seek, bind, get, ret. cbn [Z.ltb Z.compare].
    destruct (bytes_eqb (firstn 4 f) ftsmagicval).
    + destruct (verbose o) eqn:Hv; cbn -[firstn String.append];
        rewrite ?Hv; cbn -[firstn String.append];
        eexists; unfold ext, set_isftsfile, set_status, set_log;
        cbn -[firstn String.append]; rewrite <- ?app_assoc; reflexivity.
    + cbn -[firstn String.append].
      eexists; unfold ext, set_isftsfile, set_status, set_log;
        cbn -[firstn String.append]; rewrite <- ?app_assoc; reflexivity.
  - cbn -[String.append].
    eexists; unfold ext, set_isftsfile, set_status, set_log;
      cbn -[firstn String.append]; rewrite <- ?app_assoc; reflexivity.
Qed.

Lemma flags_ifg (o o' : ftsreader) : flags o' = flags o -> ifg o' = ifg o.
Proof. unfold flags. intros H. now injection H. Qed.

Lemma flags_status (o o' : ftsreader) :
  flags o' = flags o -> status o' = status o.
Proof. unfold flags. intros H. now injection H. Qed.

Lemma flags_isftsfile (o o' : ftsreader) :
  flags o' = flags o -> isftsfile o' = isftsfile o.
Proof. unfold flags. intros H. now injection H. Qed.

(** The [try] block of the constructor, for [getslices = False], on a
    reader without interferogram: either none is set, or all of this
    holds. *)
Lemma init_body_ifg (disk : string -> option bytes) (getifg : bool)
  (o : ftsreader) :
  ifg o = None ->
  let r := init_body disk getifg false o in
  ifg (snd r) = None
  \/ (fst r = Ok tt
      /\ getifg = true
      /\ (exists f, source disk (path o) (filemode o) (streamdata o) = Ok f
                    /\ firstn 4 f = ftsmagicval)
      /\ status (snd r) = true
      /\ isftsfile (snd r) = Some true
      /\ exists d h desc x y,
           fs (snd r) = Some d
           /\ header (snd r) = Some h
           /\ dict_get "Data Block IgSm" d = Some desc
           /\ ifgopd (snd r) = Some x
           /\ ifg (snd r) = Some y).
Proof.
  intros Hifg r. subst r. unfold init_body.
  erewrite bind_Ok by reflexivity.
  assert (Hfold : exists a b,
             (if 0 <? rfind "/" (path o)
              then modify (set_folder
                             (str_slice (path o) None
                                (Some (rfind "/" (path o))))
                             (str_slice (path o)
                                (Some (rfind "/" (path o) + 1)) None))
              else modify (set_folder "./" (path o))) o
             = (Ok tt, set_folder a b o))
    by (destruct (0 <? rfind "/" (path o)); eexists _, _; reflexivity).
  destruct Hfold as [a [b Hfold]].
  erewrite bind_Ok by exact Hfold.
  set (o1 := set_folder a b o).
  cbn [negb].
  destruct (test_if_ftsfile_state disk o1) as [l Htest].
  change (source disk (path o1) (filemode o1) (streamdata o1))
    with (source disk (path o) (filemode o) (streamdata o)) in Htest.
  erewrite bind_Ok by exact Htest.
  erewrite bind_Ok by reflexivity.
  set (ok := match source disk (path o) (filemode o) (streamdata o) with
             | Ok f => bytes_eqb (firstn 4 f) ftsmagicval
             | Raise _ => false
             end) in *.
  set (o2 := set_isftsfile ok (set_status ok (ext o1 l))).
  change (status o2) with ok.
  destruct ok eqn:Hok.
  2:{ left. erewrite bind_Raise by reflexivity. exact Hifg. }
  assert (Hsrc : exists f,
             source disk (path o) (filemode o) (streamdata o) = Ok f
             /\ firstn 4 f = ftsmagicval).
  { subst ok.
    destruct (source disk (path o) (filemode o) (streamdata o)) as [f|e];
      [|discriminate].
    exists f. split; [reflexivity|].
    unfold bytes_eqb in Hok.
    now destruct (list_eq_dec Byte.byte_eq_dec (firstn 4 f) ftsmagicval). }
  pose proof (keeps_read_header disk o2) as Hkeep.
  destruct (read_header disk o2) as [[z|e] o3] eqn:Hrh; cbn [snd] in Hkeep.
  2:{ left. erewrite bind_Raise.
      2:{ erewrite bind_Raise; [reflexivity|].
          erewrite bind_Raise by exact Hrh. reflexivity. }
      cbn [snd]. rewrite (flags_ifg _ _ Hkeep). exact Hifg. }
  assert (Hz : z = 0).
  { pose proof (f_equal fst Hrh) as Hz. cbn [fst] in Hz.
    unfold read_header in Hz.
    repeat match type of Hz with
           | fst (bind ?m ?k ?s) = _ =>
               unfold bind at 1 in Hz;
               destruct (m s) as [[?|?] ?]; cbn [fst] in Hz;
               try discriminate
           end.
    unfold ret in Hz. cbn in Hz. congruence. }
  subst z.
  destruct (read_header_run disk o2 o3 Hrh) as [d [Hfs [Hwf Hh]]].
  assert (Hifg3 : ifg o3 = None) by (rewrite (flags_ifg _ _ Hkeep); exact Hifg).
  assert (Hst3 : status o3 = true) by (rewrite (flags_status _ _ Hkeep); reflexivity).
  assert (His3 : isftsfile o3 = Some true)
    by (rewrite (flags_isftsfile _ _ Hkeep); reflexivity).
  destruct getifg.
  2:{ left.
      erewrite bind_Ok.
      2:{ erewrite bind_Ok.
          2:{ erewrite bind_Ok by exact Hrh. reflexivity. }
          erewrite bind_Ok by reflexivity. cbn [andb].
          reflexivity. }
      erewrite bind_Ok by reflexivity.
      cbn [status verbose set_log]. rewrite Hst3. cbn [negb].
      rewrite andb_false_r. exact Hifg3. }
  destruct (dict_get "Data Block IgSm" d) as [desc|] eqn:Hget.
  2:{ left.
      erewrite bind_Ok.
      2:{ erewrite bind_Ok.
          2:{ erewrite bind_Ok by exact Hrh. reflexivity. }
          unfold has_block.
          erewrite bind_Ok.
          2:{ erewrite bind_Ok by (apply attr_Some; exact Hfs).
              reflexivity. }
          unfold dict_mem. rewrite Hget. cbn [andb]. reflexivity. }
      erewrite bind_Ok by reflexivity.
      cbn [status verbose set_log]. rewrite Hst3. cbn [negb].
      rewrite andb_false_r. exact Hifg3. }
  destruct (only_logs_get_datablocks disk "Data Block IgSm" o3) as [l4 Hl4].
  destruct (get_datablocks disk "Data Block IgSm" o3) as [[[x y]|e] o4]
    eqn:Hgd; cbn [snd] in Hl4; subst o4.
  2:{ left.
      erewrite bind_Raise.
      2:{ erewrite bind_Ok.
          2:{ erewrite bind_Ok by exact Hrh. reflexivity. }
          unfold has_block.
          erewrite bind_Ok.
          2:{ erewrite bind_Ok by (apply attr_Some; exact Hfs).
              reflexivity. }
          unfold dict_mem. rewrite Hget. cbn [andb].
          erewrite bind_Raise by exact Hgd. reflexivity. }
      exact Hifg3. }
  right.
  erewrite bind_Ok.
  2:{ erewrite bind_Ok.
      2:{ erewrite bind_Ok by exact Hrh. reflexivity. }
      unfold has_block.
      erewrite bind_Ok.
      2:{ erewrite bind_Ok by (apply attr_Some; exact Hfs).
          reflexivity. }
      unfold dict_mem. rewrite Hget. cbn [andb].
      erewrite bind_Ok by exact Hgd. reflexivity. }
  erewrite bind_Ok by reflexivity.
  cbn [status verbose set_ifg ext set_log]. rewrite Hst3. cbn [negb].
  rewrite andb_false_r. cbn [fst snd ret].
  split; [reflexivity|]. split; [reflexivity|]. split; [exact Hsrc|].
  split; [exact Hst3|]. split; [exact His3|].
  exists d, (header_of disk o2 d), desc, x, y.
  repeat split; assumption.
Qed.

(** X19. The constructor (with [getslices] not set) loads an interferogram
    only when it was asked for, the source opens and begins with the magic
    bytes, and the directory read from it has a ['Data Block IgSm'];
    [status] and [isftsfile] are then true, and the directory, the header
    and the x-axis are set.  In every other case the reader is left
    without interferogram. *)
Theorem init_interferogram (disk : string -> option bytes) (path : string)
  (verbose getifg : bool) (filemode : string) (streamdata : option bytes)
  (y : list Z) :
  let o := init disk path verbose getifg false filemode streamdata in
  ifg o = Some y ->
  getifg = true
  /\ (exists f, source disk path filemode streamdata = Ok f
                /\ firstn 4 f = ftsmagicval)
  /\ status o = true
  /\ isftsfile o = Some true
  /\ exists d h desc x,
       fs o = Some d
       /\ header o = Some h
       /\ dict_get "Data Block IgSm" d = Some desc
       /\ ifgopd o = Some x.
Proof.
  intros o Hy. subst o. unfold init in *.
  erewrite bind_Ok in * by reflexivity.
  set (o1 := set_log (log (new path verbose filemode streamdata)
                      ++ [Msg "Initializing"])
               (new path verbose filemode streamdata)) in *.
  assert (Hnone : ifg o1 = None) by reflexivity.
  pose proof (init_body_ifg disk getifg o1 Hnone) as Hbody.
  cbv zeta in Hbody. unfold try_except in *.
  destruct (init_body disk getifg false o1) as [[[]|e] o2];
    cbn [fst snd] in *.
  - destruct Hbody as [Hn|[_ [Hg [Hsrc [Hst [His Hrest]]]]]];
      [congruence|].
    destruct Hrest as [d [h [desc [x [y' [Hfs [Hh [Hget [Hx _]]]]]]]]].
    split; [exact Hg|]. split; [exact Hsrc|].
    split; [exact Hst|]. split; [exact His|].
    exists d, h, desc, x. repeat split; assumption.
  - destruct Hbody as [Hn|[Hok _]]; [|discriminate].
    cbn [log_append modify snd set_log ifg] in Hy. congruence.
Qed.

Lemma init_interferogram_witness :
  let o := init nodisk "" false true false "mem" (Some ifg_file) in
  ifg o = Some [1; 4294967294]
  /\ status o = true
  /\ isftsfile o = Some true.
Proof.
  assert (Hy : ifg (init nodisk "" false true false "mem" (Some ifg_file))
               = Some [1; 4294967294])
    by (vm_compute; reflexivity).
  split; [exact Hy|].
  destruct (init_interferogram nodisk "" false true "mem" (Some ifg_file)
              [1; 4294967294] Hy) as [_ [_ [Hst [His _]]]].
  split; assumption.
Defined.

(** X20. With [getslices] set the constructor opens nothing: whatever the
    path, the disk and the stream data, it leaves [status] true and sets
    neither [isftsfile] nor the directory nor the header.  When an
    interferogram is asked for as well, [has_block] fails on the missing
    directory and the [AttributeError] ends in the log; no interferogram
    is ever loaded. *)
Theorem init_getslices (disk : string -> option bytes) (path : string)
  (verbose getifg : bool) (filemode : string) (streamdata : option bytes) :
  let o := init disk path verbose getifg true filemode streamdata in
  status o = true
  /\ isftsfile o = None
  /\ fs o = None
  /\ header o = None
  /\ ifgopd o = None
  /\ ifg o = None
  /\ log o = [ Msg "Initializing";
               if getifg then Problem AttributeError
               else Msg "No Interferogram requested or not found ... skipping." ].
Proof.
  unfold init, init_body, has_block, attr, log_append, bind, modify,
    try_except, get, ret, raise.
  cbn -[rfind str_slice].
  destruct (0 <? rfind "/" path); destruct getifg;
    cbn -[rfind str_slice]; rewrite ?andb_false_r;
    repeat split; reflexivity.
Qed.

(** ** Folder and file name *)


Lemma keeps_names_of_keeps {A} (m : M A) : keeps m -> keeps_names m.
Proof.
  intros H o. specialize (H o). unfold flags in H. unfold names.
  injection H as _ _ _ _ _ _ _ _ -> ->. reflexivity.
Qed.

Lemma keeps_names_of_only_logs {A} (m : M A) : only_logs m -> keeps_names m.
Proof. intros H o. destruct (H o) as [l ->]. reflexivity. Qed.

Lemma keeps_names_bind {A B} (m : M A) (k : A -> M B) :
  keeps_names m -> (forall a, keeps_names (k a)) -> keeps_names (bind m k).
Proof.
  intros Hm Hk o. unfold bind. specialize (Hm o).
  destruct (m o) as [[a|e] o1]; cbn [snd] in *.
  - rewrite (Hk a o1). exact Hm.
  - exact Hm.
Qed.

Lemma keeps_names_try_except {A} (m : M A) (h : exn -> M A) :
  keeps_names m -> (forall e, keeps_names (h e)) ->
  keeps_names (try_except m h).
Proof.
  intros Hm Hh o. unfold try_except. specialize (Hm o).
  destruct (m o) as [[a|e] o1]; cbn [snd] in *.
  - exact Hm.
  - rewrite (Hh e o1). exact Hm.
Qed.

Lemma keeps_names_test_if_ftsfile (disk : string -> option bytes) :
  keeps_names (test_if_ftsfile disk).
Proof.
  intros o. destruct (test_if_ftsfile_state disk o) as [l ->]. reflexivity.
Qed.

(** What follows the computation of folder and file name in the [try]
    block of the constructor. *)
Lemma init_body_names (disk : string -> option bytes)
  (getifg getslices : bool) (o : ftsreader) :
  names (snd (init_body disk getifg getslices o))
  = if 0 <? rfind "/" (path o)
    then (Some (str_slice (path o) None (Some (rfind "/" (path o)))),
          Some (str_slice (path o) (Some (rfind "/" (path o) + 1)) None))
    else (Some "./", Some (path o)).
Proof.
  unfold init_body.
  erewrite bind_Ok by reflexivity.
  destruct (0 <? rfind "/" (path o)); erewrite bind_Ok by reflexivity.
  all: match goal with
       | |- names (snd (?m ?s)) = _ =>
           assert (H : keeps_names m); [|exact (H s)]
       end.
  all: apply keeps_names_bind;
    [destruct getslices; cbn [negb];
       [apply keeps_names_of_only_logs, only_logs_ret
       | apply keeps_names_test_if_ftsfile]|].
  all: intros _.
  all: apply keeps_names_bind;
    [apply keeps_names_of_only_logs, only_logs_get|].
  all: intros o2.
  all: apply keeps_names_bind.
  all: try (intros _;
            apply keeps_names_bind;
              [apply keeps_names_of_only_logs, only_logs_get|];
            intros o3;
            destruct (verbose o3 && negb (status o3));
              apply keeps_names_of_only_logs;
              [apply only_logs_log_append | apply only_logs_ret]).
  all: destruct (status o2);
    [|apply keeps_names_of_only_logs, only_logs_raise].
  all: apply keeps_names_bind;
    [destruct getslices; cbn [negb];
       [apply keeps_names_of_only_logs, only_logs_ret|];
     apply keeps_names_bind;
       [apply keeps_names_of_keeps, keeps_read_header|];
     intros _; apply keeps_names_of_only_logs, only_logs_ret|].
  all: intros _.
  all: apply keeps_names_bind;
    [destruct getifg;
       [apply keeps_names_of_only_logs, only_logs_has_block
       | apply keeps_names_of_only_logs, only_logs_ret]|].
  all: intros present.
  all: destruct (getifg && present);
    [|apply keeps_names_of_only_logs, only_logs_log_append].
  all: apply keeps_names_bind;
    [apply keeps_names_of_only_logs, only_logs_get_datablocks|].
  all: intros [x y]; intros o3; reflexivity.
Qed.

Lemma init_names (disk : string -> option bytes) (path : string)
  (verbose getifg getslices : bool) (filemode : string)
  (streamdata : option bytes) :
  names (init disk path verbose getifg getslices filemode streamdata)
  = if 0 <? rfind "/" path
    then (Some (str_slice path None (Some (rfind "/" path))),
          Some (str_slice path (Some (rfind "/" path + 1)) None))
    else (Some "./", Some path).
Proof.
  unfold init.
  erewrite bind_Ok by reflexivity.
  set (o1 := set_log (log (new path verbose filemode streamdata)
                      ++ [Msg "Initializing"])
               (new path verbose filemode streamdata)).
  pose proof (init_body_names disk getifg getslices o1) as H.
  change (Fts.path o1) with path in H.
  unfold try_except.
  destruct (init_body disk getifg getslices o1) as [[[]|e] o2];
    cbn [snd] in *; exact H.
Qed.

Lemma rfind_from_spec (c : ascii) (s : string) (i last : Z) :
  let r := rfind_from c s i last in
  (r = last /\ ~ In c (list_ascii_of_string s))
  \/ (i <= r < i + Z.of_nat (String.length s)
      /\ exists pre post,
           list_ascii_of_string s = pre ++ c :: post
           /\ Z.of_nat (List.length pre) = r - i
           /\ ~ In c post).
Proof.
  revert i last. induction s as [|a rest IH]; intros i last r; subst r.
  - left. split; [reflexivity | intros []].
  - cbn [rfind_from list_ascii_of_string String.length].
    destruct (IH (i + 1) (if Ascii.eqb a c then i else last))
      as [[Hr Hnot]|[Hr [pre [post [Hl [Hlen Hpost]]]]]].
    + rewrite Hr. destruct (Ascii.eqb_spec a c) as [->|Hne].
      * right. split; [lia|]. exists [], (list_ascii_of_string rest).
        repeat split; [cbn; lia | exact Hnot].
      * left. split; [reflexivity|]. intros [Heq|Hin]; auto.
    + right. split; [lia|]. exists (a :: pre), post.
      rewrite Hl. repeat split; [cbn [List.length]; lia | exact Hpost].
Qed.

Lemma rfind_from_absent (c : ascii) (s : string) (i last : Z) :
  ~ In c (list_ascii_of_string s) -> rfind_from c s i last = last.
Proof.
  revert i last. induction s as [|a rest IH]; intros i last H; [reflexivity|].
  cbn [rfind_from]. cbn [list_ascii_of_string] in H.
  destruct (Ascii.eqb_spec a c) as [->|Hne].
  - exfalso. apply H. now left.
  - apply IH. intros Hin. apply H. now right.
Qed.

Lemma string_of_list_ascii_app (a b : list ascii) :
  string_of_list_ascii (a ++ b)
  = string_of_list_ascii a +++ string_of_list_ascii b.
Proof.
  induction a as [|x a IH]; [reflexivity|].
  cbn [app string_of_list_ascii String.append]. now rewrite IH.
Qed.

(** X21. The constructor always sets [folder] and [filename].  When the
    last ['/'] of the path is not its first character, they are the parts
    before and after it: joined by ['/'] they give the path back, and the
    file name holds no ['/'].  Otherwise, also for a path such as
    ['/name'] whose only ['/'] comes first, the folder is ['./'] and the
    file name is the whole path. *)
Theorem init_folder_filename (disk : string -> option bytes) (path : string)
  (verbose getifg getslices : bool) (filemode : string)
  (streamdata : option bytes) :
  let o := init disk path verbose getifg getslices filemode streamdata in
  (0 < rfind "/" path ->
   exists d n,
     folder o = Some d /\ filename o = Some n
     /\ path = d +++ "/" +++ n
     /\ rfind "/" n = -1)
  /\ (rfind "/" path <= 0 ->
      folder o = Some "./" /\ filename o = Some path).
Proof.
  intros o.
  pose proof (init_names disk path verbose getifg getslices filemode
                streamdata) as Hn.
  fold o in Hn. unfold names in Hn.
  split; intros Hk.
  - destruct (Z.ltb_spec 0 (rfind "/" path)); [|lia].
    injection Hn as Hd Hf.
    eexists _, _. split; [exact Hd|]. split; [exact Hf|].
    unfold rfind in *.
    destruct (rfind_from_spec "/" path 0 (-1))
      as [[Hr _]|[Hr [pre [post [Hl [Hlen Hpost]]]]]]; [lia|].
    set (k := rfind_from "/" path 0 (-1)) in *.
    assert (Hpre : str_slice path None (Some k) = string_of_list_ascii pre).
    { unfold str_slice. rewrite Hl.
      replace k with (Z.of_nat (List.length pre)) by lia.
      rewrite slice_prefix, firstn_app, Nat.sub_diag, firstn_all.
      cbn [firstn]. now rewrite app_nil_r. }
    assert (Hpost' : str_slice path (Some (k + 1)) None
                     = string_of_list_ascii post).
    { unfold str_slice, slice, slice_bounds, slice_index. rewrite Hl.
      rewrite length_app. cbn [List.length].
      destruct (Z.ltb_spec (k + 1) 0); [lia|].
      replace (Z.to_nat
                 (Z.min (Z.of_nat (List.length pre + S (List.length post)))
                    (Z.max 0 (k + 1))))
        with (List.length pre + 1)%nat by lia.
      rewrite firstn_all2 by (rewrite length_skipn, length_app;
                              cbn [List.length]; lia).
      rewrite skipn_app, skipn_all2 by lia.
      replace (List.length pre + 1 - List.length pre)%nat with 1%nat by lia.
      reflexivity. }
    rewrite Hpre, Hpost'. split.
    + rewrite <- (string_of_list_ascii_of_string path), Hl.
      rewrite string_of_list_ascii_app. reflexivity.
    + apply rfind_from_absent.
      now rewrite list_ascii_of_string_of_list_ascii.
  - destruct (Z.ltb_spec 0 (rfind "/" path)); [lia|].
    injection Hn as Hd Hf. split; assumption.
Qed.

Lemma init_folder_filename_witness :
  exists d n,
    folder (init nodisk "dir/file" false false false "hdd" None) = Some d
    /\ filename (init nodisk "dir/file" false false false "hdd" None)
       = Some n
    /\ "dir/file" = d +++ "/" +++ n
    /\ rfind "/" n = -1.
Proof.
  apply (proj1 (init_folder_filename nodisk "dir/file" false false false
                  "hdd" None)).
  vm_compute. reflexivity.
Defined.

(** ** Little-endian words *)

Lemma byte_of_N_small (n : N) :
  (n < 256)%N -> exists b, Byte.of_N n = Some b /\ Byte.to_N b = n.
Proof.
  intros H. destruct (Byte.of_N n) as [b|] eqn:E.
  - exists b. split; [reflexivity|]. now apply Byte.to_of_N.
  - apply Byte.of_N_None_iff in E. lia.
Qed.

Lemma le_S (w : nat) (z : Z) :
  le (S w) z
  = match Byte.of_N (Z.to_N (z mod 256)) with
    | Some b => b
    | None => x00
    end :: le w (z / 256).
Proof.
  unfold le. cbn [seq map]. f_equal.
  - cbn [Z.of_nat Z.mul Z.pow]. now rewrite Z.div_1_r.
  - rewrite <- seq_shift, map_map. apply map_ext. intros i.
    replace (8 * Z.of_nat (S i)) with (8 + 8 * Z.of_nat i) by lia.
    rewrite Z.pow_add_r by lia.
    rewrite Z.div_div by lia. reflexivity.
Qed.

Lemma le_uint_le (w : nat) (z : Z) :
  le_uint (le w z) = z mod 2 ^ (8 * Z.of_nat w).
Proof.
  revert z. induction w as [|w IH]; intros z.
  - cbn. now rewrite Z.mod_1_r.
  - rewrite le_S. cbn [le_uint]. rewrite IH.
    assert (Hm : 0 <= z mod 256 < 256) by (apply Z.mod_pos_bound; lia).
    destruct (byte_of_N_small (Z.to_N (z mod 256))) as [b [-> Hb]]; [lia|].
    rewrite Hb, Z2N.id by lia.
    replace (8 * Z.of_nat (S w)) with (8 + 8 * Z.of_nat w) by lia.
    rewrite Z.pow_add_r by lia. change (2 ^ 8) with 256.
    rewrite (Z.rem_mul_r z 256 (2 ^ (8 * Z.of_nat w))) by lia.
    reflexivity.
Qed.

Lemma length_le (w : nat) (z : Z) : List.length (le w z) = w.
Proof. unfold le. now rewrite length_map, length_seq. Qed.


(** ** Parsing a block of records *)

Lemma firstn_exact {A} (n : nat) (a b : list A) :
  List.length a = n -> firstn n (a ++ b) = a.
Proof.
  intros <-. induction a as [|x a IH]; [reflexivity|].
  cbn [List.length firstn app]. now rewrite IH.
Qed.

Lemma skipn_exact {A} (n : nat) (a b : list A) :
  List.length a = n -> skipn n (a ++ b) = b.
Proof.
  intros <-. induction a as [|x a IH]; [reflexivity|].
  cbn [List.length skipn app]. exact IH.
Qed.

Lemma unpack_4s2H_record (para : bytes) (t l : Z) :
  List.length para = 4%nat -> 0 <= t < 65536 -> 0 <= l < 65536 ->
  unpack_4s2H (para ++ le 2 t ++ le 2 l) = Ok (para, t, l).
Proof.
  intros Hp Ht Hl. unfold unpack_4s2H, has_len, sub.
  rewrite !length_app, !length_le, Hp.
  change (Z.of_nat (4 + (2 + 2)) =? 8) with true. cbv iota.
  change (skipn 0 (para ++ le 2 t ++ le 2 l)) with (para ++ le 2 t ++ le 2 l).
  rewrite (firstn_exact 4 para) by exact Hp.
  rewrite (skipn_exact 4 para) by exact Hp.
  rewrite (firstn_exact 2 (le 2 t)) by apply length_le.
  replace (skipn 6 (para ++ le 2 t ++ le 2 l)) with (le 2 l).
  2:{ change 6%nat with (2 + 4)%nat. rewrite <- skipn_skipn.
      rewrite (skipn_exact 4 para) by exact Hp.
      rewrite (skipn_exact 2 (le 2 t)) by apply length_le. reflexivity. }
  rewrite <- (app_nil_r (le 2 l)) at 1.
  rewrite (firstn_exact 2 (le 2 l)) by apply length_le.
  rewrite !le_uint_le.
  change (2 ^ (8 * Z.of_nat 2)) with 65536.
  rewrite !Z.mod_small by lia. reflexivity.
Qed.

Lemma read_at_mid (a b c : bytes) :
  read_at (a ++ b ++ c) (Z.of_nat (List.length a))
    (Z.of_nat (List.length b)) = b.
Proof.
  unfold read_at.
  destruct (Z.ltb_spec (Z.of_nat (List.length b)) 0); [lia|].
  rewrite !Nat2Z.id.
  rewrite (skipn_exact (List.length a) a) by reflexivity.
  apply firstn_exact. reflexivity.
Qed.

Lemma length_encode_record (r : param_record) :
  well_framed r ->
  Z.of_nat (List.length (encode_record r)) = 8 + 2 * r_words r.
Proof.
  intros [Hp [_ [_ [_ Hl]]]]. unfold encode_record.
  rewrite !length_app, !length_le, Hp. lia.
Qed.

Lemma getparams_step_record (f : bytes) (offset i : Z)
  (params : dict HeaderValue) (o : ftsreader) (pre rest : bytes)
  (r : param_record) :
  f = pre ++ encode_record r ++ rest ->
  offset + i = Z.of_nat (List.length pre) ->
  well_framed r ->
  fst (getparams_step f offset false (i, params, []) o)
  = Ok (true, (i + Z.of_nat (List.length (encode_record r)),
               store params r, [])).
Proof.
  intros Hf Hi Hwf. pose proof (length_encode_record r Hwf) as Hlen.
  destruct Hwf as [Hp [Hend [Ht [Hw Hl]]]].
  set (hdr := r_para r ++ le 2 (r_type r) ++ le 2 (r_words r)).
  assert (Hhdr : List.length hdr = 8%nat)
    by (unfold hdr; rewrite !length_app, !length_le, Hp; reflexivity).
  assert (Hf1 : f = pre ++ hdr ++ (r_payload r ++ rest)).
  { rewrite Hf. unfold encode_record, hdr. now rewrite <- !app_assoc. }
  assert (Hf2 : f = (pre ++ hdr) ++ r_payload r ++ rest).
  { rewrite Hf1. now rewrite <- !app_assoc. }
  assert (Hs : read_at f (offset + i) 8 = hdr).
  { rewrite Hi. change 8 with (Z.of_nat 8). rewrite <- Hhdr.
    rewrite Hf1 at 1. apply read_at_mid. }
  assert (Hd : read_at f (offset + (i + 8)) (2 * r_words r) = r_payload r).
  { replace (offset + (i + 8)) with (Z.of_nat (List.length (pre ++ hdr)))
      by (rewrite length_app, Hhdr; lia).
    rewrite <- Hl. rewrite Hf2 at 1. apply read_at_mid. }
  unfold getparams_step.
  erewrite bind_Ok by (apply seek_ok; lia). cbv zeta.
  rewrite Hs. unfold hdr.
  rewrite unpack_4s2H_record by (assumption || lia).
  erewrite bind_Ok by reflexivity. cbv beta iota zeta.
  rewrite (bytes_eqb_false _ _ Hend). cbn [negb andb].
  destruct (Z.ltb_spec 0 (r_words r)); [|lia].
  erewrite bind_Ok by (apply seek_ok; lia).
  rewrite Hd, Hlen.
  replace (i + (8 + 2 * r_words r)) with (i + 8 + 2 * r_words r) by lia.
  unfold store, try_except, bind, lift, ret, log_append, modify.
  destruct (decode_value (r_type r) (r_words r) (r_payload r)) as [val|e].
  - destruct (decode_utf8 (trim_para (r_para r))) as [key|e]; reflexivity.
  - reflexivity.
Qed.

Lemma getparams_step_end (f : bytes) (offset i : Z)
  (params : dict HeaderValue) (o : ftsreader) (pre rest : bytes) :
  f = pre ++ end_record ++ rest ->
  offset + i = Z.of_nat (List.length pre) ->
  getparams_step f offset false (i, params, []) o
  = (Ok (false, (i + 8, params, [])), o).
Proof.
  intros Hf Hi.
  assert (Hs : read_at f (offset + i) 8 = end_record).
  { rewrite Hi, Hf. change 8 with (Z.of_nat (List.length end_record)).
    apply read_at_mid. }
  unfold getparams_step.
  erewrite bind_Ok by (apply seek_ok; lia). cbv zeta.
  rewrite Hs. reflexivity.
Qed.

Lemma getparams_loop_records (f : bytes) (offset : Z) (rest : bytes)
  (rs : list param_record) :
  Forall well_framed rs ->
  forall (pre : bytes) (i : Z) (params : dict HeaderValue) (fuel : nat)
         (o : ftsreader),
    f = pre ++ List.concat (map encode_record rs) ++ end_record ++ rest ->
    offset + i = Z.of_nat (List.length pre) ->
    (List.length rs < fuel)%nat ->
    exists i',
      fst (getparams_loop fuel f offset false (i, params, []) o)
      = Ok (i', fold_left store rs params, []).
Proof.
  induction 1 as [|r rs Hr Hrs IH]; intros pre i params fuel o Hf Hi Hfuel.
  - destruct fuel as [|k]; [cbn in Hfuel; lia|].
    cbn [getparams_loop map List.concat app] in *.
    erewrite bind_Ok by (eapply getparams_step_end; eassumption).
    cbn. eexists. reflexivity.
  - destruct fuel as [|k]; [cbn in Hfuel; lia|].
    cbn [getparams_loop map List.concat fold_left] in *.
    rewrite <- app_assoc in Hf.
    pose proof (getparams_step_record f offset i params o pre _ r Hf Hi Hr)
      as Hstep.
    destruct (getparams_step f offset false (i, params, []) o)
      as [res o1] eqn:Hrun.
    cbn [fst] in Hstep. subst res.
    erewrite bind_Ok by exact Hrun. cbn [fst snd].
    apply (IH (pre ++ encode_record r)).
    + rewrite Hf. now rewrite <- !app_assoc.
    + rewrite length_app. lia.
    + cbn [List.length] in Hfuel. lia.
Qed.

Lemma records_fuel (rs : list param_record) :
  Forall well_framed rs ->
  (List.length rs <= List.length (List.concat (map encode_record rs)))%nat.
Proof.
  induction 1 as [|r rs Hr Hrs IH]; [reflexivity|].
  cbn [map List.concat List.length]. rewrite length_app.
  pose proof (length_encode_record r Hr) as Hl.
  destruct Hr as [_ [_ [_ [Hw _]]]]. lia.
Qed.

(** X22. A block of well-framed records followed by an [END] record is
    decoded record by record, in order: [getparamsfromblock] returns the
    dictionary in which each record whose value and tag can be decoded has
    set its entry (a later record with the same tag replaces the value),
    and the records that cannot be decoded are left out.  What comes
    before the block and after the [END] record, and the argument
    [length], make no difference. *)
Theorem getparamsfromblock_decodes (disk : string -> option bytes)
  (o : ftsreader) (pre rest : bytes) (rs : list param_record)
  (length : Z) :
  source disk (path o) (filemode o) (streamdata o)
  = Ok (pre ++ List.concat (map encode_record rs) ++ end_record ++ rest) ->
  Forall well_framed rs ->
  fst (getparamsfromblock disk (Z.of_nat (List.length pre)) length o)
  = Ok (fold_left store rs []).
Proof.
  intros Hs Hwf.
  remember (pre ++ List.concat (map encode_record rs) ++ end_record ++ rest)
    as f eqn:Hf.
  unfold getparamsfromblock, getparams_run.
  destruct (getparams_loop_records f (Z.of_nat (List.length pre)) rest rs Hwf
              pre 0 [] (S (List.length f)) o) as [i' Hloop].
  - exact Hf.
  - lia.
  - pose proof (records_fuel rs Hwf). rewrite Hf, !length_app. lia.
  - unfold bind at 1.
    unfold bind at 1. rewrite getfileobject_eq, Hs.
    destruct (getparams_loop (S (List.length f)) f
                (Z.of_nat (List.length pre)) false (0, [], []) o)
      as [res o1] eqn:E.
    assert (Hres : res = Ok (i', fold_left store rs [], []))
      by (rewrite <- Hloop; exact (eq_sym (f_equal fst E))).
    subst res. reflexivity.
Qed.


Lemma getparamsfromblock_decodes_witness :
  fst (getparamsfromblock nodisk 48 6 (new "" false "mem" (Some ifg_file)))
  = Ok [("RES", VFloat 4591870180066957722)].
Proof.
  apply (getparamsfromblock_decodes nodisk
           (new "" false "mem" (Some ifg_file))
           (firstn 48 ifg_file) two_samples [res_record] 6).
  - vm_compute. reflexivity.
  - constructor; [|constructor].
    unfold well_framed. repeat split; vm_compute; congruence.
Defined.

(** ** The calls that [read_header] logs *)

Lemma decode_calls_app (a b : list log_entry) :
  decode_calls (a ++ b) = decode_calls a ++ decode_calls b.
Proof. unfold decode_calls. apply flat_map_app. Qed.

Lemma calls_ret {A} (a : A) : calls (ret a) [].
Proof. intros o. exists []. cbn. now rewrite app_nil_r. Qed.

Lemma calls_raise {A} (e : exn) : calls (@raise A e) [].
Proof. intros o. exists []. cbn. now rewrite app_nil_r. Qed.

Lemma calls_lift {A} (r : result A) : calls (lift r) [].
Proof. intros o. exists []. cbn. now rewrite app_nil_r. Qed.

Lemma calls_get : calls get [].
Proof. intros o. exists []. cbn. now rewrite app_nil_r. Qed.

Lemma calls_modify (f : ftsreader -> ftsreader) :
  (forall o, log (f o) = log o) -> calls (modify f) [].
Proof. intros H o. exists []. cbn. now rewrite H, app_nil_r. Qed.

Lemma calls_log_append (e : log_entry) :
  decode_call e = None -> calls (log_append e) [].
Proof.
  intros H o. exists [e]. split; [reflexivity|].
  unfold decode_calls. cbn [flat_map]. now rewrite H.
Qed.

Lemma calls_bind {A B} (m : M A) (k : A -> M B) :
  calls m [] -> (forall a, calls (k a) []) -> calls (bind m k) [].
Proof.
  intros Hm Hk o. unfold bind. destruct (Hm o) as [l1 [H1 D1]].
  destruct (m o) as [[a|e] o1]; cbn [snd] in *.
  - destruct (Hk a o1) as [l2 [H2 D2]]. exists (l1 ++ l2).
    rewrite H2, H1, app_assoc, decode_calls_app, D1, D2. now split.
  - exists l1. now split.
Qed.

Lemma calls_try_except {A} (m : M A) (h : exn -> M A)
  (blocks : list string) :
  calls m blocks -> (forall e, calls (h e) []) ->
  calls (try_except m h) blocks.
Proof.
  intros Hm Hh o. unfold try_except. destruct (Hm o) as [l1 [H1 D1]].
  destruct (m o) as [[a|e] o1]; cbn [snd] in *.
  - exists l1. now split.
  - destruct (Hh e o1) as [l2 [H2 D2]]. exists (l1 ++ l2).
    rewrite H2, H1, app_assoc, decode_calls_app, D1, D2, app_nil_r.
    now split.
Qed.

Lemma calls_logged {A} (block : string) (k : M A) :
  calls k [] ->
  calls (log_append (Msg ("Reading Header Block: " +++ block)) ;; k) [block].
Proof.
  intros Hk o. unfold bind, log_append, modify.
  set (o1 := set_log _ o).
  destruct (Hk o1) as [l [H D]].
  exists (Msg ("Reading Header Block: " +++ block) :: l).
  rewrite H. subst o1. cbn [log set_log]. rewrite <- app_assoc.
  split; [reflexivity|].
  change (Msg ("Reading Header Block: " +++ block) :: l)
    with ([Msg ("Reading Header Block: " +++ block)] ++ l).
  rewrite decode_calls_app, D, app_nil_r. reflexivity.
Qed.

Lemma calls_attr {A} (field : ftsreader -> option A) : calls (attr field) [].
Proof.
  unfold attr. apply calls_bind; [apply calls_get|].
  intros o. destruct (field o); [apply calls_ret | apply calls_raise].
Qed.

Lemma calls_getfileobject (disk : string -> option bytes) :
  calls (getfileobject disk) [].
Proof.
  intros o. exists []. rewrite getfileobject_eq. cbn. now rewrite app_nil_r.
Qed.

Lemma calls_seek (pos : Z) : calls (seek pos) [].
Proof.
  unfold seek. apply calls_bind; [apply calls_get|].
  intros o. destruct (pos <? 0); [apply calls_raise | apply calls_ret].
Qed.

Lemma calls_read_entries (f : bytes) (n : nat) (pos : Z) :
  calls (read_entries f n pos) [].
Proof.
  revert pos. induction n as [|k IH]; intros pos; cbn [read_entries].
  - apply calls_ret.
  - apply calls_bind; [|intros ?; apply IH].
    unfold read_entry, fs_setitem.
    apply calls_bind; [apply calls_lift|].
    intros [[[[bt bt2] r] len] off2]. cbv beta iota zeta.
    apply calls_bind; [apply calls_log_append; reflexivity|]. intros _.
    apply calls_bind; [apply calls_attr|]. intros cur.
    apply calls_modify. intros o. reflexivity.
Qed.

Lemma calls_read_structure (disk : string -> option bytes) :
  calls (read_structure disk) [].
Proof.
  unfold read_structure.
  apply calls_bind; [apply calls_modify; intros o; reflexivity|]. intros _.
  apply calls_bind; [apply calls_getfileobject|]. intros f.
  apply calls_bind; [apply calls_seek|]. intros _.
  apply calls_bind; [apply calls_log_append; reflexivity|]. intros _.
  apply calls_bind; [apply calls_lift|].
  intros [[[[[a b] c] offset1] d] n]. cbv beta iota zeta.
  apply calls_bind; [apply calls_seek|]. intros _.
  apply calls_read_entries.
Qed.

Lemma calls_getparams_step (f : bytes) (offset : Z) (full : bool)
  (st : loop_state) : calls (getparams_step f offset full st) [].
Proof.
  unfold getparams_step. destruct st as [[i params] fullblock].
  apply calls_bind; [apply calls_seek|]. intros _. cbv zeta.
  apply calls_bind; [apply calls_lift|].
  intros [[para0 thistype] length]. cbv beta iota zeta.
  match goal with |- calls (if ?b then _ else _) _ => destruct b end;
    [|apply calls_ret].
  apply calls_bind; [apply calls_seek|]. intros _.
  apply calls_try_except.
  - apply calls_bind; [apply calls_lift|]. intros val.
    apply calls_bind; [apply calls_lift|]. intros key. apply calls_ret.
  - intros e. apply calls_bind; [apply calls_log_append; reflexivity|].
    intros _. apply calls_ret.
Qed.

Lemma calls_getparams_loop (fuel : nat) (f : bytes) (offset : Z)
  (full : bool) (st : loop_state) :
  calls (getparams_loop fuel f offset full st) [].
Proof.
  revert st. induction fuel as [|k IH]; intros st; cbn [getparams_loop].
  - apply calls_raise.
  - apply calls_bind; [apply calls_getparams_step|].
    intros [go st']. cbn [fst snd]. destruct go; [apply IH | apply calls_ret].
Qed.

Lemma calls_getparamsfromblock (disk : string -> option bytes)
  (offset length : Z) : calls (getparamsfromblock disk offset length) [].
Proof.
  unfold getparamsfromblock, getparams_run.
  apply calls_bind; [|intros ?; apply calls_ret].
  apply calls_bind; [apply calls_getfileobject|]. intros f.
  apply calls_getparams_loop.
Qed.

(** One turn of the loop of [read_header] logs the call it makes, if it
    makes one. *)
Lemma read_header_block_calls (disk : string -> option bytes)
  (block : string) (o : ftsreader) (d : dict BlockDescriptor)
  (desc : BlockDescriptor) :
  fs o = Some d ->
  dict_get block d = Some desc ->
  exists l,
    log (snd (read_header_block disk block o)) = log o ++ l
    /\ decode_calls l = if is_header_block block desc then [block] else [].
Proof.
  intros Hfs Hget. unfold read_header_block, is_header_block.
  erewrite bind_Ok by (apply attr_Some; eassumption).
  erewrite bind_Ok by (unfold lift, dict_item; rewrite Hget; reflexivity).
  destruct (negb (String.eqb (str_slice block None (Some 10)) "Data Block")
            && (0 <? length desc)); cbn [andb].
  2:{ exists []. cbn. now rewrite app_nil_r. }
  destruct (contains "unknown" block || contains "something" block);
    cbn [negb].
  { exists []. cbn. now rewrite app_nil_r. }
  apply (calls_try_except _ _ [block]).
  - apply calls_logged.
    apply calls_bind; [apply calls_getparamsfromblock|]. intros params.
    unfold header_setitem.
    apply calls_bind; [apply calls_attr|]. intros h.
    apply calls_modify. intros o'. reflexivity.
  - intros e. apply calls_log_append. reflexivity.
Qed.

Lemma read_header_loop_calls (disk : string -> option bytes)
  (o0 : ftsreader) (d : dict BlockDescriptor) :
  dict_wf d ->
  forall (todo done : dict BlockDescriptor) (o : ftsreader),
    d = done ++ todo ->
    same_source o0 o ->
    fs o = Some d ->
    header o = Some (header_of disk o0 done) ->
    exists l,
      log (snd (for_each (dict_keys todo) (read_header_block disk) o))
      = log o ++ l
      /\ decode_calls l
         = dict_keys (filter (fun entry => is_header_block (fst entry)
                                             (snd entry)) todo).
Proof.
  intros Hwf todo.
  induction todo as [|[block desc] rest IH]; intros done o Hd Hs Hfs Hh.
  - exists []. cbn. now rewrite app_nil_r.
  - assert (Hnew : ~ In block (dict_keys done)).
    { unfold dict_wf, dict_keys in Hwf. rewrite Hd, map_app in Hwf.
      simpl in Hwf. apply NoDup_remove_2 in Hwf.
      intros I. apply Hwf. apply in_or_app. now left. }
    assert (Hget : dict_get block d = Some desc)
      by (rewrite Hd; now apply dict_get_app_fresh).
    destruct (read_header_block_step disk o0 o d (header_of disk o0 done)
                block desc Hs Hfs Hget Hh) as [o1 [Hrun [Hs1 [Hfs1 Hh1]]]].
    { intros I. apply Hnew. now apply (header_of_keys disk o0). }
    destruct (read_header_block_calls disk block o d desc Hfs Hget)
      as [l1 [Hl1 D1]].
    rewrite Hrun in Hl1. cbn [snd] in Hl1.
    destruct (IH (done ++ [(block, desc)]) o1) as [l2 [Hl2 D2]].
    + now rewrite <- app_assoc.
    + exact Hs1.
    + exact Hfs1.
    + rewrite header_of_app. cbn [header_of flat_map].
      now rewrite app_nil_r.
    + exists (l1 ++ l2).
      cbn [dict_keys map fst for_each].
      erewrite bind_Ok by exact Hrun.
      fold (dict_keys rest). rewrite Hl2, Hl1, app_assoc.
      split; [reflexivity|].
      rewrite decode_calls_app, D1, D2. cbn [filter fst snd].
      destruct (is_header_block block desc); reflexivity.
Qed.

(** What [read_header] logs when it returns. *)
Lemma read_header_calls (disk : string -> option bytes)
  (o o' : ftsreader) :
  read_header disk o = (Ok 0, o') ->
  exists d l,
    fs o' = Some d
    /\ log o' = log o ++ l
    /\ decode_calls l
       = dict_keys (filter (fun entry => is_header_block (fst entry)
                                           (snd entry)) d).
Proof.
  unfold read_header. intros Hrun.
  erewrite bind_Ok in Hrun by reflexivity.
  set (o1 := set_log (log o ++ [Msg "Reading Header ..."]) o) in *.
  pose proof (read_structure_inv disk o1) as [Hs [_ [d [Hfs Hwf]]]].
  destruct (calls_read_structure disk o1) as [ls [Hls Ds]].
  destruct (read_structure disk o1) as [[[]|e] o2] eqn:Hstruct;
    cbn [snd] in *.
  2:{ erewrite bind_Raise in Hrun by eassumption. discriminate. }
  erewrite bind_Ok in Hrun by eassumption.
  erewrite bind_Ok in Hrun by reflexivity.
  erewrite bind_Ok in Hrun by (apply attr_Some; cbn; eassumption).
  destruct (read_header_loop disk o d Hwf d [] (set_header [] o2))
    as [o3 [Hloop [Hs3 [Hfs3 Hh3]]]].
  - reflexivity.
  - eapply same_source_trans; [apply (same_source_ext o)|].
    eapply same_source_trans; [exact Hs|]. now repeat split.
  - exact Hfs.
  - reflexivity.
  - destruct (read_header_loop_calls disk o d Hwf d [] (set_header [] o2))
      as [ll [Hll Dl]].
    + reflexivity.
    + eapply same_source_trans; [apply (same_source_ext o)|].
      eapply same_source_trans; [exact Hs|]. now repeat split.
    + exact Hfs.
    + reflexivity.
    + rewrite Hloop in Hll. cbn [snd] in Hll.
      erewrite bind_Ok in Hrun by exact Hloop.
      injection Hrun as <-.
      exists d, ([Msg "Reading Header ..."] ++ ls ++ ll).
      split; [exact Hfs3|]. split.
      * rewrite Hll. cbn [log set_header]. rewrite Hls.
        subst o1. cbn [log set_log]. now rewrite <- !app_assoc.
      * rewrite !decode_calls_app, Ds, Dl. reflexivity.
Qed.

Lemma is_header_block_other_type (bt bt2 len : Z) (desc : BlockDescriptor) :
  0 <= bt < 256 ->
  0 <= bt2 < 256 ->
  parameter_type bt = false ->
  is_header_block (hdrblockname (str_of_Z bt) (str_of_Z bt2) len) desc
  = false.
Proof.
  intros Hbt Hbt2 Hpar.
  pose proof name_check_all as Hall.
  rewrite forallb_forall in Hall.
  specialize (Hall bt (in_byte_values bt Hbt)).
  rewrite forallb_forall in Hall.
  specialize (Hall bt2 (in_byte_values bt2 Hbt2)).
  unfold name_check in Hall. rewrite Hpar in Hall.
  unfold is_header_block, hdrblockname.
  destruct (String.eqb (str_of_Z bt) "0"
            || negb (dict_mem (str_of_Z bt) blocknames)).
  - apply andb_prop in Hall. destruct Hall as [Hskip _].
    apply orb_true_iff in Hskip.
    replace (contains "unknown"
               (hdrblockname0 (str_of_Z bt) (str_of_Z bt2) +++ " len "
                +++ fmt_3i len)
             || contains "something"
                  (hdrblockname0 (str_of_Z bt) (str_of_Z bt2) +++ " len "
                   +++ fmt_3i len)) with true.
    + cbn [negb]. now rewrite andb_false_r.
    + symmetry. apply orb_true_iff.
      destruct Hskip as [H|H]; [left | right]; now apply contains_app.
  - apply eqb_prop in Hall.
    destruct (negb (String.eqb
                      (str_slice (hdrblockname0 (str_of_Z bt) (str_of_Z bt2))
                         None (Some 10)) "Data Block"));
      destruct (0 <? length desc);
      destruct (negb (contains "unknown"
                        (hdrblockname0 (str_of_Z bt) (str_of_Z bt2))
                      || contains "something"
                           (hdrblockname0 (str_of_Z bt) (str_of_Z bt2))));
      (reflexivity || discriminate).
Qed.

Lemma header_of_key_block (disk : string -> option bytes) (o : ftsreader)
  (d : dict BlockDescriptor) (k : string) :
  In k (dict_keys (header_of disk o d)) ->
  exists desc, In (k, desc) d /\ is_header_block k desc = true.
Proof.
  unfold dict_keys, header_of. intros H.
  apply in_map_iff in H. destruct H as [[k' params] [Hk H]].
  cbn [fst] in Hk. subst k'.
  apply in_flat_map in H. destruct H as [[block desc] [Hin H]].
  unfold header_entry in H. cbn [fst snd] in H.
  destruct (is_header_block block desc) eqn:Hb; [|contradiction].
  destruct (fst (getparamsfromblock disk (offset desc) (length desc) o));
    [|contradiction].
  destruct H as [H|[]]. injection H as <- _.
  exists desc. split; assumption.
Qed.

(** C7, as the code has it.  When [read_header] returns, what it has
    appended to the log holds one entry ['Reading Header Block: <name>'],
    the entry written before each call of [getparamsfromblock], for each
    directory entry whose name does not start with ['Data Block'], whose
    length is positive and whose name contains neither ['unknown'] nor
    ['something']: once each, in directory order, and for no other entry.
    The header holds, in that order, those of these entries whose decoding
    raised nothing.  The name that [read_structure] gives to an entry
    whose primary type code is none of 160, 23, 96, 64, 48 and 32 (an
    unknown code, the unidentified code 0, a data block) is never a key of
    the header. *)
Theorem read_header_blocks (disk : string -> option bytes)
  (o o' : ftsreader) :
  read_header disk o = (Ok 0, o') ->
  exists d l,
    fs o' = Some d
    /\ dict_wf d
    /\ log o' = log o ++ l
    /\ decode_calls l
       = dict_keys (filter (fun entry => is_header_block (fst entry)
                                           (snd entry)) d)
    /\ header o' = Some (header_of disk o d)
    /\ dict_keys (header_of disk o d)
       = dict_keys (filter (header_bearing disk o) d)
    /\ forall bt bt2 len,
         0 <= bt < 256 -> 0 <= bt2 < 256 -> parameter_type bt = false ->
         ~ In (hdrblockname (str_of_Z bt) (str_of_Z bt2) len)
              (dict_keys (header_of disk o d)).
Proof.
  intros Hrun.
  destruct (read_header_run disk o o' Hrun) as [d [Hfs [Hwf Hh]]].
  destruct (read_header_calls disk o o' Hrun) as [d' [l [Hfs' [Hlog Hcalls]]]].
  assert (d' = d) by congruence. subst d'.
  exists d, l.
  split; [exact Hfs|].
  split; [exact Hwf|].
  split; [exact Hlog|].
  split; [exact Hcalls|].
  split; [exact Hh|].
  split; [apply header_of_bearing|].
  intros bt bt2 len Hbt Hbt2 Hpar Hin.
  destruct (header_of_key_block disk o d _ Hin) as [desc [_ Hb]].
  rewrite (is_header_block_other_type bt bt2 len desc Hbt Hbt2 Hpar) in Hb.
  discriminate.
Qed.

Lemma read_header_blocks_witness :
  let o := new "" false "mem" (Some unidentified_block_file) in
  exists d l,
    fs (snd (read_header nodisk o)) = Some d
    /\ dict_wf d
    /\ log (snd (read_header nodisk o)) = log o ++ l
    /\ decode_calls l
       = dict_keys (filter (fun entry => is_header_block (fst entry)
                                           (snd entry)) d)
    /\ header (snd (read_header nodisk o)) = Some (header_of nodisk o d)
    /\ dict_keys (header_of nodisk o d)
       = dict_keys (filter (header_bearing nodisk o) d)
    /\ forall bt bt2 len,
         0 <= bt < 256 -> 0 <= bt2 < 256 -> parameter_type bt = false ->
         ~ In (hdrblockname (str_of_Z bt) (str_of_Z bt2) len)
              (dict_keys (header_of nodisk o d)).
Proof.
  intros o.
  apply (read_header_blocks nodisk o (snd (read_header nodisk o))).
  vm_compute. reflexivity.
Defined.

(** C4, as stated, fails.  A source of three bytes cannot begin with the
    magic number.  Its reader is rejected, but it has no directory at all,
    which is not an empty one: asked for a block it raises
    [AttributeError], where the reader of a file with an empty directory
    answers [False]. *)
Lemma bad_magic_directory_unset :
  let o := init nodisk "" false true false "mem" (Some three_bytes) in
  firstn 4 three_bytes <> ftsmagicval
  /\ status o = false
  /\ fs o <> Some []
  /\ fst (has_block "Data Block IgSm" o) = Raise AttributeError
  /\ fs empty_directory_reader = Some []
  /\ fst (has_block "Data Block IgSm" empty_directory_reader) = Ok false.
Proof.
  cbv zeta. split; [discriminate|]. split; [reflexivity|].
  split; [discriminate|]. repeat split; reflexivity.
Qed.
